(** * CodeGuard workbench: edit history, staged fixes, version archive and
      GitHub ingestion, embedded from the TypeScript sources.

    Layout: the definitions come first, one module per source file
    ([Js] for the JavaScript primitives the code relies on, [Editor] for
    components/Editor.tsx, [App] for App.tsx, [Github] for
    services/githubService.ts); the theorems follow. *)

From Stdlib Require Import String Ascii List Bool Arith ZArith Lia Permutation.
Import ListNotations.
Open Scope string_scope.
Open Scope list_scope.

(* ===================================================================== *)
(** ** JavaScript primitives                                              *)
(* ===================================================================== *)

Module Js.

(** Truthiness of a string: only the empty string is falsy. *)
Definition truthy (s : string) : bool :=
  match s with EmptyString => false | String _ _ => true end.

(** [a || d] where [a] may be [undefined]/[null] ([None]) or a string. *)
Definition or_else (a : option string) (d : string) : string :=
  match a with
  | Some s => if truthy s then s else d
  | None => d
  end.

(** [t] is a prefix of [s]: [s.startsWith(t)]. *)
Fixpoint startsWith (s t : string) {struct t} : bool :=
  match t, s with
  | EmptyString, _ => true
  | String _ _, EmptyString => false
  | String a t', String b s' => Ascii.eqb a b && startsWith s' t'
  end.

(** [s.includes(t)]: [t] occurs in [s] at some offset. *)
Fixpoint includes (s t : string) : bool :=
  startsWith s t ||
  match s with
  | EmptyString => false
  | String _ s' => includes s' t
  end.

(** [s.split(sep)] for a one-character separator; the result is never
    empty (["".split(".")] is [[""]]). *)
Fixpoint split (sep : ascii) (s : string) : list string :=
  match s with
  | EmptyString => [EmptyString]
  | String c r =>
      if Ascii.eqb c sep then EmptyString :: split sep r
      else match split sep r with
           | h :: t => String c h :: t
           | [] => [String c EmptyString]
           end
  end.

(** [arr.pop()]: the last element, [undefined] on an empty array. *)
Fixpoint pop (l : list string) : option string :=
  match l with
  | [] => None
  | [x] => Some x
  | _ :: r => pop r
  end.

(** [s.replace(/\n/g, '')]. *)
Fixpoint stripNewlines (s : string) : string :=
  match s with
  | EmptyString => EmptyString
  | String c r =>
      if Ascii.eqb c "010"%char then stripNewlines r
      else String c (stripNewlines r)
  end.

(** [arr.map((x, i) => f i x)], with the index made explicit. *)
Fixpoint mapi_from {A B : Type} (f : nat -> A -> B) (k : nat) (l : list A)
  : list B :=
  match l with
  | [] => []
  | x :: r => f k x :: mapi_from f (S k) r
  end.

Definition mapi {A B : Type} (f : nat -> A -> B) (l : list A) : list B :=
  mapi_from f 0 l.

(** An optional value as a list of zero or one element. *)
Definition opt_list {A : Type} (o : option A) : list A :=
  match o with Some x => [x] | None => [] end.

(** Replacement of the element at index [i] (nothing out of range). *)
Fixpoint set_nth {A : Type} (i : nat) (x : A) (l : list A) : list A :=
  match l, i with
  | [], _ => []
  | _ :: r, O => x :: r
  | y :: r, S j => y :: set_nth j x r
  end.

(** The rest of [s] after the prefix [t], when [s.startsWith(t)]. *)
Fixpoint dropPrefix (t s : string) {struct t} : option string :=
  match t, s with
  | EmptyString, _ => Some s
  | String _ _, EmptyString => None
  | String a t', String b s' =>
      if Ascii.eqb a b then dropPrefix t' s' else None
  end.

(** The text before and after the first occurrence of [pat] in [s]
    ([s.indexOf(pat)] and the two slices around the match). *)
Fixpoint cut (s pat : string) : option (string * string) :=
  match dropPrefix pat s with
  | Some rest => Some (EmptyString, rest)
  | None =>
      match s with
      | EmptyString => None
      | String c r =>
          match cut r pat with
          | Some (before, after) => Some (String c before, after)
          | None => None
          end
      end
  end.

(** The replacement text of [String.prototype.replace] for a string
    pattern (no capture groups): [$$] is a dollar, [$&] the match, [$`] the
    text before it, [$'] the text after it; any other dollar is literal. *)
Fixpoint substitute (matched before after : string) (r : string) : string :=
  match r with
  | EmptyString => EmptyString
  | String c t =>
      if Ascii.eqb c "$" then
        match t with
        | String d t' =>
            if Ascii.eqb d "$" then String "$" (substitute matched before after t')
            else if Ascii.eqb d "&" then
              (matched ++ substitute matched before after t')%string
            else if Ascii.eqb d "`" then
              (before ++ substitute matched before after t')%string
            else if Ascii.eqb d "'" then
              (after ++ substitute matched before after t')%string
            else String c (substitute matched before after t)
        | EmptyString => String c EmptyString
        end
      else String c (substitute matched before after t)
  end.

(** [s.replace(pat, r)] for a string pattern: the first occurrence only. *)
Definition replace (s pat r : string) : string :=
  match cut s pat with
  | Some (before, after) =>
      (before ++ substitute pat before after r ++ after)%string
  | None => s
  end.

(** [s] without the suffix [suf], when [s.endsWith(suf)]. *)
Fixpoint dropSuffix (suf s : string) : option string :=
  if String.eqb s suf then Some EmptyString
  else match s with
       | EmptyString => None
       | String c r =>
           match dropSuffix suf r with
           | Some rest => Some (String c rest)
           | None => None
           end
       end.

(** [s.replace(/\n$/, '')]: one trailing newline is removed. *)
Definition stripFinalNewline (s : string) : string :=
  match dropSuffix (String "010" EmptyString) s with
  | Some rest => rest
  | None => s
  end.

(** The class [[a-z]] under the [i] flag: the ASCII letters. *)
Definition isLetter (c : ascii) : bool :=
  let n := nat_of_ascii c in
  ((65 <=? n) && (n <=? 90) || (97 <=? n) && (n <=? 122))%nat.

(** The class [\w] (and [\d], which it contains): ASCII letters, digits
    and the underscore. *)
Definition isWord (c : ascii) : bool :=
  let n := nat_of_ascii c in
  (isLetter c || (48 <=? n) && (n <=? 57) || (n =? 95))%nat.

Fixpoint allChars (f : ascii -> bool) (s : string) : bool :=
  match s with
  | EmptyString => true
  | String c r => f c && allChars f r
  end.

End Js.

(* ===================================================================== *)
(** ** components/Editor.tsx: the undo/redo stack                         *)
(* ===================================================================== *)

Module Editor.

(** The [code] prop (what the editor displays; [onChange] replaces it)
    and the two pieces of component state. *)
Record State := mkState {
  code : string;
  editHistory : list string;
  historyPtr : nat
}.

(** [useState([code])], [useState(0)]; also the reset effect that runs
    when [fileId] changes. *)
Definition mount (c : string) : State :=
  {| code := c; editHistory := [c]; historyPtr := 0 |}.

(** [onChange(c)]: the parent stores [c] and passes it back as [code]. *)
Definition onChange (c : string) (s : State) : State :=
  {| code := c; editHistory := editHistory s; historyPtr := historyPtr s |}.

(** [newCode !== editHistory[historyPtr]]; an index out of range reads
    [undefined], which differs from every string. *)
Definition differs (newCode : string) (s : State) : bool :=
  match nth_error (editHistory s) (historyPtr s) with
  | Some cur => negb (String.eqb newCode cur)
  | None => true
  end.

Definition handleChange (newCode : string) (s : State) : State :=
  let s1 := onChange newCode s in
  if differs newCode s then
    let newHistory := firstn (historyPtr s + 1) (editHistory s) ++ [newCode] in
    {| code := code s1;
       editHistory := newHistory;
       historyPtr := length newHistory - 1 |}
  else s1.

(** [editHistory[newPtr]] is typed [string]; outside the array (which the
    guards exclude for a valid pointer) the displayed code is left as it is. *)
Definition handleUndo (s : State) : State :=
  if (0 <? historyPtr s)%nat then
    let newPtr := historyPtr s - 1 in
    match nth_error (editHistory s) newPtr with
    | Some c => {| code := c; editHistory := editHistory s; historyPtr := newPtr |}
    | None => {| code := code s; editHistory := editHistory s; historyPtr := newPtr |}
    end
  else s.

(** [historyPtr < editHistory.length - 1], the subtraction taken in Z as
    in JavaScript (an empty array gives -1). *)
Definition handleRedo (s : State) : State :=
  if (Z.of_nat (historyPtr s) <? Z.of_nat (length (editHistory s)) - 1)%Z then
    let newPtr := historyPtr s + 1 in
    match nth_error (editHistory s) newPtr with
    | Some c => {| code := c; editHistory := editHistory s; historyPtr := newPtr |}
    | None => {| code := code s; editHistory := editHistory s; historyPtr := newPtr |}
    end
  else s.

(** A run of [recordEdit] calls on a freshly mounted editor. *)
Definition recordEdits (init : string) (xs : list string) : State :=
  fold_left (fun s x => handleChange x s) xs (mount init).

(** The user actions of the editor and the states they reach. *)
Inductive Action := Type_ (newCode : string) | Undo | Redo.

Definition act (a : Action) (s : State) : State :=
  match a with
  | Type_ c => handleChange c s
  | Undo => handleUndo s
  | Redo => handleRedo s
  end.

Definition play (init : string) (acts : list Action) : State :=
  fold_left (fun s a => act a s) acts (mount init).

(** The data-model invariant: the pointer is a valid index and the entry
    under it is the displayed content. *)
Definition wf (s : State) : Prop :=
  nth_error (editHistory s) (historyPtr s) = Some (code s).

(** The pointer is on the last entry: there is no redo branch. *)
Definition at_tail (s : State) : Prop :=
  historyPtr s + 1 = length (editHistory s).

(** *** The caret position

    [length], [substr] and [split] count in UTF-16 code units, so the text
    of the textarea is the list of its code units; 10 is the newline. *)
Definition Utf16 : Type := list N.

Definition newline : N := 10%N.

(** [e.target.value]: a string, or a value without a [substr] method
    ([undefined] on an element that is not a form control). *)
Inductive Value :=
| Str (s : Utf16)
| NoSubstr.

(** [e.target.selectionStart]: an index, [null] (an input without a
    selection) or [undefined] (an element without the property). *)
Inductive Selection :=
| At (n : nat)
| Null
| Undefined.

Record Target := mkTarget {
  target_value : Value;
  target_selectionStart : Selection
}.

(** What a call of [handleCursor] does: it returns without a change, it
    throws, or it calls [setCursor]. *)
Inductive CursorOutcome :=
| NoChange
| TypeError
| SetCursor (line col : nat).

(** [s.substr(0, n)]: [null] converts to 0, and with [undefined] the
    substring runs to the end of [s]. *)
Definition substr0 (s : Utf16) (n : Selection) : Utf16 :=
  match n with
  | At k => firstn k s
  | Null => []
  | Undefined => s
  end.

(** [s.split(sep)] on code units; the result is never empty. *)
Fixpoint splitUnits (sep : N) (s : Utf16) : list Utf16 :=
  match s with
  | [] => [[]]
  | c :: r =>
      if N.eqb c sep then [] :: splitUnits sep r
      else match splitUnits sep r with
           | h :: t => (c :: h) :: t
           | [] => [[c]]
           end
  end.

(** [lines[lines.length - 1]]: [undefined] on an empty array. *)
Fixpoint lastOf (lines : list Utf16) : option Utf16 :=
  match lines with
  | [] => None
  | [x] => Some x
  | _ :: r => lastOf r
  end.

(** [handleCursor]; the argument is [e.target], [None] when it is
    missing. Reading [.length] of a missing last line would throw too. *)
Definition handleCursor (target : option Target) : CursorOutcome :=
  match target with
  | None => NoChange
  | Some textarea =>
      match target_value textarea with
      | NoSubstr => TypeError
      | Str value =>
          let val := substr0 value (target_selectionStart textarea) in
          let lines := splitUnits newline val in
          match lastOf lines with
          | Some lastLine => SetCursor (length lines) (length lastLine + 1)
          | None => TypeError
          end
      end
  end.

(** One part of the result of [Diff.diffLines]; a missing flag reads as
    false. *)
Record Change := mkChange {
  value : string;
  added : bool;
  removed : bool
}.

Inductive CellType := Removed | Added | Normal | Empty.

Record Cell := mkCell {
  text : string;
  type : CellType;
  num : option nat
}.

Record Row := mkRow { left : Cell; right : Cell }.

(** The body of [changes.forEach]: the rows of one part, and the two line
    counters after it. *)
Fixpoint partRows (isAdded isRemoved : bool) (lines : list string)
    (leftLineNum rightLineNum : nat) : list Row * nat * nat :=
  match lines with
  | [] => ([], leftLineNum, rightLineNum)
  | line :: rest =>
      if isAdded then
        let '(rows, l, r) :=
          partRows isAdded isRemoved rest leftLineNum (S rightLineNum) in
        (mkRow (mkCell "" Empty None) (mkCell line Added (Some rightLineNum))
           :: rows, l, r)
      else if isRemoved then
        let '(rows, l, r) :=
          partRows isAdded isRemoved rest (S leftLineNum) rightLineNum in
        (mkRow (mkCell line Removed (Some leftLineNum)) (mkCell "" Empty None)
           :: rows, l, r)
      else
        let '(rows, l, r) :=
          partRows isAdded isRemoved rest (S leftLineNum) (S rightLineNum) in
        (mkRow (mkCell line Normal (Some leftLineNum))
               (mkCell line Normal (Some rightLineNum))
           :: rows, l, r)
  end.

(** [part.value.replace(/\n$/, '').split('\n')] *)
Definition partLines (part : Change) : list string :=
  Js.split "010" (Js.stripFinalNewline (value part)).

Fixpoint rowsFrom (changes : list Change) (leftLineNum rightLineNum : nat)
  : list Row :=
  match changes with
  | [] => []
  | part :: rest =>
      let '(rows, l, r) :=
        partRows (added part) (removed part) (partLines part)
          leftLineNum rightLineNum in
      rows ++ rowsFrom rest l r
  end.


End Editor.

(* ===================================================================== *)
(** ** types.ts: the data model                                           *)
(* ===================================================================== *)

Inductive Severity := INFO | LOW | MEDIUM | HIGH | CRITICAL.

Record CodeIssue := mkCodeIssue {
  severity : Severity;
  line : option Z;
  title : string;
  issue_description : string;
  suggestion : string
}.

Record AnalysisResult := mkAnalysisResult {
  overallScore : Z;
  summary : string;
  issues : list CodeIssue;
  securityScore : Z;
  maintainabilityScore : Z;
  analysis_timestamp : option Z
}.

Record CursorPosition := mkCursorPosition { cursor_line : Z; cursor_column : Z }.

Module FileVersion.
Record t := mk {
  id : string;
  timestamp : Z;
  content : string;
  description : string
}.
End FileVersion.

(** Optional fields ([x?: T] and [T | null]) are options: [None] stands for
    both [undefined] and [null], which the code never tells apart. *)
Module FileData.
Record t := mk {
  id : string;
  name : string;
  path : string;
  content : string;
  language : string;
  analysis : option AnalysisResult;
  isAnalyzing : option bool;
  stagingContent : option string;
  isFixing : option bool;
  history : option (list FileVersion.t);
  cursor : option CursorPosition
}.
End FileData.

(** [projectAnalysis] is opaque here: no handler below reads it. *)
Module Project.
Record t := mk {
  id : string;
  name : string;
  createdAt : Z;
  files : list FileData.t;
  projectAnalysis : option string;
  isAnalyzing : option bool;
  githubUrl : option string
}.
End Project.

(* ===================================================================== *)
(** ** services/githubService.ts: repository ingestion                    *)
(* ===================================================================== *)

Module Github.

Definition IGNORED_PATHS : list string :=
  [ "node_modules"; ".git"; "dist"; "build"; "package-lock.json";
    "yarn.lock"; ".DS_Store"; "coverage"; ".next"; ".vscode";
    "__pycache__"; ".idea" ].

Inductive EntryType := blob | tree.

Record GithubTreeItem := mkItem {
  path : string;
  mode : string;
  type : EntryType;
  sha : string;
  size : option Z;
  url : string
}.

(** *** The network, as the code sees it *)

(** The JSON documents the code reads a field of; [JOther] is any other
    JSON object (reading a missing field of it gives [undefined]). *)
Inductive Json :=
| JRepo (default_branch : string)
| JTree (tree : list GithubTreeItem)
| JBlob (content : string)
| JOther.

(** A settled response: [res.ok], [await res.text()] and
    [await res.json()] ([None] when the body is not JSON and the promise
    rejects). *)
Record Response := mkResponse {
  ok : bool;
  text : string;
  json : option Json
}.

(** [await fetch(url)]: rejected (network or CORS error) or resolved. *)
Inductive Fetched := Rejected | Resolved (res : Response).

(** The environment: the answer to each URL and the browser's [atob]
    ([None] when it throws on a malformed payload). *)
Record World := mkWorld {
  fetch : string -> Fetched;
  atob : string -> option string
}.

(** The three errors the function throws itself, and [Uncaught] for an
    exception of the runtime that it lets through (a rejected [fetch],
    a body that is not JSON, a missing [tree] field). *)
Inductive Error :=
| RepositoryNotFound
| TreeFetchError
| NoReadableFiles
| Uncaught.

Definition message (e : Error) : string :=
  match e with
  | RepositoryNotFound => "Repository not found or private"
  | TreeFetchError => "Failed to fetch repository tree"
  | NoReadableFiles => "No readable source files found in repository."
  | Uncaught => "TypeError"
  end.

(** *** A small monad: requests are logged, errors abort *)

Definition M (A : Type) : Type := list string -> list string * (Error + A).

Definition ret {A : Type} (x : A) : M A := fun log => (log, inr x).

Definition throw {A : Type} (e : Error) : M A := fun log => (log, inl e).

Definition bind {A B : Type} (c : M A) (k : A -> M B) : M B :=
  fun log =>
    match c log with
    | (log', inr x) => k x log'
    | (log', inl e) => (log', inl e)
    end.

Notation "x <- c ;; k" := (bind c (fun x => k))
  (at level 61, c at next level, right associativity).

(** [await fetch(url)] in the main body: a rejection is not caught. *)
Definition await_fetch (w : World) (u : string) : M Response :=
  fun log =>
    match fetch w u with
    | Resolved res => (log ++ [u], inr res)
    | Rejected => (log ++ [u], inl Uncaught)
    end.

(** [await res.json()] in the main body. *)
Definition await_json (res : Response) : M Json :=
  match json res with
  | Some j => ret j
  | None => throw Uncaught
  end.

(** Requests issued by code that cannot throw. *)
Definition issued {A : Type} (urls : list string) (x : A) : M A :=
  fun log => (log ++ urls, inr x).

(** *** Step 3: filtering *)

Definition is_blob (item : GithubTreeItem) : bool :=
  match type item with blob => true | tree => false end.

(** [!IGNORED_PATHS.some(ignored => item.path.includes(ignored))] *)
Definition not_ignored (item : GithubTreeItem) : bool :=
  negb (existsb (fun ignored => Js.includes (path item) ignored) IGNORED_PATHS).

Definition filesToFetch (entries : list GithubTreeItem) : list GithubTreeItem :=
  firstn 30 (filter not_ignored (filter is_blob entries)).

(** *** Steps 4 and 5: one asynchronous callback per entry *)

Definition repoUrl (owner repo : string) : string :=
  "https://api.github.com/repos/" ++ owner ++ "/" ++ repo.

Definition treeUrl (owner repo defaultBranch : string) : string :=
  "https://api.github.com/repos/" ++ owner ++ "/" ++ repo
    ++ "/git/trees/" ++ defaultBranch ++ "?recursive=1".

Definition rawUrl (owner repo defaultBranch : string) (item : GithubTreeItem)
  : string :=
  "https://raw.githubusercontent.com/" ++ owner ++ "/" ++ repo ++ "/"
    ++ defaultBranch ++ "/" ++ path item.

(** [item.path.split('.').pop() || 'text'] *)
Definition extension (item : GithubTreeItem) : string :=
  Js.or_else (Js.pop (Js.split "." (path item))) "text".

(** The object literal pushed onto [fetchedFiles]. *)
Definition fileRecord (item : GithubTreeItem) (content : string) : FileData.t :=
  FileData.mk (sha item)
    (Js.or_else (Js.pop (Js.split "/" (path item))) (path item))
    (path item) content (extension item)
    None None None None None None.

(** [if (content) fetchedFiles.push({...})] *)
Definition pushed (item : GithubTreeItem) (content : string)
  : option FileData.t :=
  if Js.truthy content then Some (fileRecord item content) else None.

(** Where a callback is suspended: at [await fetch(rawUrl)], at
    [await rawRes.text()], at [await fetch(item.url)], at
    [await apiRes.json()], or finished. *)
Inductive Phase :=
| AwaitRaw
| AwaitRawText (rawRes : Response)
| AwaitApi
| AwaitApiJson (apiRes : Response)
| Settled.

Record Task := mkTask { item : GithubTreeItem; phase : Phase }.

(** The state of step 4: the callbacks, the shared [fetchedFiles] array
    they push onto, and the requests issued so far. *)
Record Pool := mkPool {
  tasks : list Task;
  fetchedFiles : list FileData.t;
  requests : list string
}.

Section Callbacks.

Variable w : World.
Variables owner repo defaultBranch : string.

(** One resumption of a callback, up to its next [await]: the next
    phase, the record it pushes (if any) and the request it issues
    (if any). An exception after the inner [try] lands in the outer
    [catch], which only logs. *)
Definition resume_task (t : Task) : Task * option FileData.t * list string :=
  let it := item t in
  match phase t with
  | AwaitRaw =>
      match fetch w (rawUrl owner repo defaultBranch it) with
      | Resolved rawRes =>
          if ok rawRes then (mkTask it (AwaitRawText rawRes), None, [])
          else (mkTask it AwaitApi, None, [url it])
      | Rejected => (mkTask it AwaitApi, None, [url it])
      end
  | AwaitRawText rawRes =>
      (mkTask it Settled, pushed it (text rawRes), [])
  | AwaitApi =>
      match fetch w (url it) with
      | Resolved apiRes =>
          if ok apiRes then (mkTask it (AwaitApiJson apiRes), None, [])
          else (mkTask it Settled, pushed it "", [])
      | Rejected => (mkTask it Settled, None, [])
      end
  | AwaitApiJson apiRes =>
      match json apiRes with
      | Some (JBlob c) =>
          match atob w (Js.stripNewlines c) with
          | Some content => (mkTask it Settled, pushed it content, [])
          | None => (mkTask it Settled, None, [])
          end
      | _ => (mkTask it Settled, None, [])
      end
  | Settled => (t, None, [])
  end.

(** The event loop resumes callback [i]. *)
Definition resume (i : nat) (p : Pool) : Pool :=
  match nth_error (tasks p) i with
  | Some t =>
      let '(t', out, urls) := resume_task t in
      {| tasks := Js.set_nth i t' (tasks p);
         fetchedFiles := fetchedFiles p ++ Js.opt_list out;
         requests := requests p ++ urls |}
  | None => p
  end.

(** A schedule is the order in which the event loop resumes the
    callbacks, that is, the order in which the responses arrive. *)
Definition run (schedule : list nat) (p : Pool) : Pool :=
  fold_left (fun p i => resume i p) schedule p.

(** A callback run to its end (it has at most three awaits left):
    what it pushes and what it requests. *)
Fixpoint settle_in (n : nat) (t : Task) : list FileData.t * list string :=
  match n with
  | O => ([], [])
  | S n' =>
      let '(t', out, urls) := resume_task t in
      let '(outs, urls') := settle_in n' t' in
      (Js.opt_list out ++ outs, urls ++ urls')
  end.

Definition settle (t : Task) : list FileData.t * list string :=
  settle_in 3 t.

(** [Promise.all] waits for every callback: whatever the schedule left
    unfinished settles, in tree order. *)
Definition drain (p : Pool) : Pool :=
  {| tasks := map (fun t => mkTask (item t) Settled) (tasks p);
     fetchedFiles := fetchedFiles p ++ flat_map (fun t => fst (settle t)) (tasks p);
     requests := requests p ++ flat_map (fun t => snd (settle t)) (tasks p) |}.

(** [filesToFetch.map(async item => ...)]: every callback starts at once
    and runs up to its first [await], issuing its raw request. *)
Definition start (files : list GithubTreeItem) : Pool :=
  {| tasks := map (fun it => mkTask it AwaitRaw) files;
     fetchedFiles := [];
     requests := map (rawUrl owner repo defaultBranch) files |}.

(** One entry fetched on its own: the record it yields, if any. *)
Definition fetchOne (it : GithubTreeItem) : option FileData.t :=
  match fst (settle (mkTask it AwaitRaw)) with
  | f :: _ => Some f
  | [] => None
  end.

Definition fetchAll (schedule : list nat) (files : list GithubTreeItem)
  : Pool :=
  drain (run schedule (start files)).

(** The number of resumptions a callback still needs, at most. *)
Definition steps_left (t : Task) : nat :=
  match phase t with
  | AwaitRaw => 3
  | AwaitApi => 2
  | AwaitRawText _ | AwaitApiJson _ => 1
  | Settled => 0
  end.

(** What the schedule has pushed, together with what the unfinished
    callbacks will still push, is the same collection at every moment. *)
Definition outcome (p : Pool) : list FileData.t :=
  fetchedFiles p ++ flat_map (fun t => fst (settle t)) (tasks p).

(** The records of the entries fetched one after the other, in tree
    order. *)
Definition inTreeOrder (files : list GithubTreeItem) : list FileData.t :=
  flat_map (fun it => Js.opt_list (fetchOne it)) files.

(** The record callback [i] pushes when it is resumed in pool [p]. *)
Definition pushedBy (i : nat) (p : Pool) : list FileData.t :=
  match nth_error (tasks p) i with
  | Some t => Js.opt_list (snd (fst (resume_task t)))
  | None => []
  end.

(** The requests made so far plus those the unfinished callbacks will
    still make: the same number at every moment. *)
Definition cost (p : Pool) : nat :=
  length (requests p) + length (flat_map (fun t => snd (settle t)) (tasks p)).

End Callbacks.

(** [repoData.default_branch], interpolated into the tree URL. *)
Definition default_branch_of (repoData : Json) : string :=
  match repoData with
  | JRepo b => b
  | _ => "undefined"
  end.

(** The function itself; [schedule] is the order in which the per-file
    responses arrive. *)
Definition fetchGithubRepo (w : World) (schedule : list nat)
    (owner repo : string) : M (list FileData.t) :=
  repoResponse <- await_fetch w (repoUrl owner repo) ;;
  if negb (ok repoResponse) then throw RepositoryNotFound else
  repoData <- await_json repoResponse ;;
  let defaultBranch := default_branch_of repoData in
  treeResponse <- await_fetch w (treeUrl owner repo defaultBranch) ;;
  if negb (ok treeResponse) then throw TreeFetchError else
  treeData <- await_json treeResponse ;;
  match treeData with
  | JTree entries =>
      let files := filesToFetch entries in
      match files with
      | [] => throw NoReadableFiles
      | _ :: _ =>
          let p := fetchAll w owner repo defaultBranch schedule files in
          issued (requests p) (fetchedFiles p)
      end
  | _ => throw Uncaught
  end.

(** [parseGithubUrl]; [pathnameOf] is the browser's [new URL(url).pathname],
    [None] when the constructor throws. *)
Definition parseGithubUrl (pathnameOf : string -> option string) (url : string)
  : option (string * string) :=
  match pathnameOf url with
  | Some pathname =>
      let parts := filter Js.truthy (Js.split "/" pathname) in
      match parts with
      | owner :: repo :: _ => Some (owner, repo)
      | _ => None
      end
  | None => None
  end.

End Github.

(* ===================================================================== *)
(** ** services/geminiService.ts: what is done with the model's answer    *)
(* ===================================================================== *)

Module Gemini.

(** The outcome of [ai.models.generateContent]: the call fails, or it
    answers with [response.text], which may be [undefined]. *)
Inductive Reply := Failed | Answered (text : option string).

(** The longest run of letters at the head of [s] is dropped: what
    [[a-z]*] consumes under the [i] flag. *)
Fixpoint dropLetters (s : string) : string :=
  match s with
  | String c r => if Js.isLetter c then dropLetters r else s
  | EmptyString => EmptyString
  end.

(** [s.replace(/^```[a-z]*\n/i, '')]: an opening fence line, made of three
    backquotes, letters and a newline, is removed. *)
Definition stripOpeningFence (s : string) : string :=
  match Js.dropPrefix "```" s with
  | Some rest =>
      match dropLetters rest with
      | String c r => if Ascii.eqb c "010" then r else s
      | EmptyString => s
      end
  | None => s
  end.

(** [s.replace(/\n```$/, '')]: a closing fence at the very end is removed. *)
Definition stripClosingFence (s : string) : string :=
  match Js.dropSuffix (String "010" "```") s with
  | Some rest => rest
  | None => s
  end.

(** The clean-up shared by [generateCodeFix] and [generateUnitTests]. *)
Definition cleanCode (text : string) : string :=
  if Js.startsWith text "```"
  then stripClosingFence (stripOpeningFence text)
  else text.

(** [generateCodeFix]: [None] is the rejected promise. *)
Definition generateCodeFix (reply : Reply) (code : string) : option string :=
  match reply with
  | Answered text => Some (cleanCode (Js.or_else text code))
  | Failed => None
  end.

(** [generateUnitTests]. *)
Definition generateUnitTests (reply : Reply) : option string :=
  match reply with
  | Answered text => Some (cleanCode (Js.or_else text ""))
  | Failed => None
  end.

End Gemini.

(* ===================================================================== *)
(** ** App.tsx: staged fixes and the version archive                      *)
(* ===================================================================== *)

Module App.

(** The part of the coordinator's state the handlers below touch. *)
Record State := mkState {
  projects : list Project.t;
  currentProjectId : option string;
  activeFileId : option string;
  showDiff : bool;
  toastMsg : string
}.

(** [x === sel] for a selector of type [string | null]. *)
Definition same_id (x : string) (sel : option string) : bool :=
  match sel with
  | Some y => String.eqb x y
  | None => false
  end.

(** [!sel] for a selector of type [string | null]. *)
Definition unset (sel : option string) : bool :=
  match sel with
  | Some y => negb (Js.truthy y)
  | None => true
  end.

(** [projects.find(p => p.id === currentProjectId)] *)
Definition currentProject (st : State) : option Project.t :=
  find (fun p => same_id (Project.id p) (currentProjectId st)) (projects st).

(** [currentProject?.files.find(f => f.id === activeFileId)] *)
Definition activeFile (st : State) : option FileData.t :=
  match currentProject st with
  | Some p => find (fun f => same_id (FileData.id f) (activeFileId st)) (Project.files p)
  | None => None
  end.

(** [f.history || []] *)
Definition archive (f : FileData.t) : list FileVersion.t :=
  match FileData.history f with
  | Some h => h
  | None => []
  end.

(** [{ ...p, files: fs }] *)
Definition with_files (p : Project.t) (fs : list FileData.t) : Project.t :=
  Project.mk (Project.id p) (Project.name p) (Project.createdAt p) fs
    (Project.projectAnalysis p) (Project.isAnalyzing p) (Project.githubUrl p).

(** [{ ...f, stagingContent: null }] *)
Definition clear_staging (f : FileData.t) : FileData.t :=
  FileData.mk (FileData.id f) (FileData.name f) (FileData.path f)
    (FileData.content f) (FileData.language f) (FileData.analysis f)
    (FileData.isAnalyzing f) None (FileData.isFixing f)
    (FileData.history f) (FileData.cursor f).

(** [{ ...f, content: c, stagingContent: null, analysis: null,
       history: [...(f.history || []), v] }] *)
Definition accepted (c : string) (v : FileVersion.t) (f : FileData.t)
  : FileData.t :=
  FileData.mk (FileData.id f) (FileData.name f) (FileData.path f)
    c (FileData.language f) None
    (FileData.isAnalyzing f) None (FileData.isFixing f)
    (Some (archive f ++ [v])) (FileData.cursor f).

(** [{ ...f, content: c, analysis: null,
       history: [...(f.history || []), v] }] *)
Definition reverted (c : string) (v : FileVersion.t) (f : FileData.t)
  : FileData.t :=
  FileData.mk (FileData.id f) (FileData.name f) (FileData.path f)
    c (FileData.language f) None
    (FileData.isAnalyzing f) (FileData.stagingContent f) (FileData.isFixing f)
    (Some (archive f ++ [v])) (FileData.cursor f).

(** What the browser supplies while [handleAcceptFix] runs. The snapshot
    literal sits inside the [files.map] callback, so [Math.random],
    [Date.now] and [toLocaleTimeString] are drawn once per updated file;
    each draw is indexed by the position (project index, file index) of
    the callback that makes it. *)
Record AcceptEnv := mkAcceptEnv {
  random_id : nat -> nat -> string;
  date_now : nat -> nat -> Z;
  time_string : nat -> nat -> string
}.

Definition before_fix (e : AcceptEnv) (i j : nat) (previousContent : string)
  : FileVersion.t :=
  FileVersion.mk (random_id e i j) (date_now e i j) previousContent
    ("Before Fix " ++ time_string e i j).

(** The updater passed to [setProjects] by [handleAcceptFix]; the two
    contents are the ones the handler captured from [activeFile]. *)
Definition acceptUpdate (e : AcceptEnv) (cur act : option string)
    (newContent previousContent : string) (prev : list Project.t)
  : list Project.t :=
  Js.mapi (fun i p =>
    if same_id (Project.id p) cur then
      with_files p
        (Js.mapi (fun j f =>
           if same_id (FileData.id f) act then
             accepted newContent (before_fix e i j previousContent) f
           else f) (Project.files p))
    else p) prev.

Definition handleAcceptFix (e : AcceptEnv) (st : State) : State :=
  match activeFile st with
  | None => st
  | Some af =>
      match FileData.stagingContent af with
      | None => st
      | Some newContent =>
          if Js.truthy newContent then
            let previousContent := FileData.content af in
            {| projects := acceptUpdate e (currentProjectId st) (activeFileId st)
                             newContent previousContent (projects st);
               currentProjectId := currentProjectId st;
               activeFileId := activeFileId st;
               showDiff := false;
               toastMsg := "Changes Applied" |}
          else st
      end
  end.

Definition rejectUpdate (cur act : option string) (prev : list Project.t)
  : list Project.t :=
  map (fun p =>
    if same_id (Project.id p) cur then
      with_files p
        (map (fun f => if same_id (FileData.id f) act then clear_staging f else f)
             (Project.files p))
    else p) prev.

Definition handleRejectFix (st : State) : State :=
  {| projects := rejectUpdate (currentProjectId st) (activeFileId st) (projects st);
     currentProjectId := currentProjectId st;
     activeFileId := activeFileId st;
     showDiff := false;
     toastMsg := "Changes Rejected" |}.

(** What the browser supplies while [handleRevertVersion] runs: one
    [Math.random] id, one [Date.now] and the user's answer to the
    [confirm] dialog. *)
Record RevertEnv := mkRevertEnv {
  revert_id : string;
  revert_now : Z;
  confirm : bool
}.

(** [activeFile.history?.find(v => v.id === versionId)] *)
Definition findVersion (f : FileData.t) (versionId : string)
  : option FileVersion.t :=
  match FileData.history f with
  | Some h => find (fun v => String.eqb (FileVersion.id v) versionId) h
  | None => None
  end.

Definition revertUpdate (cur act : option string) (restored : string)
    (currentAsHistory : FileVersion.t) (prev : list Project.t)
  : list Project.t :=
  map (fun p =>
    if same_id (Project.id p) cur then
      with_files p
        (map (fun f =>
           if same_id (FileData.id f) act then reverted restored currentAsHistory f
           else f) (Project.files p))
    else p) prev.

Definition handleRevertVersion (e : RevertEnv) (versionId : string) (st : State)
  : State :=
  match activeFile st with
  | None => st
  | Some af =>
      if unset (currentProjectId st) then st else
      match findVersion af versionId with
      | None => st
      | Some versionToRestore =>
          if negb (confirm e) then st else
          let currentAsHistory :=
            FileVersion.mk (revert_id e) (revert_now e) (FileData.content af)
              "Before Revert" in
          {| projects := revertUpdate (currentProjectId st) (activeFileId st)
                           (FileVersion.content versionToRestore)
                           currentAsHistory (projects st);
             currentProjectId := currentProjectId st;
             activeFileId := activeFileId st;
             showDiff := showDiff st;
             toastMsg := "Version Restored" |}
      end
  end.

(** The shape shared by the three updaters: the object at every position
    is kept, the projects with the current id get a new file list of the
    same length, and in it exactly the files with the active id are
    rewritten. *)
Definition updateBy (g : nat -> nat -> FileData.t -> FileData.t)
    (cur act : option string) (prev : list Project.t) : list Project.t :=
  Js.mapi (fun i p =>
    if same_id (Project.id p) cur then
      with_files p
        (Js.mapi (fun j f => if same_id (FileData.id f) act then g i j f else f)
           (Project.files p))
    else p) prev.

Definition updated_as (g : nat -> nat -> FileData.t -> FileData.t)
    (cur act : option string) (prev next : list Project.t) : Prop :=
  length next = length prev
  /\ forall i p, nth_error prev i = Some p ->
       exists p', nth_error next i = Some p'
         /\ if same_id (Project.id p) cur then
              p' = with_files p (Project.files p')
              /\ length (Project.files p') = length (Project.files p)
              /\ forall j f, nth_error (Project.files p) j = Some f ->
                   exists f', nth_error (Project.files p') j = Some f'
                     /\ if same_id (FileData.id f) act then f' = g i j f
                        else f' = f
            else p' = p.

(** What the browser supplies to [createProject]. *)
Record CreateEnv := mkCreateEnv {
  project_id : string;
  created_at : Z
}.

Definition createProject (e : CreateEnv) (name : string)
    (files : list FileData.t) (githubUrl : option string) (st : State) : State :=
  let newProject :=
    Project.mk (project_id e) name (created_at e) files None None githubUrl in
  {| projects := newProject :: projects st;
     currentProjectId := Some (Project.id newProject);
     activeFileId := match files with
                     | f :: _ => Some (FileData.id f)
                     | [] => activeFileId st
                     end;
     showDiff := showDiff st;
     toastMsg := "Project created successfully" |}.

(** [handleGithubImport] once [parseGithubUrl] has produced the
    coordinates: a thrown error is shown in an [alert] and nothing else
    happens. *)
Definition handleGithubImport (e : CreateEnv) (w : Github.World)
    (schedule : list nat) (owner repo githubUrl : string) (st : State) : State :=
  match snd (Github.fetchGithubRepo w schedule owner repo []) with
  | inr files => createProject e (owner ++ "/" ++ repo) files (Some githubUrl) st
  | inl _ => st
  end.

(** *** The other handlers of the coordinator *)

Inductive View := DASHBOARD | WORKSPACE.

Inductive ItemKind := file | folder.

(** The [useState] cells of the coordinator that [State] leaves out and
    the handlers below read or write. *)
Record Ui := mkUi {
  view : View;
  renamingFileId : option string;
  tempRenameName : string;
  creationType : ItemKind;
  creationActive : bool;
  newItemName : string;
  loadingMsg : string
}.

Definition with_projects (st : State) (ps : list Project.t) : State :=
  {| projects := ps;
     currentProjectId := currentProjectId st;
     activeFileId := activeFileId st;
     showDiff := showDiff st;
     toastMsg := toastMsg st |}.

Definition with_toast (st : State) (msg : string) : State :=
  {| projects := projects st;
     currentProjectId := currentProjectId st;
     activeFileId := activeFileId st;
     showDiff := showDiff st;
     toastMsg := msg |}.

Definition with_active (st : State) (sel : option string) : State :=
  {| projects := projects st;
     currentProjectId := currentProjectId st;
     activeFileId := sel;
     showDiff := showDiff st;
     toastMsg := toastMsg st |}.

(** [prev.map(p => p.id === currentProjectId ? { ...p, files: h(p.files) } : p)] *)
Definition inCurrent (cur : option string)
    (h : list FileData.t -> list FileData.t) (prev : list Project.t)
  : list Project.t :=
  map (fun p => if same_id (Project.id p) cur then with_files p (h (Project.files p))
                else p) prev.

(** [p.files.map(f => f.id === sel ? g f : f)] *)
Definition onFiles (sel : option string) (g : FileData.t -> FileData.t)
    (fs : list FileData.t) : list FileData.t :=
  map (fun f => if same_id (FileData.id f) sel then g f else f) fs.

(** [{ ...f, content: c }] *)
Definition with_content (c : string) (f : FileData.t) : FileData.t :=
  FileData.mk (FileData.id f) (FileData.name f) (FileData.path f)
    c (FileData.language f) (FileData.analysis f)
    (FileData.isAnalyzing f) (FileData.stagingContent f) (FileData.isFixing f)
    (FileData.history f) (FileData.cursor f).

Definition updateFileContent (newContent : string) (st : State) : State :=
  if unset (currentProjectId st) || unset (activeFileId st) then st
  else with_projects st
         (inCurrent (currentProjectId st)
            (onFiles (activeFileId st) (with_content newContent)) (projects st)).

(** A file as the creation handlers build it: the optional fields are
    absent. *)
Definition newFileData (id name path content language : string) : FileData.t :=
  FileData.mk id name path content language None None None None None None.

(** [s.replace(/\/$/, '')] *)
Definition stripFinalSlash (s : string) : string :=
  match Js.dropSuffix "/" s with
  | Some rest => rest
  | None => s
  end.

(** [name.split('.').pop() || 'text'] *)
Definition languageOf (name : string) : string :=
  Js.or_else (Js.pop (Js.split "." name)) "text".

(** What the browser supplies to [handleCreateSubmit]: [trim] and one
    [Math.random] id. *)
Record CreateItemEnv := mkCreateItemEnv {
  trim : string -> string;
  item_id : string
}.

Definition createdItem (e : CreateItemEnv) (ui : Ui) : FileData.t :=
  let inputName := trim e (newItemName ui) in
  match creationType ui with
  | folder =>
      let folderPath := stripFinalSlash inputName in
      newFileData (item_id e) ".gitkeep" (folderPath ++ "/.gitkeep") "" "text"
  | file =>
      let fileName := Js.or_else (Js.pop (Js.split "/" inputName)) inputName in
      newFileData (item_id e) fileName inputName
        ("// " ++ fileName ++ String "010" (String "010" "")) (languageOf fileName)
  end.

Definition closeCreation (ui : Ui) (name : string) : Ui :=
  {| view := view ui;
     renamingFileId := renamingFileId ui;
     tempRenameName := tempRenameName ui;
     creationType := creationType ui;
     creationActive := false;
     newItemName := name;
     loadingMsg := loadingMsg ui |}.

Definition handleCreateSubmit (e : CreateItemEnv) (st : State) (ui : Ui)
  : State * Ui :=
  if unset (currentProjectId st) || negb (Js.truthy (trim e (newItemName ui)))
  then (st, closeCreation ui (newItemName ui))
  else
    let newFile := createdItem e ui in
    let st1 :=
      with_projects st
        (inCurrent (currentProjectId st) (fun fs => fs ++ [newFile]) (projects st)) in
    let st2 :=
      match creationType ui with
      | file =>
          with_toast (with_active st1 (Some (FileData.id newFile)))
            ("Created file: " ++ FileData.name newFile)
      | folder => with_toast st1 ("Created folder: " ++ newItemName ui)
      end in
    (st2, closeCreation ui "").

(** [handleDeleteFile]; [confirmed] is the answer to the dialog. The call
    of [setActiveFileId] sits inside the updater, so it runs once for each
    project with the current id and the last one decides. *)
Definition remaining (fileId : string) (fs : list FileData.t) : list FileData.t :=
  filter (fun f => negb (String.eqb (FileData.id f) fileId)) fs.

Definition nextActive (fileId : string) (cur act : option string)
    (prev : list Project.t) : option string :=
  fold_left
    (fun sel p =>
       if same_id (Project.id p) cur then
         if same_id fileId act then
           match remaining fileId (Project.files p) with
           | f :: _ => Some (FileData.id f)
           | [] => None
           end
         else sel
       else sel)
    prev act.

Definition handleDeleteFile (confirmed : bool) (fileId : string) (st : State)
  : State :=
  if unset (currentProjectId st) then st
  else if negb confirmed then st
  else
    {| projects := inCurrent (currentProjectId st) (remaining fileId) (projects st);
       currentProjectId := currentProjectId st;
       activeFileId := nextActive fileId (currentProjectId st) (activeFileId st)
                         (projects st);
       showDiff := showDiff st;
       toastMsg := "File deleted" |}.

(** [{ ...f, name: n, path: f.path.replace(f.name, n),
         language: n.split('.').pop() || 'text' }] *)
Definition renamed (n : string) (f : FileData.t) : FileData.t :=
  FileData.mk (FileData.id f) n (Js.replace (FileData.path f) (FileData.name f) n)
    (FileData.content f) (languageOf n) (FileData.analysis f)
    (FileData.isAnalyzing f) (FileData.stagingContent f) (FileData.isFixing f)
    (FileData.history f) (FileData.cursor f).

Definition handleFinishRename (st : State) (ui : Ui) : State * Ui :=
  if unset (currentProjectId st) || unset (renamingFileId ui) then (st, ui)
  else
    (with_toast
       (with_projects st
          (inCurrent (currentProjectId st)
             (onFiles (renamingFileId ui) (renamed (tempRenameName ui)))
             (projects st)))
       "File renamed",
     {| view := view ui;
        renamingFileId := None;
        tempRenameName := tempRenameName ui;
        creationType := creationType ui;
        creationActive := creationActive ui;
        newItemName := newItemName ui;
        loadingMsg := loadingMsg ui |}).

(** [name.replace(/(\.[\w\d]+)$/, '.test$1')]: the first dot that is
    followed, up to the end, by one or more word characters gets [.test]
    in front of it. *)
Fixpoint testFilename (name : string) : string :=
  match name with
  | EmptyString => EmptyString
  | String c r =>
      if Ascii.eqb c "." && Js.truthy r && Js.allChars Js.isWord r
      then (".test" ++ name)%string
      else String c (testFilename r)
  end.

(** [setLoadingMsg(msg)] *)
Definition with_loading (ui : Ui) (msg : string) : Ui :=
  {| view := view ui;
     renamingFileId := renamingFileId ui;
     tempRenameName := tempRenameName ui;
     creationType := creationType ui;
     creationActive := creationActive ui;
     newItemName := newItemName ui;
     loadingMsg := msg |}.

(** [handleGenerateTests] up to its [await]: the guard, the loading
    message, and what the closure holds while the request is in flight,
    namely the [activeFile] and the [currentProjectId] of the render the
    handler was called in. *)
Definition testsRequested (st : State) (ui : Ui)
  : option (FileData.t * option string * Ui) :=
  match activeFile st with
  | None => None
  | Some af =>
      if unset (currentProjectId st) then None
      else Some (af, currentProjectId st, with_loading ui "Generating Tests...")
  end.

(** [handleGenerateTests] after its [await]. [af] and [cur] are the
    captured active file and project selector, [st] and [ui] the state at
    the time the answer arrives ([prev] of the updater); [None] is the
    rejected promise and [newId] the [Math.random] id. *)
Definition testsSettled (af : FileData.t) (cur : option string)
    (testCode : option string) (newId : string) (st : State) (ui : Ui)
  : State * Ui :=
  match testCode with
  | None => (with_toast st "Test Generation Failed", with_loading ui "")
  | Some code =>
      let tn := testFilename (FileData.name af) in
      let newFile :=
        newFileData newId tn
          (Js.replace (FileData.path af) (FileData.name af) tn)
          code (FileData.language af) in
      (with_toast
         (with_active
            (with_projects st
               (inCurrent cur (fun fs => fs ++ [newFile]) (projects st)))
            (Some newId))
         "Tests Generated",
       with_loading ui "")
  end.

(** [{ ...f, isFixing: b }] and [{ ...f, isFixing: false, stagingContent: c }] *)
Definition with_fixing (b : bool) (f : FileData.t) : FileData.t :=
  FileData.mk (FileData.id f) (FileData.name f) (FileData.path f)
    (FileData.content f) (FileData.language f) (FileData.analysis f)
    (FileData.isAnalyzing f) (FileData.stagingContent f) (Some b)
    (FileData.history f) (FileData.cursor f).

Definition staged (c : string) (f : FileData.t) : FileData.t :=
  FileData.mk (FileData.id f) (FileData.name f) (FileData.path f)
    (FileData.content f) (FileData.language f) (FileData.analysis f)
    (FileData.isAnalyzing f) (Some c) (Some false)
    (FileData.history f) (FileData.cursor f).

(** [handleFixCode] up to its [await]: the request is sent for the active
    file, or nothing happens. *)
Definition fixRequested (st : State) : option State :=
  match activeFile st with
  | None => None
  | Some _ =>
      if unset (currentProjectId st) then None
      else Some (with_projects st
                   (inCurrent (currentProjectId st)
                      (onFiles (activeFileId st) (with_fixing true)) (projects st)))
  end.

(** [handleFixCode] after its [await]; [cur] and [act] are the selectors
    the handler captured when it was called, [st] the state at the time
    the answer arrives. *)
Definition fixSettled (cur act : option string) (fixedCode : option string)
    (st : State) : State :=
  match fixedCode with
  | Some code =>
      {| projects := inCurrent cur (onFiles act (staged code)) (projects st);
         currentProjectId := currentProjectId st;
         activeFileId := activeFileId st;
         showDiff := true;
         toastMsg := "Fix Generated" |}
  | None =>
      {| projects := inCurrent cur (onFiles act (with_fixing false)) (projects st);
         currentProjectId := currentProjectId st;
         activeFileId := activeFileId st;
         showDiff := showDiff st;
         toastMsg := "Fix Generation Failed" |}
  end.

(** [deleteProject]. The list is computed from the rendered [projects],
    not from the updater's argument. *)
Definition deleteProject (confirmed : bool) (id : string) (st : State) (ui : Ui)
  : State * Ui :=
  if negb confirmed then (st, ui)
  else
    let updatedProjects :=
      filter (fun p => negb (String.eqb (Project.id p) id)) (projects st) in
    let isCurrent := same_id id (currentProjectId st) in
    ({| projects := updatedProjects;
        currentProjectId := if isCurrent then None else currentProjectId st;
        activeFileId := activeFileId st;
        showDiff := showDiff st;
        toastMsg := "Project deleted" |},
     {| view := if isCurrent then DASHBOARD else view ui;
        renamingFileId := renamingFileId ui;
        tempRenameName := tempRenameName ui;
        creationType := creationType ui;
        creationActive := creationActive ui;
        newItemName := newItemName ui;
        loadingMsg := loadingMsg ui |}).

End App.

(* ===================================================================== *)
(** ** Vocabulary of the statements and sample inputs                    *)
(* ===================================================================== *)

(** A project with one file whose staged content is the empty string. *)
Definition empty_staging_state : App.State :=
  App.mkState
    [ Project.mk "p1" "demo" 0
        [ FileData.mk "f1" "a.js" "a.js" "old" "js"
            None None (Some "") None None None ]
        None None None ]
    (Some "p1") (Some "f1") true "".

(** Two files with the same content imported from one repository: the
    pipeline gives both the blob hash as id. A fix has been staged. *)
Definition shared_id_state : App.State :=
  App.mkState
    [ Project.mk "p1" "o/r" 0
        [ FileData.mk "s1" "index.js" "a/index.js" "x" "js"
            None None (Some "y") None None None;
          FileData.mk "s1" "index.js" "b/index.js" "x" "js"
            None None (Some "y") None None None ]
        None None None ]
    (Some "p1") (Some "s1") true "".

Definition sample_accept_env : App.AcceptEnv :=
  App.mkAcceptEnv (fun _ _ => "k3j9x0q1z") (fun _ _ => 1700000000000%Z)
    (fun _ _ => "10:15:00 AM").

Definition staged_state : App.State :=
  App.mkState
    [ Project.mk "p1" "demo" 0
        [ FileData.mk "f1" "a.js" "a.js" "old" "js"
            None None (Some "new") None None None;
          FileData.mk "f2" "b.js" "b.js" "other" "js"
            None None (Some "kept") None None None ]
        None None None ]
    (Some "p1") (Some "f1") true "".

(** A file with one archived snapshot, open in the editor. *)
Definition archived_state : App.State :=
  App.mkState
    [ Project.mk "p1" "demo" 0
        [ FileData.mk "f1" "a.js" "a.js" "now" "js"
            None None None None
            (Some [ FileVersion.mk "v1" 1 "first" "Before Fix 9:00:00 AM" ])
            None;
          FileData.mk "f2" "b.js" "b.js" "other" "js"
            None None None None None None ]
        None None None ]
    (Some "p1") (Some "f1") false "".

Definition declining : App.RevertEnv := App.mkRevertEnv "r1" 2 false.
Definition confirming : App.RevertEnv := App.mkRevertEnv "r1" 2 true.

(** [t] occurs in [s]: the meaning of [s.includes(t)]. *)
Definition occurs_in (t s : string) : Prop :=
  exists pre post : string, s = (pre ++ t ++ post)%string.

(** The entries that survive step 3, before the cap. *)
Definition survivors (entries : list Github.GithubTreeItem)
  : list Github.GithubTreeItem :=
  filter (fun it => Github.is_blob it && Github.not_ignored it) entries.

Definition entry (p : string) (ty : Github.EntryType) : Github.GithubTreeItem :=
  Github.mkItem p "100644" ty ("sha-" ++ p) None
    ("https://api.github.com/repos/o/r/git/blobs/sha-" ++ p).



(** A world given by a table of URLs; every other request is rejected. *)
Definition world_of (table : list (string * Github.Response)) : Github.World :=
  Github.mkWorld
    (fun u =>
       match find (fun kv => String.eqb (fst kv) u) table with
       | Some kv => Github.Resolved (snd kv)
       | None => Github.Rejected
       end)
    (fun _ => None).

Definition json_ok (j : Github.Json) : Github.Response :=
  Github.mkResponse true "" (Some j).

Definition text_ok (body : string) : Github.Response :=
  Github.mkResponse true body None.

Definition not_found : Github.Response :=
  Github.mkResponse false "Not Found" None.

(** Repository o/r on branch main with the given blobs and raw bodies. *)
Definition repo_with (blobs : list (string * string)) : Github.World :=
  world_of
    ((Github.repoUrl "o" "r", json_ok (Github.JRepo "main"))
     :: (Github.treeUrl "o" "r" "main",
         json_ok (Github.JTree (map (fun pb => entry (fst pb) Github.blob) blobs)))
     :: map (fun pb =>
               (Github.rawUrl "o" "r" "main" (entry (fst pb) Github.blob),
                text_ok (snd pb))) blobs).

Definition two_files : Github.World := repo_with [("a.js", "A"); ("b.js", "B")].

Definition empty_body : Github.World := repo_with [("a.js", "A"); ("empty.txt", "")].

(** The order in which the callbacks of step 4 complete. *)
Module Completion.

(** The callback has run to its end. *)
Definition is_settled (t : Github.Task) : bool :=
  match Github.phase t with
  | Github.Settled => true
  | _ => false
  end.

(** Resuming callback [i] in pool [p] completes it: it is unfinished, and
    this resumption runs it to its end. *)
Definition finishes (w : Github.World) (owner repo branch : string)
    (i : nat) (p : Github.Pool) : bool :=
  match nth_error (Github.tasks p) i with
  | Some t =>
      negb (is_settled t)
      && is_settled (fst (fst (Github.resume_task w owner repo branch t)))
  | None => false
  end.

(** The callbacks a schedule completes, in the order in which it
    completes them. *)
Fixpoint finishedBy (w : Github.World) (owner repo branch : string)
    (schedule : list nat) (p : Github.Pool) : list nat :=
  match schedule with
  | [] => []
  | i :: rest =>
      (if finishes w owner repo branch i p then [i] else [])
        ++ finishedBy w owner repo branch rest
             (Github.resume w owner repo branch i p)
  end.

(** The unfinished callbacks among [ts], numbered from [k]. *)
Fixpoint pending_from (k : nat) (ts : list Github.Task) : list nat :=
  match ts with
  | [] => []
  | t :: rest => (if is_settled t then [] else [k]) ++ pending_from (S k) rest
  end.

(** The order in which the callbacks of a run complete, as positions in
    the filtered list: first those the schedule completes, then those
    [Promise.all] is still waiting for. *)
Definition completionOrder (w : Github.World) (owner repo branch : string)
    (schedule : list nat) (files : list Github.GithubTreeItem) : list nat :=
  let p := Github.run w owner repo branch schedule
             (Github.start owner repo branch files) in
  finishedBy w owner repo branch schedule (Github.start owner repo branch files)
    ++ pending_from 0 (Github.tasks p).

(** What the callback at position [i] pushes when it completes: the
    record of its entry, or nothing. *)
Definition recordsOf (w : Github.World) (owner repo branch : string)
    (files : list Github.GithubTreeItem) (i : nat) : list FileData.t :=
  match nth_error files i with
  | Some it => Js.opt_list (Github.fetchOne w owner repo branch it)
  | None => []
  end.

(** Callback [t] is the callback of entry [it], and as long as it is
    unfinished it will push what the entry yields on its own. *)
Definition tracks (w : Github.World) (owner repo branch : string)
    (it : Github.GithubTreeItem) (t : Github.Task) : Prop :=
  Github.item t = it
  /\ (is_settled t = true
      \/ fst (Github.settle w owner repo branch t)
         = Js.opt_list (Github.fetchOne w owner repo branch it)).

End Completion.

(** The line numbers shown in the left and in the right column of the
    diff view, top to bottom, and the texts shown there. *)
Definition leftNums (rows : list Editor.Row) : list nat :=
  flat_map (fun r => Js.opt_list (Editor.num (Editor.left r))) rows.

Definition rightNums (rows : list Editor.Row) : list nat :=
  flat_map (fun r => Js.opt_list (Editor.num (Editor.right r))) rows.

Definition shownText (c : Editor.Cell) : list string :=
  match Editor.type c with
  | Editor.Empty => []
  | _ => [Editor.text c]
  end.

Definition leftTexts (rows : list Editor.Row) : list string :=
  flat_map (fun r => shownText (Editor.left r)) rows.

Definition rightTexts (rows : list Editor.Row) : list string :=
  flat_map (fun r => shownText (Editor.right r)) rows.

(** The three kinds of row: an added line beside a blank, a removed line
    beside a blank, the same line on both sides. *)
Definition rowShape (r : Editor.Row) : bool :=
  match Editor.type (Editor.left r), Editor.type (Editor.right r) with
  | Editor.Empty, Editor.Added => true
  | Editor.Removed, Editor.Empty => true
  | Editor.Normal, Editor.Normal =>
      String.eqb (Editor.text (Editor.left r)) (Editor.text (Editor.right r))
  | _, _ => false
  end.







(** [n] presses of Ctrl+Z. *)
Definition undoTimes (n : nat) (s : Editor.State) : Editor.State :=
  Nat.iter n Editor.handleUndo s.

(** A request that fails: the promise is rejected, or the answer has a
    status outside 200-299. *)
Definition failed (r : Github.Fetched) : bool :=
  match r with
  | Github.Rejected => true
  | Github.Resolved res => negb (Github.ok res)
  end.

(** No content of the given entries can be fetched on the given branch:
    for each of them both the raw request and the blob request fail. *)
Definition contents_unreachable (w : Github.World) (owner repo branch : string)
    (files : list Github.GithubTreeItem) : Prop :=
  forall it,
    In it files ->
    failed (Github.fetch w (Github.rawUrl owner repo branch it)) = true
    /\ failed (Github.fetch w (Github.url it)) = true.

(** Repository o/r with two blobs: a.js, for which both hosts reject the
    request, and b.js, for which both answer 404. *)
Definition unreachable_world : Github.World :=
  world_of
    [ (Github.repoUrl "o" "r", json_ok (Github.JRepo "main"));
      (Github.treeUrl "o" "r" "main",
       json_ok (Github.JTree [entry "a.js" Github.blob; entry "b.js" Github.blob]));
      (Github.rawUrl "o" "r" "main" (entry "b.js" Github.blob), not_found);
      (Github.url (entry "b.js" Github.blob), not_found) ].

Definition sample_create_env : App.CreateEnv := App.mkCreateEnv "p9" 5.

(** Repository o/r whose only blob, lib.js, is served by the blob API and
    not by the raw host. *)
Definition fallback_world : Github.World :=
  Github.mkWorld
    (fun u =>
       if String.eqb u (Github.repoUrl "o" "r") then
         Github.Resolved (json_ok (Github.JRepo "main"))
       else if String.eqb u (Github.treeUrl "o" "r" "main") then
         Github.Resolved (json_ok (Github.JTree [entry "lib.js" Github.blob]))
       else if String.eqb u (Github.url (entry "lib.js" Github.blob)) then
         Github.Resolved
           (json_ok (Github.JBlob (String "Y" (String "Q" (String "010" "==")))))
       else Github.Rejected)
    (fun payload => if String.eqb payload "YQ==" then Some "a"%string else None).

(** A URL parser for the samples: the text after the host of a
    https://github.com address. *)
Definition sample_pathname (url : string) : option string :=
  Js.dropPrefix "https://github.com" url.

(** A workspace with the project of [archived_state] open and nothing
    being renamed or created. *)
Definition idle_ui : App.Ui :=
  App.mkUi App.WORKSPACE None "" App.file false "" "".

Definition plain_trim : App.CreateItemEnv :=
  App.mkCreateItemEnv (fun s => s) "n1".

(* ===================================================================== *)
(** * Theorems                                                            *)
(* ===================================================================== *)

(** ** The undo/redo stack *)

Section EditorFacts.

Import Editor.

Lemma differs_false (x : string) (s : State) :
  differs x s = false <-> nth_error (editHistory s) (historyPtr s) = Some x.
Proof.
  unfold differs.
  destruct (nth_error (editHistory s) (historyPtr s)) as [cur|]; split;
    try discriminate.
  - intros H. apply negb_false_iff, String.eqb_eq in H. now subst.
  - intros [= ->]. now rewrite String.eqb_refl.
Qed.

Lemma nth_error_snoc_last (l : list string) (x : string) :
  nth_error (l ++ [x]) (length (l ++ [x]) - 1) = Some x.
Proof.
  rewrite length_app. simpl.
  replace (length l + 1 - 1) with (length l) by lia.
  rewrite nth_error_app2 by lia.
  now rewrite Nat.sub_diag.
Qed.

(** Whatever the state before, a recorded edit leaves the pointer on the
    typed content. *)
Lemma handleChange_wf (x : string) (s : State) : wf (handleChange x s).
Proof.
  unfold wf, handleChange.
  destruct (differs x s) eqn:D; simpl.
  - apply nth_error_snoc_last.
  - now apply differs_false.
Qed.

Lemma handleChange_at_tail (x : string) (s : State) :
  at_tail s -> at_tail (handleChange x s).
Proof.
  unfold at_tail, handleChange. intros T.
  destruct (differs x s); simpl; [|exact T].
  rewrite length_app. simpl. lia.
Qed.

Lemma recordEdits_inv (xs : list string) (s : State) :
  wf s -> at_tail s ->
  let s' := fold_left (fun s x => handleChange x s) xs s in
  wf s' /\ at_tail s'.
Proof.
  revert s. induction xs as [|x xs IH]; intros s W T; simpl.
  - now split.
  - apply IH; [apply handleChange_wf | now apply handleChange_at_tail].
Qed.

Lemma wf_in_range (s : State) : wf s -> historyPtr s < length (editHistory s).
Proof. unfold wf. intros W. apply nth_error_Some. now rewrite W. Qed.

Lemma handleUndo_wf (s : State) : wf s -> wf (handleUndo s).
Proof.
  intros W. unfold handleUndo.
  destruct (0 <? historyPtr s)%nat eqn:G; [|exact W].
  destruct (nth_error (editHistory s) (historyPtr s - 1)) as [c|] eqn:N.
  - exact N.
  - apply nth_error_None in N. apply wf_in_range in W. lia.
Qed.

Lemma handleRedo_wf (s : State) : wf s -> wf (handleRedo s).
Proof.
  intros W. unfold handleRedo.
  destruct (_ <? _)%Z eqn:G; [|exact W].
  destruct (nth_error (editHistory s) (historyPtr s + 1)) as [c|] eqn:N.
  - exact N.
  - apply nth_error_None in N. apply Z.ltb_lt in G. lia.
Qed.

Lemma play_wf (init : string) (acts : list Action) : wf (play init acts).
Proof.
  unfold play.
  assert (W : wf (mount init)) by reflexivity.
  revert W. generalize (mount init).
  induction acts as [|a acts IH]; intros s W; simpl; [exact W|].
  apply IH. destruct a; simpl.
  - apply handleChange_wf.
  - now apply handleUndo_wf.
  - now apply handleRedo_wf.
Qed.

(** The round trip proper: one step back, one step forward. *)
Lemma redo_undo_id (s : State) :
  wf s -> 0 < historyPtr s -> handleRedo (handleUndo s) = s.
Proof.
  intros W P. pose proof (wf_in_range s W) as R.
  unfold handleUndo.
  destruct (Nat.ltb_spec 0 (historyPtr s)) as [_|]; [|lia].
  destruct (nth_error (editHistory s) (historyPtr s - 1)) as [c|] eqn:N.
  2:{ apply nth_error_None in N. lia. }
  unfold handleRedo. simpl.
  destruct (Z.ltb_spec (Z.of_nat (historyPtr s - 1))
              (Z.of_nat (length (editHistory s)) - 1)) as [_|]; [|lia].
  replace (historyPtr s - 1 + 1) with (historyPtr s) by lia.
  unfold wf in W. rewrite W. now destruct s.
Qed.

Lemma undo_at_zero (s : State) : historyPtr s = 0 -> handleUndo s = s.
Proof. intros P. unfold handleUndo. now rewrite P. Qed.

Lemma redo_at_tail (s : State) : at_tail s -> handleRedo s = s.
Proof.
  unfold at_tail, handleRedo. intros T.
  destruct (Z.ltb_spec (Z.of_nat (historyPtr s))
              (Z.of_nat (length (editHistory s)) - 1)); [lia|reflexivity].
Qed.

End EditorFacts.

(** C2. After any run of [recordEdit] calls (distinct contents or not),
    undo followed at once by redo gives back the very state, hence the
    content displayed before the undo; the same holds in every state reached
    through edits, undos and redos whose pointer is not 0. At pointer 0 undo
    changes nothing, and at the last index redo changes nothing: content,
    sequence and pointer stay as they are. *)
Theorem undo_redo_round_trip :
  (forall init xs,
     let s := Editor.recordEdits init xs in
     Editor.handleRedo (Editor.handleUndo s) = s)
  /\ (forall init acts,
        let s := Editor.play init acts in
        0 < Editor.historyPtr s ->
        Editor.handleRedo (Editor.handleUndo s) = s
        /\ Editor.code (Editor.handleRedo (Editor.handleUndo s)) = Editor.code s)
  /\ (forall s, Editor.historyPtr s = 0 -> Editor.handleUndo s = s)
  /\ (forall s, Editor.historyPtr s + 1 = length (Editor.editHistory s) ->
                Editor.handleRedo s = s).
Proof.
  repeat split.
  - intros init xs s.
    destruct (recordEdits_inv xs (Editor.mount init)) as [W T];
      [reflexivity | reflexivity |].
    fold (Editor.recordEdits init xs) in W, T. fold s in W, T.
    destruct (Nat.eq_dec (Editor.historyPtr s) 0) as [Z|NZ].
    + rewrite (undo_at_zero s Z). now apply redo_at_tail.
    + apply redo_undo_id; [exact W | lia].
  - apply redo_undo_id; [apply play_wf | assumption].
  - rewrite redo_undo_id; [reflexivity | apply play_wf | assumption].
  - apply undo_at_zero.
  - apply redo_at_tail.
Qed.

Lemma undo_redo_round_trip_witness :
  let s := Editor.play "a" [Editor.Type_ "b"; Editor.Type_ "c"; Editor.Undo] in
  0 < Editor.historyPtr s
  /\ Editor.handleRedo (Editor.handleUndo s) = s
  /\ Editor.handleUndo (Editor.mount "a") = Editor.mount "a"
  /\ Editor.handleRedo (Editor.mount "a") = Editor.mount "a".
Proof.
  intros s.
  assert (P : 0 < Editor.historyPtr s) by (vm_compute; lia).
  destruct undo_redo_round_trip as (_ & H2 & H3 & H4).
  split; [exact P|].
  split; [apply (H2 "a" [Editor.Type_ "b"; Editor.Type_ "c"; Editor.Undo] P)|].
  split; [apply H3; reflexivity | apply H4; reflexivity].
Defined.

(** C8, as stated, fails when the pointer is not at the tail: the edit
    drops the redo branch before it appends, so the sequence can get
    shorter. After typing b and c over a and undoing twice, the sequence is
    a, b, c with the pointer on a; recording x twice leaves a, x. *)
Lemma recordEdit_twice_can_shrink :
  let s := Editor.play "a" [Editor.Type_ "b"; Editor.Type_ "c";
                            Editor.Undo; Editor.Undo] in
  let s2 := Editor.handleChange "x" (Editor.handleChange "x" s) in
  s = Editor.mkState "a" ["a"; "b"; "c"] 0
  /\ Editor.differs "x" s = true
  /\ Editor.editHistory s2 = ["a"; "x"]
  /\ length (Editor.editHistory s2) <> length (Editor.editHistory s) + 1.
Proof. vm_compute. repeat split; discriminate. Qed.

(** C8, amended. In every state, recording x twice in a row does what
    recording it once does. When x differs from the snapshot under the
    pointer, the one effective call keeps the sequence up to and including
    the pointer, drops what follows, appends x and leaves the pointer on
    that new last entry: one entry more than the kept prefix, hence one
    more than the whole previous sequence exactly when the pointer was on
    its last entry. When x equals the snapshot under the pointer, sequence
    and pointer do not change. *)
Theorem recordEdit_twice :
  forall (s : Editor.State) (x : string),
    let s1 := Editor.handleChange x s in
    Editor.handleChange x s1 = s1
    /\ (Editor.differs x s = true ->
        Editor.editHistory s1
          = firstn (Editor.historyPtr s + 1) (Editor.editHistory s) ++ [x]
        /\ Editor.historyPtr s1 + 1 = length (Editor.editHistory s1)
        /\ nth_error (Editor.editHistory s1) (Editor.historyPtr s1) = Some x
        /\ (Editor.historyPtr s < length (Editor.editHistory s) ->
            length (Editor.editHistory s1) = Editor.historyPtr s + 2)
        /\ (Editor.historyPtr s + 1 = length (Editor.editHistory s) ->
            length (Editor.editHistory s1) = length (Editor.editHistory s) + 1))
    /\ (Editor.differs x s = false ->
        Editor.editHistory s1 = Editor.editHistory s
        /\ Editor.historyPtr s1 = Editor.historyPtr s).
Proof.
  intros s x s1.
  assert (W : Editor.wf s1) by apply handleChange_wf.
  assert (C : Editor.code s1 = x).
  { unfold s1, Editor.handleChange. now destruct (Editor.differs x s). }
  split; [|split].
  - unfold Editor.handleChange at 1.
    assert (D : Editor.differs x s1 = false).
    { apply differs_false. unfold Editor.wf in W. now rewrite W, C. }
    rewrite D. unfold Editor.onChange. rewrite <- C. now destruct s1.
  - intros D. unfold s1, Editor.handleChange. rewrite D. simpl.
    rewrite length_app, length_firstn. simpl.
    repeat split.
    + lia.
    + pose proof (nth_error_snoc_last
                    (firstn (Editor.historyPtr s + 1) (Editor.editHistory s)) x) as N.
      rewrite length_app, length_firstn in N. exact N.
    + lia.
    + lia.
  - intros D. unfold s1, Editor.handleChange. rewrite D. now simpl.
Qed.

Lemma recordEdit_twice_witness :
  let s := Editor.recordEdits "a" ["b"; "c"] in
  let s1 := Editor.handleChange "x" s in
  Editor.differs "x" s = true
  /\ Editor.handleChange "x" s1 = s1
  /\ length (Editor.editHistory s1) = length (Editor.editHistory s) + 1.
Proof.
  intros s s1.
  destruct (recordEdit_twice s "x") as (H1 & H2 & _).
  assert (D : Editor.differs "x" s = true) by reflexivity.
  destruct (H2 D) as (_ & _ & _ & _ & H5).
  split; [exact D|]. split; [exact H1|].
  apply H5. reflexivity.
Defined.

(** ** Staged fixes and the version archive *)

Section AppFacts.

Import App.

Lemma nth_error_mapi_from {A B : Type} (f : nat -> A -> B) (l : list A) :
  forall k i, nth_error (Js.mapi_from f k l) i
              = option_map (f (k + i)) (nth_error l i).
Proof.
  induction l as [|x l IH]; intros k i; simpl.
  - now destruct i.
  - destruct i as [|i]; simpl.
    + now rewrite Nat.add_0_r.
    + rewrite IH. now rewrite Nat.add_succ_comm.
Qed.

Lemma nth_error_mapi {A B : Type} (f : nat -> A -> B) (l : list A) (i : nat) :
  nth_error (Js.mapi f l) i = option_map (f i) (nth_error l i).
Proof. unfold Js.mapi. now rewrite nth_error_mapi_from. Qed.

Lemma length_mapi_from {A B : Type} (f : nat -> A -> B) (l : list A) :
  forall k, length (Js.mapi_from f k l) = length l.
Proof. induction l; intros k; simpl; [reflexivity | now rewrite IHl]. Qed.

Lemma map_mapi_from {A B : Type} (f : A -> B) (l : list A) :
  forall k, map f l = Js.mapi_from (fun _ => f) k l.
Proof. induction l; intros k; simpl; [reflexivity | now rewrite <- IHl]. Qed.

Lemma updateBy_spec g cur act prev :
  updated_as g cur act prev (updateBy g cur act prev).
Proof.
  unfold updated_as, updateBy. split.
  - apply length_mapi_from.
  - intros i p Hp. rewrite nth_error_mapi, Hp. simpl.
    eexists; split; [reflexivity|].
    destruct (same_id (Project.id p) cur); [|reflexivity].
    simpl. split; [reflexivity|]. split; [apply length_mapi_from|].
    intros j f Hf. rewrite nth_error_mapi, Hf. simpl.
    eexists; split; [reflexivity|].
    now destruct (same_id (FileData.id f) act).
Qed.

Lemma map_as_updateBy (h : FileData.t -> FileData.t) cur act prev :
  map (fun p =>
    if same_id (Project.id p) cur then
      with_files p
        (map (fun f => if same_id (FileData.id f) act then h f else f)
             (Project.files p))
    else p) prev
  = updateBy (fun _ _ => h) cur act prev.
Proof.
  unfold updateBy. unfold Js.mapi at 1. generalize 0.
  induction prev as [|p prev IH]; intros k; simpl; [reflexivity|].
  rewrite <- IH. f_equal.
  destruct (same_id (Project.id p) cur); [|reflexivity].
  f_equal. apply map_mapi_from.
Qed.

(** The active file is a file of the state: it sits in a project with
    the current id and carries the active id. *)
Lemma activeFile_located (st : State) (af : FileData.t) :
  activeFile st = Some af ->
  exists i p j,
    nth_error (projects st) i = Some p
    /\ same_id (Project.id p) (currentProjectId st) = true
    /\ nth_error (Project.files p) j = Some af
    /\ same_id (FileData.id af) (activeFileId st) = true.
Proof.
  unfold activeFile, currentProject. intros H.
  destruct (find _ (projects st)) as [p|] eqn:Fp; [|discriminate].
  apply find_some in Fp as [Ip Cp]. apply find_some in H as [If Cf].
  apply In_nth_error in Ip as [i Hi]. apply In_nth_error in If as [j Hj].
  now exists i, p, j.
Qed.

End AppFacts.

(** C1, as stated, fails in two ways. A staged content that is the empty
    string is treated by the guard [!activeFile.stagingContent] as no staged
    content: accepting appends no snapshot, keeps the current content and
    leaves the staged value in place. And the update selects files by id:
    when a second file carries the id of the active file, it is changed
    too. *)
Lemma accept_fix_counterexamples :
  (exists af,
      App.activeFile empty_staging_state = Some af
      /\ FileData.stagingContent af = Some ""
      /\ App.handleAcceptFix sample_accept_env empty_staging_state
         = empty_staging_state)
  /\ (exists af p p' f f',
        App.activeFile shared_id_state = Some af
        /\ FileData.path af = "a/index.js"
        /\ nth_error (App.projects shared_id_state) 0 = Some p
        /\ nth_error (App.projects
                        (App.handleAcceptFix sample_accept_env shared_id_state)) 0
           = Some p'
        /\ nth_error (Project.files p) 1 = Some f
        /\ nth_error (Project.files p') 1 = Some f'
        /\ FileData.path f = "b/index.js"
        /\ FileData.content f = "x"
        /\ FileData.content f' = "y").
Proof.
  split.
  - eexists. repeat split.
  - do 5 eexists. repeat split.
Qed.

(** C1, amended. When the active file has a non-empty staged content,
    accepting rewrites, in every project carrying the current project id,
    every file carrying the active file id, the active file among them: one
    snapshot is appended to the file's archive, whose content is the active
    file's content before the accept; the staged content becomes the
    content; staged content and cached analysis become absent; the other
    fields are kept. Every file with another id, and every project with
    another id, is exactly as before, at the same position, and the two
    selectors are kept. In every other case (no active file, no staged
    content, or a staged content that is the empty string) accepting
    changes nothing at all. *)
Theorem accept_staged_fix :
  forall (e : App.AcceptEnv) (st : App.State),
    (App.activeFile st = None -> App.handleAcceptFix e st = st)
    /\ (forall af,
          App.activeFile st = Some af ->
          FileData.stagingContent af = None
          \/ FileData.stagingContent af = Some "" ->
          App.handleAcceptFix e st = st)
    /\ forall (af : FileData.t) (newContent : string),
    App.activeFile st = Some af ->
    FileData.stagingContent af = Some newContent ->
    newContent <> "" ->
    let st' := App.handleAcceptFix e st in
    (exists i p j,
        nth_error (App.projects st) i = Some p
        /\ App.same_id (Project.id p) (App.currentProjectId st) = true
        /\ nth_error (Project.files p) j = Some af
        /\ App.same_id (FileData.id af) (App.activeFileId st) = true)
    /\ App.currentProjectId st' = App.currentProjectId st
    /\ App.activeFileId st' = App.activeFileId st
    /\ length (App.projects st') = length (App.projects st)
    /\ forall i p, nth_error (App.projects st) i = Some p ->
         exists p', nth_error (App.projects st') i = Some p'
           /\ if App.same_id (Project.id p) (App.currentProjectId st) then
                p' = App.with_files p (Project.files p')
                /\ length (Project.files p') = length (Project.files p)
                /\ forall j f, nth_error (Project.files p) j = Some f ->
                     exists f', nth_error (Project.files p') j = Some f'
                       /\ if App.same_id (FileData.id f) (App.activeFileId st) then
                            (exists v,
                                App.archive f' = App.archive f ++ [v]
                                /\ FileVersion.content v = FileData.content af)
                            /\ FileData.content f' = newContent
                            /\ FileData.stagingContent f' = None
                            /\ FileData.analysis f' = None
                            /\ FileData.id f' = FileData.id f
                            /\ FileData.name f' = FileData.name f
                            /\ FileData.path f' = FileData.path f
                            /\ FileData.language f' = FileData.language f
                            /\ FileData.isAnalyzing f' = FileData.isAnalyzing f
                            /\ FileData.isFixing f' = FileData.isFixing f
                            /\ FileData.cursor f' = FileData.cursor f
                          else f' = f
              else p' = p.
Proof.
  intros e st.
  split; [intros Haf; unfold App.handleAcceptFix; now rewrite Haf|].
  split.
  { intros af Haf [Hst|Hst]; unfold App.handleAcceptFix; now rewrite Haf, Hst. }
  intros af newContent Haf Hst Hne st'.
  split; [now apply activeFile_located|].
  assert (S : st' = {| App.projects :=
                         App.acceptUpdate e (App.currentProjectId st)
                           (App.activeFileId st) newContent (FileData.content af)
                           (App.projects st);
                       App.currentProjectId := App.currentProjectId st;
                       App.activeFileId := App.activeFileId st;
                       App.showDiff := false;
                       App.toastMsg := "Changes Applied" |}).
  { unfold st', App.handleAcceptFix. rewrite Haf, Hst.
    destruct newContent as [|c r]; [contradiction|]. reflexivity. }
  split; [now rewrite S|]. split; [now rewrite S|].
  assert (E : App.projects st'
              = App.updateBy (fun i j => App.accepted newContent
                                       (App.before_fix e i j (FileData.content af)))
                  (App.currentProjectId st) (App.activeFileId st) (App.projects st)).
  { now rewrite S. }
  rewrite E.
  destruct (updateBy_spec
              (fun i j => App.accepted newContent
                            (App.before_fix e i j (FileData.content af)))
              (App.currentProjectId st) (App.activeFileId st) (App.projects st))
    as [L U].
  split; [exact L|].
  intros i p Hp. destruct (U i p Hp) as (p' & Hp' & Sp).
  exists p'. split; [exact Hp'|].
  destruct (App.same_id (Project.id p) (App.currentProjectId st)); [|exact Sp].
  destruct Sp as (Ep & Lp & Fp). split; [exact Ep|]. split; [exact Lp|].
  intros j f Hf. destruct (Fp j f Hf) as (f' & Hf' & Sf).
  exists f'. split; [exact Hf'|].
  destruct (App.same_id (FileData.id f) (App.activeFileId st)); [|exact Sf].
  subst f'. simpl. split; [|now repeat split].
  eexists. split; reflexivity.
Qed.

Lemma accept_staged_fix_witness :
  (exists af st',
      App.activeFile staged_state = Some af
      /\ st' = App.handleAcceptFix sample_accept_env staged_state
      /\ length (App.projects st') = 1)
  /\ App.handleAcceptFix sample_accept_env archived_state = archived_state.
Proof.
  split.
  - exists (FileData.mk "f1" "a.js" "a.js" "old" "js"
              None None (Some "new") None None None).
    eexists. split; [reflexivity|]. split; [reflexivity|].
    refine (proj1 (proj2 (proj2 (proj2
              (proj2 (proj2 (accept_staged_fix sample_accept_env staged_state))
                 _ "new" _ _ _))))).
    + reflexivity.
    + reflexivity.
    + discriminate.
  - refine (proj1 (proj2 (accept_staged_fix sample_accept_env archived_state))
              _ _ _).
    + reflexivity.
    + now left.
Defined.

(** C7, as stated, fails when a second file carries the id of the active
    file: the update selects files by id, so rejecting the fix staged on
    a/index.js also discards the fix staged on b/index.js, which is more
    than clearing the staged content of the one file. *)
Lemma reject_clears_files_sharing_id :
  exists af p p' f f',
    App.activeFile shared_id_state = Some af
    /\ FileData.path af = "a/index.js"
    /\ nth_error (App.projects shared_id_state) 0 = Some p
    /\ nth_error (App.projects (App.handleRejectFix shared_id_state)) 0 = Some p'
    /\ nth_error (Project.files p) 1 = Some f
    /\ nth_error (Project.files p') 1 = Some f'
    /\ FileData.path f = "b/index.js"
    /\ FileData.stagingContent f = Some "y"
    /\ FileData.stagingContent f' = None.
Proof. do 5 eexists. repeat split. Qed.

(** C7, amended. Rejecting keeps the shape of the state (same projects
    and files at the same positions, same selectors); every file with the
    active id in a project with the current id, the active file among them,
    loses its staged content and keeps every other field, its content and
    its archive included, so no snapshot is created; every file with another
    id and every project with another id is exactly as before. *)
Theorem reject_staged_fix :
  forall (st : App.State),
    let st' := App.handleRejectFix st in
    (forall af,
        App.activeFile st = Some af ->
        exists i p j,
          nth_error (App.projects st) i = Some p
          /\ App.same_id (Project.id p) (App.currentProjectId st) = true
          /\ nth_error (Project.files p) j = Some af
          /\ App.same_id (FileData.id af) (App.activeFileId st) = true)
    /\ App.currentProjectId st' = App.currentProjectId st
    /\ App.activeFileId st' = App.activeFileId st
    /\ length (App.projects st') = length (App.projects st)
    /\ forall i p, nth_error (App.projects st) i = Some p ->
         exists p', nth_error (App.projects st') i = Some p'
           /\ if App.same_id (Project.id p) (App.currentProjectId st) then
                p' = App.with_files p (Project.files p')
                /\ length (Project.files p') = length (Project.files p)
                /\ forall j f, nth_error (Project.files p) j = Some f ->
                     exists f', nth_error (Project.files p') j = Some f'
                       /\ if App.same_id (FileData.id f) (App.activeFileId st) then
                            FileData.stagingContent f' = None
                            /\ FileData.content f' = FileData.content f
                            /\ FileData.history f' = FileData.history f
                            /\ FileData.id f' = FileData.id f
                            /\ FileData.name f' = FileData.name f
                            /\ FileData.path f' = FileData.path f
                            /\ FileData.language f' = FileData.language f
                            /\ FileData.analysis f' = FileData.analysis f
                            /\ FileData.isAnalyzing f' = FileData.isAnalyzing f
                            /\ FileData.isFixing f' = FileData.isFixing f
                            /\ FileData.cursor f' = FileData.cursor f
                          else f' = f
              else p' = p.
Proof.
  intros st st'.
  split; [intros af Haf; now apply activeFile_located|].
  split; [reflexivity|]. split; [reflexivity|].
  assert (E : App.projects st'
              = App.updateBy (fun _ _ => App.clear_staging)
                  (App.currentProjectId st) (App.activeFileId st) (App.projects st)).
  { unfold st', App.handleRejectFix, App.rejectUpdate. simpl.
    apply map_as_updateBy. }
  rewrite E.
  destruct (updateBy_spec (fun _ _ => App.clear_staging)
              (App.currentProjectId st) (App.activeFileId st) (App.projects st))
    as [L U].
  split; [exact L|].
  intros i p Hp. destruct (U i p Hp) as (p' & Hp' & Sp).
  exists p'. split; [exact Hp'|].
  destruct (App.same_id (Project.id p) (App.currentProjectId st)); [|exact Sp].
  destruct Sp as (Ep & Lp & Fp). split; [exact Ep|]. split; [exact Lp|].
  intros j f Hf. destruct (Fp j f Hf) as (f' & Hf' & Sf).
  exists f'. split; [exact Hf'|].
  destruct (App.same_id (FileData.id f) (App.activeFileId st)); [|exact Sf].
  subst f'. simpl. now repeat split.
Qed.

Lemma reject_staged_fix_witness :
  exists p p',
    nth_error (App.projects staged_state) 0 = Some p
    /\ nth_error (App.projects (App.handleRejectFix staged_state)) 0 = Some p'
    /\ map FileData.stagingContent (Project.files p') = [None; Some "kept"]
    /\ map FileData.content (Project.files p') = ["old"; "other"].
Proof.
  destruct (proj2 (proj2 (proj2 (proj2 (reject_staged_fix staged_state)))) 0 _
              eq_refl)
    as (p' & Hp' & _).
  eexists. exists p'. split; [reflexivity|]. split; [exact Hp'|].
  vm_compute in Hp'. injection Hp' as <-. split; reflexivity.
Defined.

(** C3, as stated, fails when the user declines the [confirm] dialog: the
    snapshot with the requested id is in the archive, and yet nothing is
    archived and the content is not replaced. *)
Lemma revert_declined_is_noop :
  exists af v,
    App.activeFile archived_state = Some af
    /\ In v (App.archive af)
    /\ FileVersion.id v = "v1"
    /\ App.handleRevertVersion declining "v1" archived_state = archived_state.
Proof.
  exists (FileData.mk "f1" "a.js" "a.js" "now" "js" None None None None
            (Some [ FileVersion.mk "v1" 1 "first" "Before Fix 9:00:00 AM" ]) None).
  exists (FileVersion.mk "v1" 1 "first" "Before Fix 9:00:00 AM").
  split; [reflexivity|]. split; [now left|]. split; reflexivity.
Qed.

Section RevertFacts.

Import App.

Lemma findVersion_absent (f : FileData.t) (versionId : string) :
  (forall v, In v (archive f) -> FileVersion.id v <> versionId) ->
  findVersion f versionId = None.
Proof.
  unfold findVersion, archive. intros H.
  destruct (FileData.history f) as [h|]; [|reflexivity].
  destruct (find _ h) as [v|] eqn:F; [|reflexivity].
  apply find_some in F as [I E]. apply String.eqb_eq in E.
  now destruct (H v I).
Qed.

Lemma findVersion_present (f : FileData.t) (versionId : string)
    (v : FileVersion.t) :
  findVersion f versionId = Some v ->
  In v (archive f) /\ FileVersion.id v = versionId.
Proof.
  unfold findVersion, archive. intros H.
  destruct (FileData.history f) as [h|]; [|discriminate].
  apply find_some in H as [I E]. apply String.eqb_eq in E. now split.
Qed.

Lemma findVersion_some (f : FileData.t) (versionId : string)
    (v : FileVersion.t) :
  In v (archive f) -> FileVersion.id v = versionId ->
  exists target, findVersion f versionId = Some target.
Proof.
  intros I E. destruct (findVersion f versionId) as [t|] eqn:F; [now exists t|].
  unfold findVersion, archive in *.
  destruct (FileData.history f) as [h|]; [|contradiction].
  apply (find_none _ _ F) in I. apply String.eqb_neq in I. contradiction.
Qed.

End RevertFacts.

(** C3, amended. With no active file, or no snapshot of that id in the
    active file's archive, or a declined confirmation dialog, revert changes
    nothing. When a snapshot of that id is in the archive, the current
    project id is set and the user confirms, the target is the first
    snapshot of that id, and every file with the active id in a project
    with the current id, the active file among them, gets one snapshot
    appended, described as "Before Revert" and holding the active file's
    content before the revert; its content becomes the target's, its cached
    analysis becomes absent, and its other fields are kept. No entry leaves
    an archive, and every other file and project is exactly as before. *)
Theorem revert_version :
  forall (e : App.RevertEnv) (versionId : string) (st : App.State),
    let st' := App.handleRevertVersion e versionId st in
    (App.activeFile st = None -> st' = st)
    /\ (forall af, App.activeFile st = Some af ->
          (forall v, In v (App.archive af) -> FileVersion.id v <> versionId) ->
          st' = st)
    /\ (App.confirm e = false -> st' = st)
    /\ (forall af v,
          App.activeFile st = Some af ->
          In v (App.archive af) -> FileVersion.id v = versionId ->
          App.unset (App.currentProjectId st) = false ->
          App.confirm e = true ->
          exists target,
            App.findVersion af versionId = Some target
            /\ In target (App.archive af)
            /\ FileVersion.id target = versionId
            /\ (exists i p j,
                   nth_error (App.projects st) i = Some p
                   /\ App.same_id (Project.id p) (App.currentProjectId st) = true
                   /\ nth_error (Project.files p) j = Some af
                   /\ App.same_id (FileData.id af) (App.activeFileId st) = true)
            /\ length (App.projects st') = length (App.projects st)
            /\ forall i p, nth_error (App.projects st) i = Some p ->
                 exists p', nth_error (App.projects st') i = Some p'
                   /\ if App.same_id (Project.id p) (App.currentProjectId st) then
                        p' = App.with_files p (Project.files p')
                        /\ length (Project.files p') = length (Project.files p)
                        /\ forall j f, nth_error (Project.files p) j = Some f ->
                             exists f', nth_error (Project.files p') j = Some f'
                               /\ if App.same_id (FileData.id f)
                                       (App.activeFileId st) then
                                    App.archive f'
                                      = App.archive f
                                        ++ [FileVersion.mk (App.revert_id e)
                                              (App.revert_now e)
                                              (FileData.content af)
                                              "Before Revert"]
                                    /\ FileData.content f'
                                       = FileVersion.content target
                                    /\ FileData.analysis f' = None
                                    /\ FileData.stagingContent f'
                                       = FileData.stagingContent f
                                    /\ FileData.id f' = FileData.id f
                                    /\ FileData.name f' = FileData.name f
                                    /\ FileData.path f' = FileData.path f
                                    /\ FileData.language f' = FileData.language f
                                    /\ FileData.isAnalyzing f'
                                       = FileData.isAnalyzing f
                                    /\ FileData.isFixing f' = FileData.isFixing f
                                    /\ FileData.cursor f' = FileData.cursor f
                                  else f' = f
                      else p' = p).
Proof.
  intros e versionId st st'. unfold st', App.handleRevertVersion.
  split; [|split; [|split]].
  - intros H. now rewrite H.
  - intros af Haf Habs. rewrite Haf, (findVersion_absent af versionId Habs).
    now destruct (App.unset (App.currentProjectId st)).
  - intros C. rewrite C.
    destruct (App.activeFile st) as [af|]; [|reflexivity].
    destruct (App.unset (App.currentProjectId st)); [reflexivity|].
    now destruct (App.findVersion af versionId).
  - intros af v Haf Iv Ev Hcur C.
    destruct (findVersion_some af versionId v Iv Ev) as [target Ft].
    destruct (findVersion_present af versionId target Ft) as [It Et].
    exists target. split; [exact Ft|]. split; [exact It|]. split; [exact Et|].
    split; [now apply activeFile_located|].
    rewrite Haf, Hcur, Ft, C. simpl. unfold App.revertUpdate.
    rewrite map_as_updateBy.
    match goal with |- context [App.updateBy ?g ?c ?a ?l] =>
      destruct (updateBy_spec g c a l) as [L U] end.
    split; [exact L|].
    intros i p Hp. destruct (U i p Hp) as (p' & Hp' & Sp).
    exists p'. split; [exact Hp'|].
    destruct (App.same_id (Project.id p) (App.currentProjectId st)); [|exact Sp].
    destruct Sp as (Ep & Lp & Fp). split; [exact Ep|]. split; [exact Lp|].
    intros j f Hf. destruct (Fp j f Hf) as (f' & Hf' & Sf).
    exists f'. split; [exact Hf'|].
    destruct (App.same_id (FileData.id f) (App.activeFileId st)); [|exact Sf].
    subst f'. simpl. now repeat split.
Qed.

Lemma revert_version_witness :
  exists target,
    App.findVersion
      (FileData.mk "f1" "a.js" "a.js" "now" "js" None None None None
         (Some [ FileVersion.mk "v1" 1 "first" "Before Fix 9:00:00 AM" ]) None)
      "v1" = Some target
    /\ FileVersion.content target = "first"
    /\ App.handleRevertVersion confirming "zz" archived_state = archived_state.
Proof.
  destruct (revert_version confirming "v1" archived_state) as (_ & _ & _ & H4).
  destruct (H4 _ (FileVersion.mk "v1" 1 "first" "Before Fix 9:00:00 AM")
              eq_refl (or_introl eq_refl) eq_refl eq_refl eq_refl)
    as (target & Ft & _).
  exists target. split; [exact Ft|].
  split.
  - vm_compute in Ft. now injection Ft as <-.
  - destruct (revert_version confirming "zz" archived_state) as (_ & H2 & _).
    apply (H2 _ eq_refl). intros v [<-|[]]. discriminate.
Defined.

(** ** Repository ingestion: filtering *)

Section StringFacts.

Lemma startsWith_spec (t : string) :
  forall s, Js.startsWith s t = true <-> exists post, s = (t ++ post)%string.
Proof.
  induction t as [|a t IH]; intros s; simpl.
  - split; [intros _; now exists s | reflexivity].
  - destruct s as [|b s].
    + split; [discriminate | intros [post H]; discriminate].
    + rewrite andb_true_iff, Ascii.eqb_eq, IH. split.
      * intros [-> [post ->]]. now exists post.
      * intros [post [= -> ->]]. split; [reflexivity | now exists post].
Qed.

Lemma includes_spec (t : string) :
  forall s, Js.includes s t = true <-> occurs_in t s.
Proof.
  unfold occurs_in.
  induction s as [|c s IH]; simpl; rewrite orb_true_iff, startsWith_spec.
  - split.
    + intros [[post H]|H]; [|discriminate]. now exists EmptyString, post.
    + intros [pre [post H]]. left.
      destruct pre; [now exists post | discriminate].
  - rewrite IH. split.
    + intros [[post H]|[pre [post H]]].
      * now exists EmptyString, post.
      * exists (String c pre), post. simpl. now rewrite H.
    + intros [pre [post H]]. destruct pre as [|c' pre].
      * left. now exists post.
      * right. injection H as _ H. now exists pre, post.
Qed.

Lemma not_ignored_spec (it : Github.GithubTreeItem) :
  Github.not_ignored it = true
  <-> forall ignored, In ignored Github.IGNORED_PATHS ->
                      ~ occurs_in ignored (Github.path it).
Proof.
  unfold Github.not_ignored. rewrite negb_true_iff. split.
  - intros H ignored I O. apply includes_spec in O.
    assert (E : existsb (fun ignored => Js.includes (Github.path it) ignored)
                  Github.IGNORED_PATHS = true).
    { apply existsb_exists. now exists ignored. }
    congruence.
  - intros H. destruct (existsb _ _) eqn:E; [|reflexivity].
    apply existsb_exists in E as [ignored [I O]].
    apply includes_spec in O. now destruct (H ignored I).
Qed.

Lemma filter_filter_and {A : Type} (f g : A -> bool) (l : list A) :
  filter g (filter f l) = filter (fun x => f x && g x) l.
Proof.
  induction l as [|x l IH]; simpl; [reflexivity|].
  destruct (f x); simpl; [|exact IH].
  destruct (g x); now rewrite IH.
Qed.

(** The two filters of the code are one filter by the conjunction. *)
Lemma filesToFetch_survivors (entries : list Github.GithubTreeItem) :
  Github.filesToFetch entries = firstn 30 (survivors entries).
Proof.
  unfold Github.filesToFetch, survivors. now rewrite filter_filter_and.
Qed.

Lemma filesToFetch_nil (entries : list Github.GithubTreeItem) :
  Github.filesToFetch entries = [] <-> survivors entries = [].
Proof.
  rewrite filesToFetch_survivors.
  destruct (survivors entries); simpl; split; congruence.
Qed.

End StringFacts.



(** ** Repository ingestion: the pipeline on concrete repositories *)

(** The end-to-end scenario of the specification: one blob README.md whose
    raw body is "# Hello". *)
Example readme_scenario :
  snd (Github.fetchGithubRepo (repo_with [("README.md", "# Hello")]) [] "o" "r" [])
  = inr [ FileData.mk "sha-README.md" "README.md" "README.md" "# Hello" "md"
            None None None None None None ].
Proof. reflexivity. Qed.

(** When no dot occurs in a non-empty path, [split('.')] returns the path
    as its only piece, [pop()] returns it, and the fallback to ['text'] is
    not taken. *)
Lemma split_without_separator (sep : ascii) (s : string) :
  Js.includes s (String sep "") = false -> Js.split sep s = [s].
Proof.
  induction s as [|c s IH]; simpl; [reflexivity|].
  rewrite Ascii.eqb_sym.
  destruct (Ascii.eqb c sep); simpl; [discriminate|].
  intros H. now rewrite (IH H).
Qed.

Lemma extension_without_dot (it : Github.GithubTreeItem) :
  Js.includes (Github.path it) "." = false ->
  Github.path it <> "" ->
  Github.extension it = Github.path it.
Proof.
  intros H N. unfold Github.extension.
  rewrite (split_without_separator "." _ H). simpl.
  destruct (Github.path it); [contradiction | reflexivity].
Qed.

(** C6, where the code departs from the claim: a path without extension
    gets the whole path as its language tag, not [text]. The repository
    holds the single blob Makefile. *)
Theorem language_of_extensionless_path :
  snd (Github.fetchGithubRepo (repo_with [("Makefile", "all:")]) [] "o" "r" [])
  = inr [ FileData.mk "sha-Makefile" "Makefile" "Makefile" "all:" "Makefile"
            None None None None None None ]
  /\ Github.extension (entry "Makefile" Github.blob) <> "text"
  /\ Github.extension (entry "src/util" Github.blob) = "src/util"
  /\ Github.extension (entry "notes." Github.blob) = "text".
Proof. repeat split. discriminate. Qed.

(** ** Repository ingestion: the three failures *)

Ltac split_pipeline :=
  repeat match goal with
    | |- context [Github.fetch ?w ?u] => destruct (Github.fetch w u) eqn:?
    | |- context [Github.ok ?r] => destruct (Github.ok r) eqn:?
    | |- context [Github.json ?r] => destruct (Github.json r) eqn:?
    | |- context [match ?j with Github.JRepo _ => _ | _ => _ end] =>
        destruct j eqn:?
    | |- context [Github.filesToFetch ?l] => destruct (Github.filesToFetch l) eqn:?
    | _ => progress simpl
    end.

(** C9. The pipeline ends in [RepositoryNotFound] exactly when the
    metadata lookup is answered with a non-success status, in
    [TreeFetchError] exactly when the tree request (made for the branch the
    lookup returned) is answered with a non-success status, and in
    [NoReadableFiles] exactly when the tree is obtained and no entry
    survives the filter. In each case, and for any other thrown error, no
    file content has been requested, no [FileData] is returned, and the
    import handler leaves the project list as it was. *)
Theorem ingestion_failures :
  forall (w : Github.World) (schedule : list nat) (owner repo : string),
    let out := Github.fetchGithubRepo w schedule owner repo [] in
    (snd out = inl Github.RepositoryNotFound
     <-> exists res,
           Github.fetch w (Github.repoUrl owner repo) = Github.Resolved res
           /\ Github.ok res = false)
    /\ (snd out = inl Github.TreeFetchError
        <-> exists res repoData res',
              Github.fetch w (Github.repoUrl owner repo) = Github.Resolved res
              /\ Github.ok res = true
              /\ Github.json res = Some repoData
              /\ Github.fetch w (Github.treeUrl owner repo
                                   (Github.default_branch_of repoData))
                 = Github.Resolved res'
              /\ Github.ok res' = false)
    /\ (snd out = inl Github.NoReadableFiles
        <-> exists res repoData res' entries,
              Github.fetch w (Github.repoUrl owner repo) = Github.Resolved res
              /\ Github.ok res = true
              /\ Github.json res = Some repoData
              /\ Github.fetch w (Github.treeUrl owner repo
                                   (Github.default_branch_of repoData))
                 = Github.Resolved res'
              /\ Github.ok res' = true
              /\ Github.json res' = Some (Github.JTree entries)
              /\ survivors entries = [])
    /\ (forall e, snd out = inl e ->
          (fst out = [Github.repoUrl owner repo]
           \/ exists b, fst out = [Github.repoUrl owner repo;
                                   Github.treeUrl owner repo b])
          /\ forall env githubUrl st,
               App.handleGithubImport env w schedule owner repo githubUrl st = st).
Proof.
  intros w schedule owner repo out.
  pose proof filesToFetch_nil as S.
  split; [|split; [|split]].
  - unfold out, Github.fetchGithubRepo, Github.bind, Github.await_fetch,
      Github.await_json, Github.throw, Github.ret, Github.issued.
    split_pipeline; split; intros H;
      try discriminate; try (eexists; split; [reflexivity | assumption]);
      destruct H as (res' & Hr & Ho); congruence.
  - unfold out, Github.fetchGithubRepo, Github.bind, Github.await_fetch,
      Github.await_json, Github.throw, Github.ret, Github.issued.
    split_pipeline; split; intros H; try discriminate;
      try (destruct H as (r1 & j1 & r2 & H1 & H2 & H3 & H4 & H5); congruence);
      try (do 3 eexists; repeat split; eassumption).
  - unfold out, Github.fetchGithubRepo, Github.bind, Github.await_fetch,
      Github.await_json, Github.throw, Github.ret, Github.issued.
    split_pipeline; split; intros H; try discriminate;
      try (destruct H as (r1 & j1 & r2 & es & H1 & H2 & H3 & H4 & H5 & H6 & H7);
           apply S in H7; congruence);
      try (do 4 eexists; repeat split; try eassumption; now apply S).
  - intros e He. split.
    + revert He.
      unfold out, Github.fetchGithubRepo, Github.bind, Github.await_fetch,
        Github.await_json, Github.throw, Github.ret, Github.issued.
      split_pipeline; intros He; try discriminate; eauto.
    + intros env githubUrl st. unfold App.handleGithubImport.
      fold out. now rewrite He.
Qed.

Lemma ingestion_failures_witness :
  snd (Github.fetchGithubRepo (world_of [(Github.repoUrl "o" "r", not_found)])
         [] "o" "r" [])
  = inl Github.RepositoryNotFound
  /\ forall env st,
       App.handleGithubImport env (world_of [(Github.repoUrl "o" "r", not_found)])
         [] "o" "r" "https://github.com/o/r" st = st.
Proof.
  destruct (ingestion_failures (world_of [(Github.repoUrl "o" "r", not_found)])
              [] "o" "r") as (H1 & _ & _ & H4).
  assert (E : snd (Github.fetchGithubRepo
                     (world_of [(Github.repoUrl "o" "r", not_found)]) [] "o" "r" [])
              = inl Github.RepositoryNotFound).
  { apply H1. exists not_found. split; reflexivity. }
  split; [exact E|].
  intros env st. now apply (proj2 (H4 _ E)).
Defined.

(** ** Repository ingestion: the concurrent fetches *)

Section PoolFacts.

Import Github.

Variable w : World.
Variables owner repo defaultBranch : string.

Local Abbreviation resume_task := (resume_task w owner repo defaultBranch).
Local Abbreviation resume := (resume w owner repo defaultBranch).
Local Abbreviation run := (run w owner repo defaultBranch).
Local Abbreviation settle := (settle w owner repo defaultBranch).
Local Abbreviation settle_in := (settle_in w owner repo defaultBranch).
Local Abbreviation drain := (drain w owner repo defaultBranch).
Local Abbreviation start := (start owner repo defaultBranch).
Local Abbreviation fetchOne := (fetchOne w owner repo defaultBranch).
Local Abbreviation fetchAll := (fetchAll w owner repo defaultBranch).
Local Abbreviation outcome := (Github.outcome w owner repo defaultBranch).
Local Abbreviation inTreeOrder := (Github.inTreeOrder w owner repo defaultBranch).
Local Abbreviation pushedBy := (Github.pushedBy w owner repo defaultBranch).

Ltac one_step :=
  simpl;
  repeat match goal with
    | |- context [match fetch ?w ?u with _ => _ end] =>
        destruct (fetch w u) eqn:?; simpl
    | |- context [if ok ?r then _ else _] => destruct (ok r) eqn:?; simpl
    | |- context [match json ?r with _ => _ end] =>
        destruct (json r) as [[]|] eqn:?; simpl
    | |- context [match atob ?w ?s with _ => _ end] =>
        destruct (atob w s) eqn:?; simpl
    end.

(** A record is pushed only with a non-empty content, and it is the
    object literal built from the callback's own entry. *)
Lemma pushed_some (it : GithubTreeItem) (c : string) (f : FileData.t) :
  pushed it c = Some f -> f = fileRecord it c /\ c <> "".
Proof.
  unfold pushed. destruct c; simpl; [discriminate|].
  intros [= <-]. split; [reflexivity | discriminate].
Qed.

Lemma resume_task_item (t : Task) :
  item (fst (fst (resume_task t))) = item t.
Proof.
  destruct t as [it ph]. unfold Github.resume_task.
  destruct ph; one_step; reflexivity.
Qed.

(** A callback pushes at most once, in its last resumption. *)
Lemma resume_task_out (t : Task) (f : FileData.t) :
  snd (fst (resume_task t)) = Some f ->
  phase (fst (fst (resume_task t))) = Settled
  /\ exists c, f = fileRecord (item t) c /\ c <> "".
Proof.
  destruct t as [it ph]. unfold Github.resume_task.
  destruct ph; one_step; try discriminate;
    intros H; apply pushed_some in H; eauto.
Qed.

Lemma steps_left_resume (t : Task) :
  steps_left (fst (fst (resume_task t))) <= pred (steps_left t).
Proof.
  destruct t as [it ph]. unfold Github.resume_task, steps_left.
  destruct ph; one_step; lia.
Qed.

Lemma resume_task_settled (t : Task) :
  steps_left t = 0 -> resume_task t = (t, None, []).
Proof.
  destruct t as [it ph]. unfold steps_left. simpl.
  destruct ph; try discriminate. reflexivity.
Qed.

Lemma settle_in_enough (n : nat) :
  forall t, steps_left t <= n -> settle_in (S n) t = settle_in n t.
Proof.
  induction n as [|n IH]; intros t L.
  - simpl. rewrite resume_task_settled by lia. reflexivity.
  - change (settle_in (S (S n)) t)
      with (let '(t', out, urls) := resume_task t in
            let '(outs, urls') := settle_in (S n) t' in
            (Js.opt_list out ++ outs, urls ++ urls')).
    change (settle_in (S n) t)
      with (let '(t', out, urls) := resume_task t in
            let '(outs, urls') := settle_in n t' in
            (Js.opt_list out ++ outs, urls ++ urls')).
    pose proof (steps_left_resume t) as D.
    destruct (resume_task t) as [[t' out] urls]. simpl in D.
    rewrite IH by lia. reflexivity.
Qed.

Lemma steps_left_bound (t : Task) : steps_left t <= 3.
Proof. unfold steps_left. destruct (phase t); lia. Qed.

(** Running a callback to its end is one resumption followed by running
    what is left of it to its end. *)
Lemma settle_resume (t : Task) :
  fst (settle t)
  = Js.opt_list (snd (fst (resume_task t)))
    ++ fst (settle (fst (fst (resume_task t)))).
Proof.
  unfold Github.settle.
  pose proof (steps_left_resume t) as D. pose proof (steps_left_bound t) as B.
  rewrite (settle_in_enough 2 (fst (fst (resume_task t)))) by lia.
  simpl. destruct (resume_task t) as [[t' out] urls]. simpl.
  destruct (Github.resume_task w owner repo defaultBranch t') as [[t'' out'] urls'].
  destruct (Github.resume_task w owner repo defaultBranch t'') as [[t3 out3] urls3].
  reflexivity.
Qed.

Lemma settle_in_out (n : nat) :
  forall t,
    (steps_left t = 0 -> fst (settle_in n t) = [])
    /\ length (fst (settle_in n t)) <= 1
    /\ forall f, In f (fst (settle_in n t)) ->
                 exists c, f = fileRecord (item t) c /\ c <> "".
Proof.
  induction n as [|n IH]; intros t; simpl.
  - repeat split; [lia | contradiction].
  - pose proof (resume_task_item t) as I.
    pose proof (resume_task_out t) as O.
    pose proof (resume_task_settled t) as Z.
    destruct (resume_task t) as [[t' out] urls]. simpl in I, O.
    destruct (IH t') as (S0 & L & P).
    destruct (Github.settle_in w owner repo defaultBranch n t') as [outs urls'].
    simpl in *. split; [|split].
    + intros E. specialize (Z E). injection Z as -> -> ->. simpl. now apply S0.
    + destruct out as [g|]; simpl; [|exact L].
      destruct (O g eq_refl) as [Ph _].
      rewrite S0; [simpl; lia|]. unfold steps_left. now rewrite Ph.
    + intros f H. apply in_app_or in H as [H|H].
      * destruct out as [g|]; [|contradiction]. destruct H as [<-|[]].
        now apply O.
      * rewrite <- I. now apply P.
Qed.

Lemma settle_out (t : Task) (f : FileData.t) :
  In f (fst (settle t)) -> exists c, f = fileRecord (item t) c /\ c <> "".
Proof. apply (settle_in_out 3 t). Qed.

Lemma settle_start (it : GithubTreeItem) :
  fst (settle (mkTask it AwaitRaw)) = Js.opt_list (fetchOne it).
Proof.
  unfold Github.fetchOne.
  destruct (settle_in_out 3 (mkTask it AwaitRaw)) as (_ & L & _).
  fold (settle (mkTask it AwaitRaw)) in L.
  destruct (fst (settle (mkTask it AwaitRaw))) as [|f [|g l]]; simpl in *;
    [reflexivity | reflexivity | lia].
Qed.

Lemma flat_map_set_nth {X : Type} (F : Task -> list X) (t' : Task) (o : list X) :
  forall (l : list Task) (i : nat) (t : Task),
    nth_error l i = Some t -> F t = o ++ F t' ->
    Permutation (o ++ flat_map F (Js.set_nth i t' l)) (flat_map F l).
Proof.
  induction l as [|y l IH]; intros i t N E.
  - now destruct i.
  - destruct i as [|i]; simpl in *.
    + injection N as ->. rewrite E, app_assoc. apply Permutation_refl.
    + rewrite Permutation_app_swap_app. apply Permutation_app_head.
      now apply (IH i t).
Qed.

Lemma resume_outcome (i : nat) (p : Pool) :
  Permutation (outcome (resume i p)) (outcome p).
Proof.
  unfold outcome, Github.resume.
  destruct (nth_error (tasks p) i) as [t|] eqn:N; [|apply Permutation_refl].
  pose proof (settle_resume t) as E.
  destruct (resume_task t) as [[t' out] urls]. simpl in *.
  rewrite <- app_assoc. apply Permutation_app_head.
  now apply (flat_map_set_nth (fun t => fst (settle t)) t' (Js.opt_list out)
               (tasks p) i t).
Qed.

Lemma run_outcome (schedule : list nat) :
  forall p, Permutation (outcome (run schedule p)) (outcome p).
Proof.
  induction schedule as [|i schedule IH]; intros p; simpl.
  - apply Permutation_refl.
  - eapply Permutation_trans; [apply IH | apply resume_outcome].
Qed.

Lemma outcome_start (files : list GithubTreeItem) :
  outcome (start files) = inTreeOrder files.
Proof.
  unfold outcome, Github.start, inTreeOrder. simpl.
  induction files as [|it files IH]; simpl; [reflexivity|].
  now rewrite settle_start, IH.
Qed.

Lemma fetchAll_permutation (schedule : list nat) (files : list GithubTreeItem) :
  Permutation (fetchedFiles (fetchAll schedule files)) (inTreeOrder files).
Proof.
  rewrite <- outcome_start.
  change (fetchedFiles (fetchAll schedule files))
    with (outcome (run schedule (start files))).
  apply run_outcome.
Qed.

Lemma inTreeOrder_from (files : list GithubTreeItem) (f : FileData.t) :
  In f (inTreeOrder files) ->
  exists it c, In it files /\ f = fileRecord it c /\ c <> "".
Proof.
  unfold inTreeOrder. intros H.
  apply in_flat_map in H as (it & I & H).
  rewrite <- settle_start in H. apply settle_out in H as (c & E & N).
  now exists it, c.
Qed.

Lemma fetchAll_from (schedule : list nat) (files : list GithubTreeItem)
    (f : FileData.t) :
  In f (fetchedFiles (fetchAll schedule files)) ->
  exists it c, In it files /\ f = fileRecord it c /\ c <> "".
Proof.
  intros H. apply inTreeOrder_from.
  eapply Permutation_in; [apply fetchAll_permutation | exact H].
Qed.

Lemma run_snoc (schedule : list nat) (i : nat) (p : Pool) :
  fetchedFiles (run (schedule ++ [i]) p)
  = fetchedFiles (run schedule p) ++ pushedBy i (run schedule p).
Proof.
  unfold Github.run. rewrite fold_left_app. simpl.
  unfold Github.resume, pushedBy.
  destruct (nth_error _ i) as [t|]; [|now rewrite app_nil_r].
  now destruct (resume_task t) as [[t' out] urls].
Qed.

(** *** The order of completion *)

Local Abbreviation is_settled := Completion.is_settled.
Local Abbreviation pending_from := Completion.pending_from.
Local Abbreviation finishes := (Completion.finishes w owner repo defaultBranch).
Local Abbreviation finishedBy := (Completion.finishedBy w owner repo defaultBranch).
Local Abbreviation recordsOf := (Completion.recordsOf w owner repo defaultBranch).
Local Abbreviation tracks := (Completion.tracks w owner repo defaultBranch).
Local Abbreviation completionOrder :=
  (Completion.completionOrder w owner repo defaultBranch).

Lemma is_settled_steps (t : Task) : is_settled t = true <-> steps_left t = 0.
Proof.
  unfold Completion.is_settled, steps_left. destruct (phase t); split; intros H;
    try discriminate; reflexivity.
Qed.

Lemma settled_silent (t : Task) :
  is_settled t = true -> resume_task t = (t, None, []) /\ fst (settle t) = [].
Proof.
  intros H. apply is_settled_steps in H. split.
  - now apply resume_task_settled.
  - now apply (settle_in_out 3 t).
Qed.

Lemma unfinished_step (t : Task) :
  is_settled (fst (fst (resume_task t))) = false ->
  snd (fst (resume_task t)) = None.
Proof.
  intros H. destruct (snd (fst (resume_task t))) as [f|] eqn:O; [|reflexivity].
  destruct (resume_task_out t f O) as [Ph _].
  unfold Completion.is_settled in H. rewrite Ph in H. discriminate.
Qed.

(** One resumption: the callback pushes exactly when it completes, and
    then it pushes the record of its entry. *)
Lemma step_tracks (it : GithubTreeItem) (t : Task) :
  tracks it t ->
  tracks it (fst (fst (resume_task t)))
  /\ Js.opt_list (snd (fst (resume_task t)))
     = if negb (is_settled t) && is_settled (fst (fst (resume_task t)))
       then Js.opt_list (fetchOne it) else [].
Proof.
  intros [I T]. destruct (is_settled t) eqn:St.
  - destruct (settled_silent t St) as [R _]. rewrite R. simpl.
    split; [|reflexivity]. split; [exact I | now left].
  - destruct T as [T|T]; [discriminate|].
    pose proof (settle_resume t) as E. pose proof (resume_task_item t) as J.
    simpl. destruct (is_settled (fst (fst (resume_task t)))) eqn:St'.
    + destruct (settled_silent _ St') as [_ Z]. rewrite Z, app_nil_r in E.
      split; [|congruence]. split; [congruence | now left].
    + pose proof (unfinished_step t St') as O. rewrite O in *. simpl in E.
      split; [|reflexivity]. split; [congruence | right; congruence].
Qed.

Lemma Forall2_nth_r {A B : Type} (R : A -> B -> Prop) :
  forall (l1 : list A) (l2 : list B) (i : nat) (b : B),
    Forall2 R l1 l2 -> nth_error l2 i = Some b ->
    exists a, nth_error l1 i = Some a /\ R a b.
Proof.
  intros l1 l2 i b F. revert i. induction F as [|x y l1 l2 H F IH]; intros i N.
  - now destruct i.
  - destruct i as [|i]; simpl in *.
    + injection N as <-. now exists x.
    + now apply IH.
Qed.

Lemma Forall2_set_nth {A B : Type} (R : A -> B -> Prop) :
  forall (l1 : list A) (l2 : list B) (i : nat) (a : A) (b : B),
    Forall2 R l1 l2 -> nth_error l1 i = Some a -> R a b ->
    Forall2 R l1 (Js.set_nth i b l2).
Proof.
  intros l1 l2 i a b F. revert i. induction F as [|x y l1 l2 H F IH]; intros i N K.
  - now destruct i.
  - destruct i as [|i]; simpl in *.
    + injection N as ->. now constructor.
    + constructor; [exact H | now apply IH].
Qed.

Lemma resume_tracks (files : list GithubTreeItem) (i : nat) (p : Pool) :
  Forall2 tracks files (tasks p) ->
  Forall2 tracks files (tasks (resume i p))
  /\ fetchedFiles (resume i p)
     = fetchedFiles p ++ (if finishes i p then recordsOf files i else []).
Proof.
  intros F. unfold Github.resume, Completion.finishes, Completion.recordsOf.
  destruct (nth_error (tasks p) i) as [t|] eqn:N.
  - destruct (Forall2_nth_r _ _ _ _ _ F N) as (it & Hn & Tr).
    destruct (step_tracks it t Tr) as [Tr' O]. rewrite Hn.
    destruct (resume_task t) as [[t' out] urls]. simpl in *. split.
    + now apply (Forall2_set_nth _ _ _ _ it).
    + now rewrite O.
  - split; [exact F | now rewrite app_nil_r].
Qed.

Lemma run_tracks (files : list GithubTreeItem) (schedule : list nat) :
  forall p,
    Forall2 tracks files (tasks p) ->
    Forall2 tracks files (tasks (run schedule p))
    /\ fetchedFiles (run schedule p)
       = fetchedFiles p ++ flat_map (recordsOf files) (finishedBy schedule p).
Proof.
  induction schedule as [|i schedule IH]; intros p F.
  - split; [exact F | simpl; now rewrite app_nil_r].
  - destruct (resume_tracks files i p F) as [F1 E1].
    destruct (IH (resume i p) F1) as [F2 E2].
    split; [exact F2|].
    change (run (i :: schedule) p) with (run schedule (resume i p)).
    rewrite E2, E1, <- app_assoc. f_equal.
    cbn [Completion.finishedBy]. rewrite flat_map_app. f_equal.
    destruct (finishes i p); simpl; [now rewrite app_nil_r | reflexivity].
Qed.

Lemma skipn_cons {A : Type} :
  forall (k : nat) (l : list A) (x : A) (r : list A),
    skipn k l = x :: r -> nth_error l k = Some x /\ skipn (S k) l = r.
Proof.
  induction k as [|k IH]; intros l x r E.
  - simpl in E. subst l. now split.
  - destruct l as [|y l]; [discriminate|]. simpl in E.
    destruct (IH l x r E) as [N K]. split; [exact N | exact K].
Qed.

Lemma drain_tracks (files : list GithubTreeItem) :
  forall (ts : list Task) (k : nat),
    Forall2 tracks (skipn k files) ts ->
    flat_map (fun t => fst (settle t)) ts
    = flat_map (recordsOf files) (pending_from k ts).
Proof.
  induction ts as [|t ts IH]; intros k F; [reflexivity|].
  inversion F as [|it t' rest ts' Tr Fr E1 E2]; subst.
  symmetry in E1. destruct (skipn_cons k files it rest E1) as [N K].
  rewrite <- K in Fr. cbn [flat_map Completion.pending_from].
  rewrite flat_map_app, (IH (S k) Fr). f_equal.
  destruct (is_settled t) eqn:St.
  - now destruct (settled_silent t St) as [_ ->].
  - destruct Tr as [_ [Tr|Tr]]; [congruence|].
    simpl. unfold Completion.recordsOf. now rewrite N, app_nil_r.
Qed.

Lemma start_tracks (files : list GithubTreeItem) :
  Forall2 tracks files (tasks (start files)).
Proof.
  unfold Github.start. simpl.
  induction files as [|it files IH]; simpl; constructor; [|exact IH].
  split; [reflexivity|]. right. apply settle_start.
Qed.

(** The result lists, for each callback in the order of completion, what
    that callback pushes. *)
Lemma fetchAll_completion (schedule : list nat) (files : list GithubTreeItem) :
  fetchedFiles (fetchAll schedule files)
  = flat_map (recordsOf files) (completionOrder schedule files).
Proof.
  unfold Github.fetchAll, Github.drain, Completion.completionOrder.
  cbn [fetchedFiles].
  destruct (run_tracks files schedule (start files) (start_tracks files))
    as [F E].
  rewrite E, flat_map_app. simpl. f_equal.
  now apply (drain_tracks files _ 0).
Qed.

Lemma records_in_tree_order :
  forall (files pre : list GithubTreeItem),
    flat_map (recordsOf (pre ++ files)) (seq (length pre) (length files))
    = inTreeOrder files.
Proof.
  induction files as [|it files IH]; intros pre; [reflexivity|].
  cbn [length seq flat_map]. unfold Github.inTreeOrder. cbn [flat_map].
  f_equal.
  - unfold Completion.recordsOf.
    rewrite nth_error_app2 by apply Nat.le_refl. now rewrite Nat.sub_diag.
  - specialize (IH (pre ++ [it])). rewrite <- app_assoc, length_app in IH.
    simpl in IH. rewrite Nat.add_1_r in IH. exact IH.
Qed.

Lemma pending_start (files : list GithubTreeItem) :
  forall k, pending_from k (map (fun it => mkTask it AwaitRaw) files)
            = seq k (length files).
Proof.
  induction files as [|it files IH]; intros k; simpl; [reflexivity|].
  now rewrite IH.
Qed.

Lemma pending_set_nth :
  forall (l : list Task) (k i : nat) (t t' : Task),
    nth_error l i = Some t ->
    (is_settled t = true -> is_settled t' = true) ->
    Permutation (pending_from k l)
      ((if negb (is_settled t) && is_settled t' then [k + i] else [])
         ++ pending_from k (Js.set_nth i t' l)).
Proof.
  induction l as [|y l IH]; intros k i t t' N M.
  - now destruct i.
  - destruct i as [|i]; simpl in N.
    + injection N as ->. simpl. rewrite Nat.add_0_r.
      destruct (is_settled t) eqn:St.
      * rewrite (M eq_refl). apply Permutation_refl.
      * destruct (is_settled t'); apply Permutation_refl.
    + cbn [Js.set_nth Completion.pending_from].
      rewrite Permutation_app_swap_app. apply Permutation_app_head.
      rewrite <- Nat.add_succ_comm. now apply IH.
Qed.

Lemma resume_pending (i : nat) (p : Pool) :
  Permutation (pending_from 0 (tasks p))
    ((if finishes i p then [i] else []) ++ pending_from 0 (tasks (resume i p))).
Proof.
  unfold Completion.finishes, Github.resume.
  destruct (nth_error (tasks p) i) as [t|] eqn:N; [|apply Permutation_refl].
  pose proof (pending_set_nth (tasks p) 0 i t (fst (fst (resume_task t))) N) as H.
  assert (M : is_settled t = true ->
              is_settled (fst (fst (resume_task t))) = true).
  { intros St. destruct (settled_silent t St) as [R _]. now rewrite R. }
  specialize (H M).
  destruct (resume_task t) as [[t' out] urls]. exact H.
Qed.

Lemma run_pending (schedule : list nat) :
  forall p,
    Permutation (pending_from 0 (tasks p))
      (finishedBy schedule p ++ pending_from 0 (tasks (run schedule p))).
Proof.
  induction schedule as [|i schedule IH]; intros p; [apply Permutation_refl|].
  change (run (i :: schedule) p) with (run schedule (resume i p)).
  cbn [Completion.finishedBy]. rewrite <- app_assoc.
  eapply Permutation_trans; [apply (resume_pending i)|].
  apply Permutation_app_head, IH.
Qed.

(** Every callback completes exactly once. *)
Lemma completionOrder_permutation (schedule : list nat)
    (files : list GithubTreeItem) :
  Permutation (completionOrder schedule files) (seq 0 (length files)).
Proof.
  unfold Completion.completionOrder. apply Permutation_sym.
  eapply Permutation_trans; [|apply run_pending].
  unfold Github.start. simpl. rewrite pending_start. apply Permutation_refl.
Qed.

End PoolFacts.

(** When the pipeline returns a list, it is the array the callbacks pushed
    onto, for the branch and the tree the two first requests returned. *)
Lemma fetchGithubRepo_success (w : Github.World) (schedule : list nat)
    (owner repo : string) (log : list string) (files : list FileData.t) :
  Github.fetchGithubRepo w schedule owner repo [] = (log, inr files) ->
  exists res repoData res' entries,
    Github.fetch w (Github.repoUrl owner repo) = Github.Resolved res
    /\ Github.json res = Some repoData
    /\ Github.fetch w (Github.treeUrl owner repo (Github.default_branch_of repoData))
       = Github.Resolved res'
    /\ Github.json res' = Some (Github.JTree entries)
    /\ files = Github.fetchedFiles
                 (Github.fetchAll w owner repo (Github.default_branch_of repoData)
                    schedule (Github.filesToFetch entries)).
Proof.
  unfold Github.fetchGithubRepo, Github.bind, Github.await_fetch,
    Github.await_json, Github.throw, Github.ret, Github.issued.
  destruct (Github.fetch w (Github.repoUrl owner repo)) as [|res] eqn:F1;
    [discriminate|].
  destruct (Github.ok res); simpl; [|discriminate].
  destruct (Github.json res) as [repoData|] eqn:J1; simpl; [|discriminate].
  destruct (Github.fetch w (Github.treeUrl _ _ _)) as [|res'] eqn:F2;
    [discriminate|].
  destruct (Github.ok res'); simpl; [|discriminate].
  destruct (Github.json res') as [[b|entries|c|]|] eqn:J2; simpl; try discriminate.
  destruct (Github.filesToFetch entries) as [|it files'] eqn:E; [discriminate|].
  intros H. injection H as _ <-. exists res, repoData, res', entries.
  rewrite E. repeat split; assumption.
Qed.

(** C5, as stated, fails: each callback pushes its record when its own
    fetch completes. With the blobs a.js and b.js in that order in the tree,
    and the answers for b.js arriving first, the result lists b.js before
    a.js. *)
Lemma result_follows_completion_order :
  option_map (map FileData.path)
    (match snd (Github.fetchGithubRepo two_files [1; 1; 0; 0] "o" "r" []) with
     | inr files => Some files
     | inl _ => None
     end)
  = Some ["b.js"; "a.js"]
  /\ map Github.path
       (Github.filesToFetch [entry "a.js" Github.blob; entry "b.js" Github.blob])
     = ["a.js"; "b.js"].
Proof. split; reflexivity. Qed.

(** C5, amended. The final list holds the records in the order in which
    the callbacks complete: it lists, for each callback in the order of
    completion, the record that callback pushes (the record of its entry,
    or nothing), whatever the position of the entry in the tree; resuming
    a callback appends what it pushes to the end of the list. Every
    callback completes exactly once, so whatever the order of completion
    the list has the same records as the list in tree order, each as many
    times; and it is the list in tree order when the callbacks complete in
    tree order. This holds of the list [fetchGithubRepo] returns, for the
    branch and the tree its two first requests returned. *)
Theorem result_in_completion_order :
  forall (w : Github.World) (owner repo defaultBranch : string)
         (schedule : list nat) (files : list Github.GithubTreeItem),
    let order :=
      Completion.completionOrder w owner repo defaultBranch schedule files in
    Github.fetchedFiles (Github.fetchAll w owner repo defaultBranch schedule files)
    = flat_map (Completion.recordsOf w owner repo defaultBranch files) order
    /\ Permutation order (seq 0 (length files))
    /\ (order = seq 0 (length files) ->
        Github.fetchedFiles
          (Github.fetchAll w owner repo defaultBranch schedule files)
        = Github.inTreeOrder w owner repo defaultBranch files)
    /\ Permutation
         (Github.fetchedFiles
            (Github.fetchAll w owner repo defaultBranch schedule files))
         (Github.inTreeOrder w owner repo defaultBranch files)
    /\ Github.fetchedFiles (Github.fetchAll w owner repo defaultBranch [] files)
       = Github.inTreeOrder w owner repo defaultBranch files
    /\ (forall i,
          let p := Github.run w owner repo defaultBranch schedule
                     (Github.start owner repo defaultBranch files) in
          Github.fetchedFiles
            (Github.run w owner repo defaultBranch (schedule ++ [i])
               (Github.start owner repo defaultBranch files))
          = Github.fetchedFiles p ++ Github.pushedBy w owner repo defaultBranch i p)
    /\ (forall log result res repoData res' entries,
          Github.fetchGithubRepo w schedule owner repo [] = (log, inr result) ->
          Github.fetch w (Github.repoUrl owner repo) = Github.Resolved res ->
          Github.json res = Some repoData ->
          Github.fetch w (Github.treeUrl owner repo
                            (Github.default_branch_of repoData))
          = Github.Resolved res' ->
          Github.json res' = Some (Github.JTree entries) ->
          let branch := Github.default_branch_of repoData in
          let selected := Github.filesToFetch entries in
          let completed :=
            Completion.completionOrder w owner repo branch schedule selected in
          result
          = flat_map (Completion.recordsOf w owner repo branch selected) completed
          /\ Permutation completed (seq 0 (length selected))
          /\ Permutation result (Github.inTreeOrder w owner repo branch selected)
          /\ (completed = seq 0 (length selected) ->
              result = Github.inTreeOrder w owner repo branch selected)).
Proof.
  assert (T : forall w owner repo branch schedule files,
            Completion.completionOrder w owner repo branch schedule files
            = seq 0 (length files) ->
            Github.fetchedFiles (Github.fetchAll w owner repo branch schedule files)
            = Github.inTreeOrder w owner repo branch files).
  { intros w owner repo branch schedule files E.
    rewrite fetchAll_completion, E.
    apply (records_in_tree_order w owner repo branch files []). }
  intros w owner repo defaultBranch schedule files order.
  split; [apply fetchAll_completion|].
  split; [apply completionOrder_permutation|].
  split; [apply T|].
  split; [apply fetchAll_permutation|].
  split; [apply (outcome_start w owner repo defaultBranch files)|].
  split; [intros i p; apply run_snoc|].
  intros log result res repoData res' entries H F1 J1 F2 J2 branch selected
    completed.
  apply fetchGithubRepo_success in H
    as (res0 & repoData0 & res0' & entries0 & G1 & K1 & G2 & K2 & ->).
  rewrite F1 in G1. injection G1 as <-.
  rewrite J1 in K1. injection K1 as <-.
  rewrite F2 in G2. injection G2 as <-.
  rewrite J2 in K2. injection K2 as <-.
  split; [apply fetchAll_completion|].
  split; [apply completionOrder_permutation|].
  split; [apply fetchAll_permutation|].
  apply T.
Qed.

Lemma result_in_completion_order_witness :
  exists result,
    snd (Github.fetchGithubRepo two_files [0; 1; 0; 1] "o" "r" []) = inr result
    /\ Completion.completionOrder two_files "o" "r" "main" [0; 1; 0; 1]
         (Github.filesToFetch [entry "a.js" Github.blob; entry "b.js" Github.blob])
       = [0; 1]
    /\ result
       = Github.inTreeOrder two_files "o" "r" "main"
           (Github.filesToFetch
              [entry "a.js" Github.blob; entry "b.js" Github.blob]).
Proof.
  destruct (Github.fetchGithubRepo two_files [0; 1; 0; 1] "o" "r" [])
    as [log [e|result]] eqn:E.
  - vm_compute in E. discriminate.
  - exists result. split; [reflexivity|]. split; [reflexivity|].
    destruct (result_in_completion_order two_files "o" "r" "main" [0; 1; 0; 1] [])
      as (_ & _ & _ & _ & _ & _ & H).
    destruct (H log result (json_ok (Github.JRepo "main")) (Github.JRepo "main")
                (json_ok (Github.JTree [entry "a.js" Github.blob;
                                        entry "b.js" Github.blob]))
                [entry "a.js" Github.blob; entry "b.js" Github.blob]
                E eq_refl eq_refl eq_refl eq_refl) as (_ & _ & _ & K).
    apply K. reflexivity.
Defined.

(** C10. Every record the pipeline returns has a non-empty content. An
    entry whose raw fetch succeeds with an empty body yields no record and
    issues no further request, so the blob API is not tried; the entry is
    absent from the result just as when both fetches are rejected. *)
Theorem fetched_content_nonempty :
  forall (w : Github.World) (schedule : list nat) (owner repo : string),
    (forall log files f,
        Github.fetchGithubRepo w schedule owner repo [] = (log, inr files) ->
        In f files ->
        FileData.content f <> ""
        /\ exists it, f = Github.fileRecord it (FileData.content f))
    /\ (forall defaultBranch it res,
          Github.fetch w (Github.rawUrl owner repo defaultBranch it)
          = Github.Resolved res ->
          Github.ok res = true ->
          Github.text res = "" ->
          Github.settle w owner repo defaultBranch (Github.mkTask it Github.AwaitRaw)
          = ([], [])
          /\ Github.fetchOne w owner repo defaultBranch it = None)
    /\ (forall defaultBranch it,
          Github.fetch w (Github.rawUrl owner repo defaultBranch it)
          = Github.Rejected ->
          Github.fetch w (Github.url it) = Github.Rejected ->
          Github.fetchOne w owner repo defaultBranch it = None).
Proof.
  intros w schedule owner repo. split; [|split].
  - intros log files f H I.
    apply fetchGithubRepo_success in H
      as (res & repoData & res' & entries & _ & _ & _ & _ & ->).
    apply fetchAll_from in I as (it & c & _ & -> & N).
    split; [exact N | now exists it].
  - intros defaultBranch it res F O T.
    assert (R : Github.resume_task w owner repo defaultBranch
                  (Github.mkTask it Github.AwaitRaw)
                = (Github.mkTask it (Github.AwaitRawText res), None, [])).
    { unfold Github.resume_task. simpl. now rewrite F, O. }
    unfold Github.fetchOne, Github.settle. simpl. rewrite R. simpl.
    rewrite T. split; reflexivity.
  - intros defaultBranch it F1 F2.
    assert (R1 : Github.resume_task w owner repo defaultBranch
                   (Github.mkTask it Github.AwaitRaw)
                 = (Github.mkTask it Github.AwaitApi, None, [Github.url it])).
    { unfold Github.resume_task. simpl. now rewrite F1. }
    assert (R2 : Github.resume_task w owner repo defaultBranch
                   (Github.mkTask it Github.AwaitApi)
                 = (Github.mkTask it Github.Settled, None, [])).
    { unfold Github.resume_task. simpl. now rewrite F2. }
    unfold Github.fetchOne, Github.settle. simpl. rewrite R1, R2. reflexivity.
Qed.

Lemma fetched_content_nonempty_witness :
  exists files,
    snd (Github.fetchGithubRepo empty_body [] "o" "r" []) = inr files
    /\ map FileData.path files = ["a.js"]
    /\ Forall (fun f => FileData.content f <> "") files
    /\ Github.settle empty_body "o" "r" "main"
         (Github.mkTask (entry "empty.txt" Github.blob) Github.AwaitRaw)
       = ([], []).
Proof.
  destruct (fetched_content_nonempty empty_body [] "o" "r") as (H1 & H2 & _).
  destruct (Github.fetchGithubRepo empty_body [] "o" "r" [])
    as [log [e|files]] eqn:E.
  - vm_compute in E. discriminate.
  - exists files. split; [reflexivity|]. split.
    + vm_compute in E. injection E as _ <-. reflexivity.
    + split.
      * apply Forall_forall. intros f I. apply (H1 log files f eq_refl I).
      * apply (H2 "main" (entry "empty.txt" Github.blob) (text_ok ""));
          reflexivity.
Defined.

(* ===================================================================== *)
(** * Further properties of the code                                      *)
(* ===================================================================== *)

(** ** Strings *)

Section MoreStringFacts.

Lemma append_nil_r (s : string) : (s ++ "")%string = s.
Proof. induction s as [|c s IH]; simpl; [reflexivity | now rewrite IH]. Qed.

Lemma append_assoc (a b c : string) :
  ((a ++ b) ++ c)%string = (a ++ b ++ c)%string.
Proof. induction a as [|x a IH]; simpl; [reflexivity | now rewrite IH]. Qed.

Lemma length_append (a b : string) :
  String.length (a ++ b) = String.length a + String.length b.
Proof. induction a as [|x a IH]; simpl; [reflexivity | now rewrite IH]. Qed.


Lemma append_inv_head (a b c : string) :
  (a ++ b)%string = (a ++ c)%string -> b = c.
Proof.
  induction a as [|x a IH]; simpl; [easy|]. intros [= H]. now apply IH.
Qed.

Lemma split_cons (sep : ascii) (s : string) :
  exists h t, Js.split sep s = h :: t.
Proof.
  induction s as [|c s (h & t & IH)]; simpl; [now eexists; eexists|].
  destruct (Ascii.eqb c sep); [now eexists; eexists|].
  rewrite IH. now eexists; eexists.
Qed.

(** Splitting at a separator splits the pieces. *)
Lemma split_app_sep (sep : ascii) (a b : string) :
  Js.split sep (a ++ String sep b) = Js.split sep a ++ Js.split sep b.
Proof.
  induction a as [|c a IH]; simpl.
  - now rewrite Ascii.eqb_refl.
  - destruct (Ascii.eqb c sep); [now rewrite IH|].
    rewrite IH. destruct (split_cons sep a) as (h & t & ->). reflexivity.
Qed.

(** The pieces of a split: full pieces, each followed by the separator in
    the text, then a last piece; no piece holds the separator. *)
Lemma split_pieces (sep : ascii) (s : string) :
  exists pieces lastPiece,
    Js.split sep s = pieces ++ [lastPiece]
    /\ s = (String.concat "" (map (fun p => p ++ String sep "")%string pieces)
            ++ lastPiece)%string
    /\ Forall (fun p => Js.allChars (fun x => negb (Ascii.eqb x sep)) p = true)
         (pieces ++ [lastPiece]).
Proof.
  induction s as [|c s (pieces & lastPiece & E & T & F)]; simpl.
  - exists [], ""%string. repeat split. now repeat constructor.
  - destruct (Ascii.eqb c sep) eqn:C.
    + apply Ascii.eqb_eq in C. subst c.
      exists (""%string :: pieces), lastPiece. rewrite E. split; [reflexivity|].
      split.
      * simpl. destruct pieces as [|p ps]; simpl in *; now rewrite T at 1.
      * constructor; [reflexivity | exact F].
    + rewrite E. destruct pieces as [|p ps]; simpl in *.
      * exists [], (String c lastPiece). split; [reflexivity|].
        split; [now rewrite T at 1|].
        inversion F; subst. repeat constructor. simpl. now rewrite C.
      * exists (String c p :: ps), lastPiece. split; [reflexivity|]. split.
        -- simpl. destruct ps as [|q qs]; simpl in *; now rewrite T at 1.
        -- inversion F; subst. constructor; [|assumption]. simpl. now rewrite C.
Qed.

Lemma pop_snoc (l : list string) (x : string) : Js.pop (l ++ [x]) = Some x.
Proof.
  induction l as [|y l IH]; simpl; [reflexivity|].
  rewrite IH. now destruct (l ++ [x]) eqn:E; [destruct l|].
Qed.

Lemma dropPrefix_spec (t : string) :
  forall s rest, Js.dropPrefix t s = Some rest <-> s = (t ++ rest)%string.
Proof.
  induction t as [|a t IH]; intros s rest; simpl.
  - split; [now intros [= ->] | now intros ->].
  - destruct s as [|b s]; [split; discriminate|].
    destruct (Ascii.eqb a b) eqn:E.
    + apply Ascii.eqb_eq in E. subst b. rewrite IH.
      split; [now intros -> | now intros [= ->]].
    + apply Ascii.eqb_neq in E. split; [discriminate|].
      intros [= -> _]. contradiction.
Qed.

Lemma dropSuffix_app (suf rest : string) :
  Js.dropSuffix suf (rest ++ suf) = Some rest.
Proof.
  induction rest as [|x rest IH].
  - destruct suf; simpl; now rewrite ?Ascii.eqb_refl, ?String.eqb_refl.
  - change (String x rest ++ suf)%string with (String x (rest ++ suf)).
    unfold Js.dropSuffix; fold Js.dropSuffix.
    destruct (String.eqb_spec (String x (rest ++ suf)) suf) as [E|_].
    + apply (f_equal String.length) in E. simpl in E.
      rewrite length_append in E. lia.
    + now rewrite IH.
Qed.


End MoreStringFacts.

(** ** The editor: caret position, diff view, history *)

Section CursorFacts.

Import Editor.

Lemma lastOf_snoc (l : list Utf16) (x : Utf16) : lastOf (l ++ [x]) = Some x.
Proof.
  induction l as [|y l IH]; simpl; [reflexivity|].
  rewrite IH. now destruct (l ++ [x]) eqn:E; [destruct l|].
Qed.

(** The pieces of a split: all but the last were closed by a separator,
    and no piece holds one. *)
Lemma splitUnits_pieces (sep : N) :
  forall s : Utf16,
  exists pieces lastPiece,
    splitUnits sep s = pieces ++ [lastPiece]
    /\ s = concat (map (fun l => l ++ [sep]) pieces) ++ lastPiece
    /\ Forall (fun l => ~ In sep l) (pieces ++ [lastPiece]).
Proof.
  induction s as [|c r (pieces & lastPiece & E & T & F)].
  - exists [], []. repeat split. constructor; [easy | constructor].
  - simpl. destruct (N.eqb c sep) eqn:C.
    + apply N.eqb_eq in C. subst c.
      exists ([] :: pieces), lastPiece. rewrite E. split; [reflexivity|].
      split; [simpl; now rewrite <- T|].
      constructor; [easy | exact F].
    + apply N.eqb_neq in C. rewrite E.
      destruct pieces as [|p ps]; simpl in *.
      * exists [], (c :: lastPiece). split; [reflexivity|].
        split; [simpl; now rewrite T|].
        constructor; [|constructor].
        inversion F as [|? ? Fl _]; subst.
        intros [H|H]; [now apply C | now apply Fl].
      * exists ((c :: p) :: ps), lastPiece. split; [reflexivity|].
        split; [simpl; now rewrite T|].
        inversion F as [|? ? Fp Fr]; subst.
        constructor; [|exact Fr].
        intros [H|H]; [now apply C | now apply Fp].
Qed.

End CursorFacts.

(** X1. [handleCursor] does nothing when the event has no target and
    throws a TypeError when the value of the target is not a string (the
    handler sits on the container, so the target need not be the
    textarea). When the value is a string, it always sets a position: the
    text before the caret is a run of full lines, each closed by a newline,
    followed by the part of the current line before the caret; the line
    shown is one more than the number of full lines and the column one more
    than the length of that part, in UTF-16 code units. A [null] caret
    index gives line 1, column 1, and a missing one the position of the
    end of the text. *)
Theorem cursor_position :
  Editor.handleCursor None = Editor.NoChange
  /\ (forall sel,
        Editor.handleCursor (Some (Editor.mkTarget Editor.NoSubstr sel))
        = Editor.TypeError)
  /\ (forall (value : Editor.Utf16) (sel : Editor.Selection),
        exists fullLines current,
          Editor.handleCursor (Some (Editor.mkTarget (Editor.Str value) sel))
          = Editor.SetCursor (S (length fullLines)) (S (length current))
          /\ Editor.substr0 value sel
             = concat (map (fun l => l ++ [Editor.newline]) fullLines) ++ current
          /\ Forall (fun l => ~ In Editor.newline l) (fullLines ++ [current]))
  /\ (forall (value : Editor.Utf16) (n : nat),
        Editor.substr0 value (Editor.At n) = firstn n value)
  /\ (forall (value : Editor.Utf16),
        Editor.handleCursor
          (Some (Editor.mkTarget (Editor.Str value) Editor.Null))
        = Editor.SetCursor 1 1
        /\ Editor.handleCursor
             (Some (Editor.mkTarget (Editor.Str value) Editor.Undefined))
           = Editor.handleCursor
               (Some (Editor.mkTarget (Editor.Str value)
                        (Editor.At (length value))))).
Proof.
  split; [reflexivity|]. split; [reflexivity|]. split; [|split; [reflexivity|]].
  - intros value sel.
    destruct (splitUnits_pieces Editor.newline (Editor.substr0 value sel))
      as (fullLines & current & E & T & F).
    exists fullLines, current. split; [|split; assumption].
    unfold Editor.handleCursor. cbn [Editor.target_value
      Editor.target_selectionStart].
    rewrite E, lastOf_snoc, length_app. simpl.
    now rewrite !Nat.add_1_r.
  - intros value. split; [reflexivity|].
    unfold Editor.handleCursor. cbn [Editor.target_value
      Editor.target_selectionStart Editor.substr0].
    now rewrite firstn_all.
Qed.

Section DiffFacts.

Import Editor.

Lemma partRows_spec (a rm : bool) (lines : list string) :
  forall l r,
    let '(rows, l', r') := partRows a rm lines l r in
    length rows = length lines
    /\ leftTexts rows = (if a then [] else lines)
    /\ rightTexts rows = (if a || negb rm then lines else [])
    /\ l' = l + length (leftTexts rows)
    /\ r' = r + length (rightTexts rows)
    /\ leftNums rows = seq l (length (leftTexts rows))
    /\ rightNums rows = seq r (length (rightTexts rows))
    /\ forallb rowShape rows = true.
Proof.
  induction lines as [|line lines IH]; intros l r; simpl.
  - rewrite !Nat.add_0_r. repeat split; try reflexivity.
    + now destruct a.
    + now destruct (a || negb rm).
  - destruct a; [|destruct rm].
    + specialize (IH l (S r)).
      destruct (partRows true rm lines l (S r)) as [[rows l'] r'].
      destruct IH as (L & LT & RT & El & Er & LN & RN & Sh).
      unfold leftNums, rightNums, leftTexts, rightTexts in *. simpl in *.
      rewrite L, LN, RN, Sh, LT, RT in *. simpl in *.
      repeat split; try reflexivity; lia.
    + specialize (IH (S l) r).
      destruct (partRows false true lines (S l) r) as [[rows l'] r'].
      destruct IH as (L & LT & RT & El & Er & LN & RN & Sh).
      unfold leftNums, rightNums, leftTexts, rightTexts in *. simpl in *.
      rewrite L, LN, RN, Sh, LT, RT in *. simpl in *.
      repeat split; try reflexivity; lia.
    + specialize (IH (S l) (S r)).
      destruct (partRows false false lines (S l) (S r)) as [[rows l'] r'].
      destruct IH as (L & LT & RT & El & Er & LN & RN & Sh).
      unfold leftNums, rightNums, leftTexts, rightTexts in *. simpl in *.
      unfold rowShape at 1. simpl.
      rewrite L, LN, RN, Sh, LT, RT, String.eqb_refl in *. simpl in *.
      repeat split; try reflexivity; lia.
Qed.

Lemma rowsFrom_spec (changes : list Change) :
  forall l r,
    let rows := rowsFrom changes l r in
    length rows = length (flat_map partLines changes)
    /\ leftTexts rows
       = flat_map (fun p => if added p then [] else partLines p) changes
    /\ rightTexts rows
       = flat_map (fun p => if added p || negb (removed p) then partLines p else [])
           changes
    /\ leftNums rows = seq l (length (leftTexts rows))
    /\ rightNums rows = seq r (length (rightTexts rows))
    /\ forallb rowShape rows = true.
Proof.
  induction changes as [|part changes IH]; intros l r; simpl.
  - now repeat split.
  - pose proof (partRows_spec (added part) (removed part) (partLines part) l r) as P.
    destruct (partRows (added part) (removed part) (partLines part) l r)
      as [[rows l'] r'].
    destruct P as (L & LT & RT & El & Er & LN & RN & Sh).
    destruct (IH l' r') as (L2 & LT2 & RT2 & LN2 & RN2 & Sh2).
    unfold leftNums, rightNums, leftTexts, rightTexts in *.
    rewrite !flat_map_app, !length_app, forallb_app, seq_app, seq_app.
    rewrite L, L2, Sh, Sh2, LN, LN2, RN, RN2, <- El, <- Er, LT, LT2, RT, RT2.
    now repeat split.
Qed.






End DiffFacts.

(** X2. In the diff view, the line numbers of the left column are 1, 2,
    3, ... without gap down the rows that show a text on the left, and
    likewise on the right; every row is an added line beside a blank, a
    removed line beside a blank, or the same line on both sides; and there
    is one row per line of every part. *)
Theorem diff_rows_numbering :
  forall (changes : list Editor.Change),
    let rows := Editor.rowsFrom changes 1 1 in
    leftNums rows = seq 1 (length (leftTexts rows))
    /\ rightNums rows = seq 1 (length (rightTexts rows))
    /\ forallb rowShape rows = true
    /\ length rows = length (flat_map Editor.partLines changes).
Proof.
  intros changes rows.
  destruct (rowsFrom_spec changes 1 1) as (L & _ & _ & LN & RN & Sh).
  now repeat split.
Qed.



Section HistoryFacts.

Import Editor.

Lemma handleChange_first (x : string) (s : State) :
  nth_error (editHistory (handleChange x s)) 0 = nth_error (editHistory s) 0
  \/ editHistory s = [].
Proof.
  unfold handleChange. destruct (differs x s); simpl; [|now left].
  destruct (editHistory s) as [|h t]; [now right | left].
  now rewrite Nat.add_1_r.
Qed.

Lemma handleUndo_history (s : State) :
  editHistory (handleUndo s) = editHistory s.
Proof.
  unfold handleUndo. destruct (0 <? historyPtr s)%nat; [|reflexivity].
  now destruct (nth_error _ _).
Qed.

Lemma handleRedo_history (s : State) :
  editHistory (handleRedo s) = editHistory s.
Proof.
  unfold handleRedo. destruct (_ <? _)%Z; [|reflexivity].
  now destruct (nth_error _ _).
Qed.

Lemma play_first (init : string) (acts : list Action) :
  nth_error (editHistory (play init acts)) 0 = Some init.
Proof.
  unfold play.
  assert (F : nth_error (editHistory (mount init)) 0 = Some init) by reflexivity.
  revert F. generalize (mount init).
  induction acts as [|a acts IH]; intros s F; [exact F|].
  change (fold_left (fun s a => act a s) (a :: acts) s)
    with (fold_left (fun s a => act a s) acts (act a s)).
  apply IH. destruct a; unfold act.
  - destruct (handleChange_first newCode s) as [E|E]; [congruence|].
    rewrite E in F. discriminate.
  - now rewrite handleUndo_history.
  - now rewrite handleRedo_history.
Qed.

Lemma handleUndo_step (s : State) (k : nat) :
  wf s -> historyPtr s = S k ->
  historyPtr (handleUndo s) = k /\ wf (handleUndo s).
Proof.
  intros W P. split; [|now apply handleUndo_wf].
  unfold handleUndo. rewrite P. simpl. rewrite Nat.sub_0_r.
  now destruct (nth_error _ _).
Qed.

Lemma undoTimes_reaches_zero (k : nat) :
  forall s, wf s -> historyPtr s = k ->
            historyPtr (undoTimes k s) = 0
            /\ wf (undoTimes k s)
            /\ editHistory (undoTimes k s) = editHistory s.
Proof.
  induction k as [|k IH]; intros s W P.
  - now repeat split.
  - destruct (handleUndo_step s k W P) as [P' W'].
    destruct (IH (handleUndo s) W' P') as (Z & W2 & H).
    unfold undoTimes in *. rewrite Nat.iter_succ_r.
    rewrite handleUndo_history in H. now repeat split.
Qed.

End HistoryFacts.

(** X4. Whatever the user types, undoes and redoes after a file is
    opened, the history pointer is a valid index, the entry under it is the
    content on display, and the first entry is still the content the file
    was opened with. *)
Theorem edit_history_invariant :
  forall (init : string) (acts : list Editor.Action),
    let s := Editor.play init acts in
    Editor.historyPtr s < length (Editor.editHistory s)
    /\ nth_error (Editor.editHistory s) (Editor.historyPtr s) = Some (Editor.code s)
    /\ nth_error (Editor.editHistory s) 0 = Some init.
Proof.
  intros init acts s. pose proof (play_wf init acts) as W.
  split; [now apply wf_in_range|]. split; [exact W | apply play_first].
Qed.

(** X5. Typing a content that differs from the snapshot under the pointer
    discards the redo branch: right after it, redo changes nothing, in
    whatever state the edit was made. *)
Theorem typing_discards_redo :
  forall (s : Editor.State) (x : string),
    Editor.differs x s = true ->
    Editor.handleRedo (Editor.handleChange x s) = Editor.handleChange x s.
Proof.
  intros s x D. apply redo_at_tail.
  unfold Editor.at_tail, Editor.handleChange. rewrite D. simpl.
  rewrite length_app. simpl. lia.
Qed.

Lemma typing_discards_redo_witness :
  let s := Editor.play "a" [Editor.Type_ "b"; Editor.Type_ "c"; Editor.Undo] in
  Editor.editHistory (Editor.handleRedo (Editor.handleChange "x" s))
  = ["a"; "b"; "x"]%string.
Proof.
  intros s.
  rewrite (typing_discards_redo s "x" eq_refl). reflexivity.
Defined.

(** X6. From any state reached after opening a file, pressing undo as
    many times as the pointer says brings back the content the file was
    opened with, keeps the whole history for redo, and one more undo changes
    nothing. *)
Theorem undo_reaches_opening_content :
  forall (init : string) (acts : list Editor.Action),
    let s := Editor.play init acts in
    let s0 := undoTimes (Editor.historyPtr s) s in
    Editor.code s0 = init
    /\ Editor.historyPtr s0 = 0
    /\ Editor.editHistory s0 = Editor.editHistory s
    /\ Editor.handleUndo s0 = s0.
Proof.
  intros init acts s s0.
  destruct (undoTimes_reaches_zero (Editor.historyPtr s) s (play_wf init acts) eq_refl)
    as (Z & W & H).
  fold s0 in Z, W, H.
  split; [|split; [exact Z|split; [exact H | now apply undo_at_zero]]].
  pose proof (play_first init acts) as F. fold s in F.
  unfold Editor.wf in W. rewrite Z, H, F in W.
  now injection W.
Qed.

(** ** Repository ingestion: coordinates, fallback, bounds *)

Section UrlFacts.

Lemma includes_char (sep : ascii) (s : string) :
  Js.includes s (String sep "")
  = negb (Js.allChars (fun x => negb (Ascii.eqb x sep)) s).
Proof.
  induction s as [|c s IH]; simpl; [reflexivity|].
  rewrite IH, (Ascii.eqb_sym sep c).
  destruct (Ascii.eqb c sep); simpl; [reflexivity|].
  now destruct (Js.allChars _ s).
Qed.

Lemma split_one_piece (sep : ascii) (s : string) :
  Js.includes s (String sep "") = false -> Js.split sep s = [s].
Proof.
  induction s as [|c s IH]; simpl; [reflexivity|].
  rewrite Ascii.eqb_sym.
  destruct (Ascii.eqb c sep); simpl; [discriminate|].
  intros H. now rewrite (IH H).
Qed.

Lemma split_piece_clean (sep : ascii) (s p : string) :
  In p (Js.split sep s) -> Js.includes p (String sep "") = false.
Proof.
  destruct (split_pieces sep s) as (pieces & lastPiece & E & _ & F).
  rewrite E. intros I. rewrite Forall_forall in F.
  rewrite includes_char, (F p I). reflexivity.
Qed.

End UrlFacts.

(** X7. When [parseGithubUrl] returns coordinates, owner and repository
    name are non-empty, hold no slash and are the first two non-empty
    segments of the path of the URL. Conversely every URL whose path
    starts with a non-empty owner segment and a non-empty repository
    segment is accepted with these two, whatever follows them and
    whatever the host. *)
Theorem parsed_coordinates :
  forall (pathnameOf : string -> option string) (url : string),
    (forall owner repo,
        Github.parseGithubUrl pathnameOf url = Some (owner, repo) ->
        owner <> ""%string /\ repo <> ""%string
        /\ Js.includes owner "/" = false /\ Js.includes repo "/" = false
        /\ exists pathname rest,
             pathnameOf url = Some pathname
             /\ filter Js.truthy (Js.split "/" pathname) = owner :: repo :: rest)
    /\ (forall owner repo rest,
          owner <> ""%string -> repo <> ""%string ->
          Js.includes owner "/" = false -> Js.includes repo "/" = false ->
          rest = ""%string \/ (exists t, rest = String "/" t) ->
          pathnameOf url
          = Some (String "/" (owner ++ String "/" (repo ++ rest)))%string ->
          Github.parseGithubUrl pathnameOf url = Some (owner, repo)).
Proof.
  intros pathnameOf url. unfold Github.parseGithubUrl. split.
  - intros owner repo H.
    destruct (pathnameOf url) as [pathname|]; [|discriminate].
    destruct (filter Js.truthy (Js.split "/" pathname)) as [|o [|r rest]] eqn:E;
      try discriminate.
    injection H as -> ->.
    assert (Io : In owner (filter Js.truthy (Js.split "/" pathname)))
      by (rewrite E; now left).
    assert (Ir : In repo (filter Js.truthy (Js.split "/" pathname)))
      by (rewrite E; right; now left).
    apply filter_In in Io as [Io To]. apply filter_In in Ir as [Ir Tr].
    split; [now destruct owner|]. split; [now destruct repo|].
    split; [now apply (split_piece_clean "/" pathname)|].
    split; [now apply (split_piece_clean "/" pathname)|].
    now exists pathname, rest.
  - intros owner repo rest No Nr So Sr R ->.
    simpl. rewrite split_app_sep, (split_one_piece "/" owner So).
    simpl. destruct owner as [|a owner]; [contradiction|]. simpl.
    destruct R as [->|[t ->]].
    + rewrite append_nil_r, (split_one_piece "/" repo Sr). simpl.
      now destruct repo.
    + rewrite split_app_sep, (split_one_piece "/" repo Sr). simpl.
      now destruct repo.
Qed.

Lemma parsed_coordinates_witness :
  Github.parseGithubUrl sample_pathname "https://github.com/octo/demo/tree/main"
  = Some ("octo", "demo")%string
  /\ Github.parseGithubUrl sample_pathname "https://github.com/octo" = None.
Proof.
  split; [|reflexivity].
  apply (proj2 (parsed_coordinates sample_pathname
                  "https://github.com/octo/demo/tree/main")
           "octo" "demo" "/tree/main")%string;
    try discriminate; try reflexivity.
  right. now eexists.
Defined.

Section MorePoolFacts.

Import Github.

Variable w : World.
Variables owner repo defaultBranch : string.

Local Abbreviation resume_task := (resume_task w owner repo defaultBranch).
Local Abbreviation resume := (resume w owner repo defaultBranch).
Local Abbreviation run := (run w owner repo defaultBranch).
Local Abbreviation settle := (settle w owner repo defaultBranch).
Local Abbreviation settle_in := (settle_in w owner repo defaultBranch).
Local Abbreviation start := (start owner repo defaultBranch).
Local Abbreviation fetchOne := (fetchOne w owner repo defaultBranch).
Local Abbreviation fetchAll := (fetchAll w owner repo defaultBranch).
Local Abbreviation inTreeOrder := (inTreeOrder w owner repo defaultBranch).
Local Abbreviation cost := (Github.cost w owner repo defaultBranch).

Ltac one_step' :=
  simpl;
  repeat match goal with
    | |- context [match fetch ?w ?u with _ => _ end] =>
        destruct (fetch w u) eqn:?; simpl
    | |- context [if ok ?r then _ else _] => destruct (ok r) eqn:?; simpl
    | |- context [match json ?r with _ => _ end] =>
        destruct (json r) as [[]|] eqn:?; simpl
    | |- context [match atob ?w ?s with _ => _ end] =>
        destruct (atob w s) eqn:?; simpl
    end.

(** Only the first resumption of a callback can issue a request (the
    fallback to the blob API), and it issues at most one. *)
Lemma resume_task_urls (t : Task) :
  length (snd (resume_task t)) <= 1
  /\ phase (fst (fst (resume_task t))) <> AwaitRaw
  /\ (phase t <> AwaitRaw -> snd (resume_task t) = []).
Proof.
  destruct t as [it ph]. unfold Github.resume_task.
  destruct ph; one_step'; repeat split; (lia || congruence || discriminate).
Qed.

Lemma settle_in_quiet (n : nat) :
  forall t, phase t <> AwaitRaw -> snd (settle_in n t) = [].
Proof.
  induction n as [|n IH]; intros t P; simpl; [reflexivity|].
  destruct (resume_task_urls t) as (_ & P' & Q). specialize (Q P).
  destruct (resume_task t) as [[t' out] urls]. simpl in *.
  specialize (IH t' P').
  destruct (Github.settle_in w owner repo defaultBranch n t') as [outs urls'].
  simpl in *. now subst.
Qed.

Lemma settle_in_urls (n : nat) (t : Task) : length (snd (settle_in n t)) <= 1.
Proof.
  destruct n as [|n]; simpl; [lia|].
  destruct (resume_task_urls t) as (L & P' & _).
  destruct (resume_task t) as [[t' out] urls]. simpl in *.
  pose proof (settle_in_quiet n t' P') as Q.
  destruct (Github.settle_in w owner repo defaultBranch n t') as [outs urls'].
  simpl in *. subst. now rewrite app_nil_r.
Qed.

Lemma settle_resume_urls (t : Task) :
  snd (settle t)
  = snd (resume_task t) ++ snd (settle (fst (fst (resume_task t)))).
Proof.
  unfold Github.settle.
  pose proof (steps_left_resume w owner repo defaultBranch t) as D.
  pose proof (steps_left_bound t) as B.
  rewrite (settle_in_enough w owner repo defaultBranch 2
             (fst (fst (resume_task t)))) by lia.
  simpl. destruct (resume_task t) as [[t' out] urls]. simpl.
  destruct (Github.resume_task w owner repo defaultBranch t') as [[t'' out'] urls'].
  destruct (Github.resume_task w owner repo defaultBranch t'') as [[t3 out3] urls3].
  reflexivity.
Qed.

Lemma resume_cost (i : nat) (p : Pool) : cost (resume i p) = cost p.
Proof.
  unfold cost, Github.resume.
  destruct (nth_error (tasks p) i) as [t|] eqn:N; [|reflexivity].
  pose proof (settle_resume_urls t) as E.
  destruct (resume_task t) as [[t' out] urls]. simpl in *.
  pose proof (flat_map_set_nth (fun t => snd (settle t)) t' urls (tasks p) i t N E)
    as P.
  apply Permutation_length in P. rewrite length_app in *. lia.
Qed.

Lemma run_cost (schedule : list nat) : forall p, cost (run schedule p) = cost p.
Proof.
  induction schedule as [|i schedule IH]; intros p; simpl; [reflexivity|].
  now rewrite IH, resume_cost.
Qed.

Lemma fetchAll_requests (schedule : list nat) (files : list GithubTreeItem) :
  length (requests (fetchAll schedule files)) <= 2 * length files.
Proof.
  change (length (requests (fetchAll schedule files)))
    with (length (requests (run schedule (start files))
                  ++ flat_map (fun t => snd (settle t))
                       (tasks (run schedule (start files))))).
  rewrite length_app. fold (cost (run schedule (start files))).
  rewrite run_cost. unfold cost, Github.start. simpl. rewrite length_map.
  assert (L : length (flat_map (fun t => snd (settle t))
                        (map (fun it => mkTask it AwaitRaw) files))
              <= length files).
  { induction files as [|it files IH]; cbn [map flat_map length]; [lia|].
    rewrite length_app.
    pose proof (settle_in_urls 3 (mkTask it AwaitRaw)) as S1.
    fold (settle (mkTask it AwaitRaw)) in S1. lia. }
  lia.
Qed.

Lemma inTreeOrder_length (files : list GithubTreeItem) :
  length (inTreeOrder files) <= length files.
Proof.
  unfold Github.inTreeOrder. induction files as [|it files IH]; simpl; [lia|].
  rewrite length_app. destruct (fetchOne it); simpl; lia.
Qed.

Lemma inTreeOrder_in (files : list GithubTreeItem) (it : GithubTreeItem)
    (f : FileData.t) :
  In it files -> fetchOne it = Some f -> In f (inTreeOrder files).
Proof.
  intros I E. unfold Github.inTreeOrder. apply in_flat_map.
  exists it. split; [exact I|]. rewrite E. now left.
Qed.

(** The fallback path, step by step. *)
Lemma fetchOne_fallback (it : GithubTreeItem) (res : Response)
    (payload content : string) :
  (fetch w (rawUrl owner repo defaultBranch it) = Rejected
   \/ exists rawRes,
        fetch w (rawUrl owner repo defaultBranch it) = Resolved rawRes
        /\ ok rawRes = false) ->
  fetch w (url it) = Resolved res ->
  ok res = true ->
  json res = Some (JBlob payload) ->
  atob w (Js.stripNewlines payload) = Some content ->
  fetchOne it = pushed it content.
Proof.
  intros R F O J A.
  assert (R1 : resume_task (mkTask it AwaitRaw) = (mkTask it AwaitApi, None, [url it])).
  { unfold Github.resume_task. simpl.
    destruct R as [->|(rawRes & -> & ->)]; reflexivity. }
  assert (R2 : resume_task (mkTask it AwaitApi)
               = (mkTask it (AwaitApiJson res), None, [])).
  { unfold Github.resume_task. simpl. now rewrite F, O. }
  assert (R3 : resume_task (mkTask it (AwaitApiJson res))
               = (mkTask it Settled, pushed it content, [])).
  { unfold Github.resume_task. simpl. now rewrite J, A. }
  unfold Github.fetchOne, Github.settle. simpl. rewrite R1, R2, R3. simpl.
  now destruct (pushed it content).
Qed.

Lemma fetchOne_unreachable (it : GithubTreeItem) :
  failed (fetch w (rawUrl owner repo defaultBranch it)) = true ->
  failed (fetch w (url it)) = true ->
  fetchOne it = None.
Proof.
  intros F1 F2.
  assert (R1 : resume_task (mkTask it AwaitRaw) = (mkTask it AwaitApi, None, [url it])).
  { unfold Github.resume_task. simpl.
    destruct (fetch w (rawUrl owner repo defaultBranch it)) as [|rawRes];
      [reflexivity|].
    simpl in F1. apply negb_true_iff in F1. now rewrite F1. }
  assert (R2 : resume_task (mkTask it AwaitApi) = (mkTask it Settled, None, [])).
  { unfold Github.resume_task. simpl.
    destruct (fetch w (url it)) as [|apiRes]; [reflexivity|].
    simpl in F2. apply negb_true_iff in F2. now rewrite F2. }
  unfold Github.fetchOne, Github.settle. simpl. now rewrite R1, R2.
Qed.

End MorePoolFacts.

(** X8. A selected entry whose raw fetch fails (rejected, or answered
    with a non-success status) and whose blob request succeeds with a JSON
    document carrying a payload that [atob] decodes, after the newlines are
    stripped, to a non-empty text, is in the result with its decoded
    content, whatever the order in which the responses arrive. *)
Theorem fallback_file_is_fetched :
  forall (w : Github.World) (owner repo defaultBranch : string)
         (schedule : list nat) (files : list Github.GithubTreeItem)
         (it : Github.GithubTreeItem) (res : Github.Response)
         (payload content : string),
    In it files ->
    (Github.fetch w (Github.rawUrl owner repo defaultBranch it) = Github.Rejected
     \/ exists rawRes,
          Github.fetch w (Github.rawUrl owner repo defaultBranch it)
          = Github.Resolved rawRes
          /\ Github.ok rawRes = false) ->
    Github.fetch w (Github.url it) = Github.Resolved res ->
    Github.ok res = true ->
    Github.json res = Some (Github.JBlob payload) ->
    Github.atob w (Js.stripNewlines payload) = Some content ->
    content <> ""%string ->
    In (Github.fileRecord it content)
       (Github.fetchedFiles
          (Github.fetchAll w owner repo defaultBranch schedule files))
    /\ FileData.content (Github.fileRecord it content) = content.
Proof.
  intros w owner repo defaultBranch schedule files it res payload content
    I R F O J A N.
  split; [|reflexivity].
  eapply Permutation_in;
    [apply Permutation_sym, fetchAll_permutation|].
  apply (inTreeOrder_in w owner repo defaultBranch files it); [exact I|].
  rewrite (fetchOne_fallback w owner repo defaultBranch it res payload content
             R F O J A).
  unfold Github.pushed. now destruct content.
Qed.

Lemma fallback_file_is_fetched_witness :
  snd (Github.fetchGithubRepo fallback_world [] "o" "r" [])
  = inr [ FileData.mk "sha-lib.js" "lib.js" "lib.js" "a" "js"
            None None None None None None ]
  /\ In (Github.fileRecord (entry "lib.js" Github.blob) "a")
        (Github.fetchedFiles
           (Github.fetchAll fallback_world "o" "r" "main" [0; 0]
              [entry "lib.js" Github.blob])).
Proof.
  split; [reflexivity|].
  apply (fallback_file_is_fetched fallback_world "o" "r" "main" [0; 0]
           [entry "lib.js" Github.blob] (entry "lib.js" Github.blob)
           (json_ok (Github.JBlob (String "Y" (String "Q" (String "010" "==")))))
           (String "Y" (String "Q" (String "010" "=="))) "a").
  - now left.
  - now left.
  - reflexivity.
  - reflexivity.
  - reflexivity.
  - reflexivity.
  - discriminate.
Defined.

Section PipelineFacts.

Import Github.

Variable w : World.
Variable schedule : list nat.
Variables owner repo : string.

(** The run of the pipeline once both listings are obtained and an entry
    survives the filter. *)
Lemma fetchGithubRepo_step4 (res res' : Response) (repoData : Json)
    (entries : list GithubTreeItem) :
  fetch w (repoUrl owner repo) = Resolved res ->
  ok res = true ->
  json res = Some repoData ->
  fetch w (treeUrl owner repo (default_branch_of repoData)) = Resolved res' ->
  ok res' = true ->
  json res' = Some (JTree entries) ->
  survivors entries <> [] ->
  let p := fetchAll w owner repo (default_branch_of repoData) schedule
             (filesToFetch entries) in
  fetchGithubRepo w schedule owner repo []
  = ([repoUrl owner repo; treeUrl owner repo (default_branch_of repoData)]
       ++ requests p,
     inr (fetchedFiles p)).
Proof.
  intros F1 O1 J1 F2 O2 J2 N p.
  unfold fetchGithubRepo, bind, await_fetch, await_json, throw, ret, issued.
  rewrite F1, O1. simpl. rewrite J1. simpl. rewrite F2, O2. simpl.
  rewrite J2. simpl.
  destruct (filesToFetch entries) as [|it files] eqn:E.
  - apply filesToFetch_nil in E. contradiction.
  - reflexivity.
Qed.

Lemma fetchGithubRepo_returns (log : list string) (files : list FileData.t) :
  fetchGithubRepo w schedule owner repo [] = (log, inr files) ->
  exists res repoData res' entries,
    fetch w (repoUrl owner repo) = Resolved res
    /\ ok res = true
    /\ json res = Some repoData
    /\ fetch w (treeUrl owner repo (default_branch_of repoData)) = Resolved res'
    /\ ok res' = true
    /\ json res' = Some (JTree entries)
    /\ survivors entries <> []
    /\ log = [repoUrl owner repo; treeUrl owner repo (default_branch_of repoData)]
             ++ requests (fetchAll w owner repo (default_branch_of repoData)
                            schedule (filesToFetch entries))
    /\ files = fetchedFiles (fetchAll w owner repo (default_branch_of repoData)
                               schedule (filesToFetch entries)).
Proof.
  unfold fetchGithubRepo, bind, await_fetch, await_json, throw, ret, issued.
  destruct (fetch w (repoUrl owner repo)) as [|res] eqn:F1; [discriminate|].
  destruct (ok res) eqn:O1; simpl; [|discriminate].
  destruct (json res) as [repoData|] eqn:J1; simpl; [|discriminate].
  destruct (fetch w (treeUrl _ _ _)) as [|res'] eqn:F2; [discriminate|].
  destruct (ok res') eqn:O2; simpl; [|discriminate].
  destruct (json res') as [[b|entries|c|]|] eqn:J2; simpl; try discriminate.
  destruct (filesToFetch entries) as [|it files'] eqn:E; [discriminate|].
  intros H. injection H as <- <-. exists res, repoData, res', entries.
  rewrite E. repeat split; try assumption.
  intros S. apply filesToFetch_nil in S. congruence.
Qed.

End PipelineFacts.

(** X9. The import returns a list exactly when the repository lookup and
    the tree listing succeed and at least one entry survives the filter:
    no failure of a file request makes it throw. When every file request
    fails (for each selected entry of the listed tree, the raw request and
    the blob request are each rejected or answered with a non-success
    status), the list is empty, and the import handler still creates a
    project, with no file and no active file. *)
Theorem import_survives_file_failures :
  forall (w : Github.World) (schedule : list nat) (owner repo : string),
    let out := Github.fetchGithubRepo w schedule owner repo [] in
    ((exists files, snd out = inr files)
     <-> exists res repoData res' entries,
           Github.fetch w (Github.repoUrl owner repo) = Github.Resolved res
           /\ Github.ok res = true
           /\ Github.json res = Some repoData
           /\ Github.fetch w (Github.treeUrl owner repo
                                (Github.default_branch_of repoData))
              = Github.Resolved res'
           /\ Github.ok res' = true
           /\ Github.json res' = Some (Github.JTree entries)
           /\ survivors entries <> [])
    /\ (forall res repoData res' entries,
          Github.fetch w (Github.repoUrl owner repo) = Github.Resolved res ->
          Github.ok res = true ->
          Github.json res = Some repoData ->
          Github.fetch w (Github.treeUrl owner repo
                            (Github.default_branch_of repoData))
          = Github.Resolved res' ->
          Github.ok res' = true ->
          Github.json res' = Some (Github.JTree entries) ->
          survivors entries <> [] ->
          contents_unreachable w owner repo (Github.default_branch_of repoData)
            (Github.filesToFetch entries) ->
          snd out = inr []
          /\ forall env githubUrl st,
               let st' := App.handleGithubImport env w schedule owner repo
                            githubUrl st in
               App.projects st'
               = Project.mk (App.project_id env) (owner ++ "/" ++ repo)
                   (App.created_at env) [] None None (Some githubUrl)
                 :: App.projects st
               /\ App.activeFile st' = None).
Proof.
  intros w schedule owner repo out. split.
  - split.
    + intros [files H]. unfold out in H.
      destruct (Github.fetchGithubRepo w schedule owner repo []) as [log r] eqn:E.
      simpl in H. subst r.
      apply fetchGithubRepo_returns in E
        as (res & repoData & res' & entries & F1 & O1 & J1 & F2 & O2 & J2 & N & _).
      now exists res, repoData, res', entries.
    + intros (res & repoData & res' & entries & F1 & O1 & J1 & F2 & O2 & J2 & N).
      unfold out.
      rewrite (fetchGithubRepo_step4 w schedule owner repo res res' repoData
                 entries F1 O1 J1 F2 O2 J2 N).
      now eexists.
  - intros res repoData res' entries F1 O1 J1 F2 O2 J2 N U.
    assert (Z : Github.fetchedFiles
                  (Github.fetchAll w owner repo (Github.default_branch_of repoData)
                     schedule (Github.filesToFetch entries)) = []).
    { apply Permutation_nil, Permutation_sym.
      eapply Permutation_trans; [apply fetchAll_permutation|].
      revert U. generalize (Github.filesToFetch entries). intros l U.
      unfold Github.inTreeOrder.
      induction l as [|it l IH]; simpl; [apply Permutation_refl|].
      destruct (U it (or_introl eq_refl)) as [R1 R2].
      rewrite (fetchOne_unreachable w owner repo _ it R1 R2). simpl.
      apply IH. intros it' I'. apply U. now right. }
    assert (E : snd out = inr []).
    { unfold out.
      rewrite (fetchGithubRepo_step4 w schedule owner repo res res' repoData
                 entries F1 O1 J1 F2 O2 J2 N).
      cbn [snd]. now rewrite Z. }
    split; [exact E|].
    intros env githubUrl st st'. unfold st', App.handleGithubImport.
    fold out. rewrite E. unfold App.createProject. simpl.
    split; [reflexivity|].
    unfold App.activeFile, App.currentProject. simpl.
    now rewrite String.eqb_refl.
Qed.

Lemma import_survives_file_failures_witness :
  snd (Github.fetchGithubRepo unreachable_world [1; 0] "o" "r" []) = inr []
  /\ App.projects
       (App.handleGithubImport sample_create_env unreachable_world [1; 0] "o" "r"
          "https://github.com/o/r" archived_state)
     = Project.mk "p9" "o/r" 5 [] None None (Some "https://github.com/o/r")
       :: App.projects archived_state.
Proof.
  destruct (import_survives_file_failures unreachable_world [1; 0] "o" "r")
    as [_ H].
  destruct (H (json_ok (Github.JRepo "main")) (Github.JRepo "main")
              (json_ok (Github.JTree [entry "a.js" Github.blob;
                                      entry "b.js" Github.blob]))
              [entry "a.js" Github.blob; entry "b.js" Github.blob]
              eq_refl eq_refl eq_refl eq_refl eq_refl eq_refl) as [E P].
  - discriminate.
  - intros it [<-|[<-|[]]]; split; reflexivity.
  - split; [exact E|].
    apply (P sample_create_env "https://github.com/o/r"%string archived_state).
Defined.

Section RecordFacts.

Import Github.

Lemma failure_log (w : World) (schedule : list nat) (owner repo : string)
    (e : Error) :
  snd (fetchGithubRepo w schedule owner repo []) = inl e ->
  length (fst (fetchGithubRepo w schedule owner repo [])) <= 2.
Proof.
  unfold fetchGithubRepo, bind, await_fetch, await_json, throw, ret, issued.
  split_pipeline; intros H; try discriminate; simpl; lia.
Qed.

Lemma fetchOne_some (w : World) (owner repo defaultBranch : string)
    (it : GithubTreeItem) (f : FileData.t) :
  fetchOne w owner repo defaultBranch it = Some f ->
  exists c, f = fileRecord it c /\ c <> ""%string.
Proof.
  intros E.
  apply (settle_out w owner repo defaultBranch (mkTask it AwaitRaw) f).
  rewrite settle_start, E. now left.
Qed.

(** The name of a record against the path of its entry. *)
Lemma fileRecord_name (it : GithubTreeItem) (c : string) :
  exists dir,
    path it = (dir ++ FileData.name (fileRecord it c))%string
    /\ (Js.includes (FileData.name (fileRecord it c)) "/" = false
        \/ FileData.name (fileRecord it c) = path it).
Proof.
  unfold fileRecord. simpl.
  destruct (split_pieces "/" (path it)) as (pieces & lastPiece & E & T & F).
  rewrite E, pop_snoc. simpl.
  destruct (Js.truthy lastPiece) eqn:Tr.
  - eexists. split; [exact T|]. left.
    apply (split_piece_clean "/" (path it)). rewrite E.
    apply in_or_app. right. now left.
  - exists ""%string. split; [reflexivity | now right].
Qed.

Lemma NoDup_map_filter {A B : Type} (g : A -> B) (f : A -> bool) (l : list A) :
  NoDup (map g l) -> NoDup (map g (filter f l)).
Proof.
  induction l as [|x l IH]; simpl; [easy|].
  intros N. inversion N as [|? ? Nx Nl]; subst.
  destruct (f x); simpl; [|now apply IH].
  constructor; [|now apply IH].
  intros I. apply Nx. apply in_map_iff in I as (y & <- & Iy).
  apply filter_In in Iy as [Iy _]. now apply in_map.
Qed.

Lemma NoDup_map_firstn {A B : Type} (g : A -> B) (n : nat) (l : list A) :
  NoDup (map g l) -> NoDup (map g (firstn n l)).
Proof.
  revert l. induction n as [|n IH]; intros l; simpl; [constructor|].
  destruct l as [|x l]; simpl; [easy|].
  intros N. inversion N as [|? ? Nx Nl]; subst.
  constructor; [|now apply IH].
  intros I. apply Nx. apply in_map_iff in I as (y & <- & Iy).
  apply in_map. rewrite <- (firstn_skipn n l). apply in_or_app. now left.
Qed.

Lemma inTreeOrder_NoDup (w : World) (owner repo defaultBranch : string)
    (files : list GithubTreeItem) :
  NoDup (map path files) ->
  NoDup (map FileData.path (inTreeOrder w owner repo defaultBranch files)).
Proof.
  unfold inTreeOrder. induction files as [|it files IH]; simpl; [constructor|].
  intros N. inversion N as [|? ? Nx Nl]; subst.
  destruct (fetchOne w owner repo defaultBranch it) as [f|] eqn:E; simpl;
    [|now apply IH].
  constructor; [|now apply IH].
  apply fetchOne_some in E as (c & -> & _). simpl.
  intros I. apply Nx. apply in_map_iff in I as (g & Eg & Ig).
  apply inTreeOrder_from in Ig as (it' & c' & I' & -> & _). simpl in Eg.
  rewrite <- Eg. now apply in_map.
Qed.

End RecordFacts.

(** X10. Whatever the repository holds and whatever fails, one import
    makes at most 62 requests (the lookup, the listing, and for each of at
    most 30 entries one raw request and at most one blob request) and
    returns at most 30 records. *)
Theorem ingestion_bounds :
  forall (w : Github.World) (schedule : list nat) (owner repo : string),
    let out := Github.fetchGithubRepo w schedule owner repo [] in
    length (fst out) <= 62
    /\ forall files, snd out = inr files -> length files <= 30.
Proof.
  intros w schedule owner repo out. unfold out.
  destruct (Github.fetchGithubRepo w schedule owner repo []) as [log [e|files]] eqn:E.
  - split; [|discriminate].
    pose proof (failure_log w schedule owner repo e) as L.
    rewrite E in L. specialize (L eq_refl). simpl in *. lia.
  - apply fetchGithubRepo_returns in E
      as (res & repoData & res' & entries & _ & _ & _ & _ & _ & _ & _ & -> & ->).
    assert (B : length (Github.filesToFetch entries) <= 30).
    { rewrite filesToFetch_survivors, length_firstn. lia. }
    split.
    + cbn [fst]. rewrite length_app. cbn [length].
      pose proof (fetchAll_requests w owner repo (Github.default_branch_of repoData)
                    schedule (Github.filesToFetch entries)).
      lia.
    + intros files H. cbn [snd] in H. injection H as <-.
      eapply Nat.le_trans;
        [apply Nat.eq_le_incl, Permutation_length, fetchAll_permutation|].
      eapply Nat.le_trans; [apply inTreeOrder_length | exact B].
Qed.

Lemma ingestion_bounds_witness :
  length (fst (Github.fetchGithubRepo two_files [1; 1; 0; 0] "o" "r" [])) = 4
  /\ forall files,
       snd (Github.fetchGithubRepo two_files [1; 1; 0; 0] "o" "r" []) = inr files ->
       length files <= 30.
Proof.
  split; [reflexivity|].
  apply (proj2 (ingestion_bounds two_files [1; 1; 0; 0] "o" "r")).
Defined.

(** X11. Every record the import returns is built from an entry of the
    tree that the listing request returned, one of the first 30 entries
    that are blobs and whose path holds none of the ignored strings: its id
    is the hash of that entry, its path the path of the entry, its name the
    part of the path after the last slash (the whole path when that part
    is empty), its language the extension computed from the path, its
    content is not empty, and every optional field is absent. *)
Theorem records_come_from_selected_blobs :
  forall (w : Github.World) (schedule : list nat) (owner repo : string)
         (log : list string) (files : list FileData.t)
         (res res' : Github.Response) (repoData : Github.Json)
         (entries : list Github.GithubTreeItem) (f : FileData.t),
    Github.fetchGithubRepo w schedule owner repo [] = (log, inr files) ->
    Github.fetch w (Github.repoUrl owner repo) = Github.Resolved res ->
    Github.json res = Some repoData ->
    Github.fetch w (Github.treeUrl owner repo (Github.default_branch_of repoData))
    = Github.Resolved res' ->
    Github.json res' = Some (Github.JTree entries) ->
    In f files ->
    exists it,
      In it entries
      /\ In it (firstn 30 (survivors entries))
      /\ Github.type it = Github.blob
      /\ (forall ignored, In ignored Github.IGNORED_PATHS ->
                          ~ occurs_in ignored (Github.path it))
      /\ f = FileData.mk (Github.sha it) (FileData.name f) (Github.path it)
               (FileData.content f) (Github.extension it)
               None None None None None None
      /\ FileData.content f <> ""%string
      /\ (exists dir, Github.path it = (dir ++ FileData.name f)%string)
      /\ (Js.includes (FileData.name f) "/" = false
          \/ FileData.name f = Github.path it).
Proof.
  intros w schedule owner repo log files res res' repoData entries f
    H F1 J1 F2 J2 I.
  apply fetchGithubRepo_returns in H
    as (res0 & repoData0 & res0' & entries0
        & G1 & _ & K1 & G2 & _ & K2 & _ & _ & ->).
  rewrite F1 in G1. injection G1 as <-.
  rewrite J1 in K1. injection K1 as <-.
  rewrite F2 in G2. injection G2 as <-.
  rewrite J2 in K2. injection K2 as <-.
  apply fetchAll_from in I as (it & c & Iit & -> & N).
  rewrite filesToFetch_survivors in Iit.
  assert (S : In it (survivors entries)).
  { rewrite <- (firstn_skipn 30 (survivors entries)).
    apply in_or_app. now left. }
  unfold survivors in S. apply filter_In in S as [Ie K].
  apply andb_true_iff in K as [Kb Kn].
  exists it. split; [exact Ie|]. split; [exact Iit|].
  split; [unfold Github.is_blob in Kb; now destruct (Github.type it)|].
  split; [now apply not_ignored_spec|].
  split; [reflexivity|].
  split; [exact N|].
  destruct (fileRecord_name it c) as (dir & P & Q).
  split; [now exists dir | exact Q].
Qed.

Lemma records_come_from_selected_blobs_witness :
  exists it,
    In it [entry "a.js" Github.blob; entry "b.js" Github.blob]
    /\ Github.sha it = "sha-b.js"%string
    /\ Github.path it = "b.js"%string.
Proof.
  destruct (Github.fetchGithubRepo two_files [1; 1; 0; 0] "o" "r" [])
    as [log [e|files]] eqn:E.
  - vm_compute in E. discriminate.
  - assert (I : In (Github.fileRecord (entry "b.js" Github.blob) "B") files).
    { vm_compute in E. injection E as _ <-. now left. }
    destruct (records_come_from_selected_blobs two_files [1; 1; 0; 0] "o" "r"
                log files (json_ok (Github.JRepo "main"))
                (json_ok (Github.JTree [entry "a.js" Github.blob;
                                        entry "b.js" Github.blob]))
                (Github.JRepo "main")
                [entry "a.js" Github.blob; entry "b.js" Github.blob]
                _ E eq_refl eq_refl eq_refl eq_refl I)
      as (it & Ie & _ & _ & _ & F & _).
    exists it. split; [exact Ie|].
    unfold Github.fileRecord in F. simpl in F.
    injection F as F1 F2 _. now split.
Defined.

(** X12. When no two entries of the tree have the same path, no two
    returned records have the same path: an entry is never reported
    twice, whatever the order in which the responses arrive. *)
Theorem no_duplicate_records :
  forall (w : Github.World) (owner repo defaultBranch : string)
         (schedule : list nat) (entries : list Github.GithubTreeItem),
    NoDup (map Github.path entries) ->
    NoDup (map FileData.path
             (Github.fetchedFiles
                (Github.fetchAll w owner repo defaultBranch schedule
                   (Github.filesToFetch entries)))).
Proof.
  intros w owner repo defaultBranch schedule entries N.
  eapply Permutation_NoDup.
  - apply Permutation_map, Permutation_sym, fetchAll_permutation.
  - apply inTreeOrder_NoDup. unfold Github.filesToFetch.
    now apply NoDup_map_firstn, NoDup_map_filter, NoDup_map_filter.
Qed.

Lemma no_duplicate_records_witness :
  NoDup (map FileData.path
           (Github.fetchedFiles
              (Github.fetchAll two_files "o" "r" "main" [1; 1; 0; 0]
                 (Github.filesToFetch
                    [entry "a.js" Github.blob; entry "b.js" Github.blob])))).
Proof.
  apply no_duplicate_records.
  repeat constructor; simpl; intuition discriminate.
Defined.

(** ** The model's answer *)

Section FenceFacts.

Import Gemini.

Lemma dropLetters_tag (tag rest : string) (c : ascii) :
  Js.allChars Js.isLetter tag = true ->
  Js.isLetter c = false ->
  dropLetters (tag ++ String c rest) = String c rest.
Proof.
  intros T C. induction tag as [|x tag IH]; simpl in *.
  - now rewrite C.
  - apply andb_true_iff in T as [Tx T]. rewrite Tx. now apply IH.
Qed.

Lemma startsWith_app (t rest : string) : Js.startsWith (t ++ rest) t = true.
Proof. apply startsWith_spec. now exists rest. Qed.

Lemma dropPrefix_app (t rest : string) : Js.dropPrefix t (t ++ rest) = Some rest.
Proof. now apply dropPrefix_spec. Qed.

End FenceFacts.

(** X13. An answer wrapped in a code fence whose tag is made of letters
    (possibly none) is unwrapped: [generateCodeFix] and [generateUnitTests]
    return exactly the text between the opening fence line and the closing
    fence, whatever that text is. *)
Theorem fenced_answer_is_unwrapped :
  forall (tag body code : string),
    Js.allChars Js.isLetter tag = true ->
    let answer :=
      ("```" ++ tag ++ String "010" (body ++ String "010" "```"))%string in
    Gemini.generateCodeFix (Gemini.Answered (Some answer)) code = Some body
    /\ Gemini.generateUnitTests (Gemini.Answered (Some answer)) = Some body.
Proof.
  intros tag body code T answer.
  assert (C : Gemini.cleanCode answer = body).
  { unfold Gemini.cleanCode, answer. rewrite startsWith_app.
    unfold Gemini.stripOpeningFence. rewrite dropPrefix_app.
    rewrite (dropLetters_tag tag _ "010" T eq_refl). simpl.
    unfold Gemini.stripClosingFence.
    now rewrite (dropSuffix_app (String "010" "```") body). }
  assert (N : Js.or_else (Some answer) code = answer
              /\ Js.or_else (Some answer) "" = answer) by now split.
  destruct N as [N1 N2].
  unfold Gemini.generateCodeFix, Gemini.generateUnitTests.
  now rewrite N1, N2, C.
Qed.

Lemma fenced_answer_is_unwrapped_witness :
  Gemini.generateCodeFix
    (Gemini.Answered
       (Some ("```ts" ++ String "010" ("let x = 1;" ++ String "010" "```"))%string))
    "var x = 1"
  = Some "let x = 1;"%string.
Proof.
  apply (proj1 (fenced_answer_is_unwrapped "ts" "let x = 1;" "var x = 1" eq_refl)).
Defined.

(** X14. An answer that does not start with a code fence is returned as
    it is. When the answer is missing or empty, [generateCodeFix] returns
    the code it was given, so the proposed fix changes nothing, and
    [generateUnitTests] returns the empty text; a failed call gives no
    result. *)
Theorem plain_answer_is_kept :
  forall (code : string),
    (forall answer,
        answer <> ""%string ->
        Js.startsWith answer "```" = false ->
        Gemini.generateCodeFix (Gemini.Answered (Some answer)) code = Some answer
        /\ Gemini.generateUnitTests (Gemini.Answered (Some answer)) = Some answer)
    /\ (Js.startsWith code "```" = false ->
        Gemini.generateCodeFix (Gemini.Answered None) code = Some code
        /\ Gemini.generateCodeFix (Gemini.Answered (Some "")) code = Some code)
    /\ Gemini.generateUnitTests (Gemini.Answered None) = Some ""%string
    /\ Gemini.generateUnitTests (Gemini.Answered (Some "")) = Some ""%string
    /\ Gemini.generateCodeFix Gemini.Failed code = None
    /\ Gemini.generateUnitTests Gemini.Failed = None.
Proof.
  intros code. split; [|split].
  - intros answer N S.
    unfold Gemini.generateCodeFix, Gemini.generateUnitTests, Gemini.cleanCode.
    destruct answer as [|c answer]; [contradiction|].
    cbn [Js.or_else Js.truthy]. now rewrite S.
  - intros S. unfold Gemini.generateCodeFix, Gemini.cleanCode.
    cbn [Js.or_else Js.truthy]. now rewrite S.
  - now repeat split.
Qed.

Lemma plain_answer_is_kept_witness :
  Gemini.generateCodeFix (Gemini.Answered (Some "x = 2")) "x = 1"
  = Some "x = 2"%string
  /\ Gemini.generateCodeFix (Gemini.Answered None) "x = 1" = Some "x = 1"%string.
Proof.
  destruct (plain_answer_is_kept "x = 1") as (H1 & H2 & _).
  split.
  - apply (H1 "x = 2"%string); [discriminate | reflexivity].
  - apply H2. reflexivity.
Defined.

(** X15. When the tag of the opening fence holds a character that is not
    a letter (as in c++ or objective-c), the opening fence line is left in
    the result while the closing fence is removed. *)
Theorem fence_with_symbol_in_tag_stays :
  forall (letters rest body code : string) (c : ascii),
    Js.allChars Js.isLetter letters = true ->
    Js.isLetter c = false ->
    c <> "010"%char ->
    let opening := ("```" ++ letters ++ String c rest)%string in
    let answer := (opening ++ String "010" (body ++ String "010" "```"))%string in
    Gemini.generateCodeFix (Gemini.Answered (Some answer)) code
    = Some (opening ++ String "010" body)%string.
Proof.
  intros letters rest body code c L C N opening answer.
  unfold Gemini.generateCodeFix. f_equal.
  assert (E : Js.or_else (Some answer) code = answer) by reflexivity.
  rewrite E. unfold Gemini.cleanCode.
  assert (S : Js.startsWith answer "```" = true).
  { unfold answer, opening. rewrite !append_assoc. apply startsWith_app. }
  rewrite S.
  assert (O : Gemini.stripOpeningFence answer = answer).
  { unfold Gemini.stripOpeningFence, answer, opening.
    rewrite !append_assoc, dropPrefix_app.
    change (String c rest ++ String "010" (body ++ String "010" "```"))%string
      with (String c (rest ++ String "010" (body ++ String "010" "```")))%string.
    rewrite (dropLetters_tag letters _ c L C).
    apply Ascii.eqb_neq in N. now rewrite N. }
  rewrite O. unfold Gemini.stripClosingFence, answer.
  change (String "010" (body ++ String "010" "```"))%string
    with (String "010" "" ++ (body ++ String "010" "```"))%string.
  rewrite <- !append_assoc.
  rewrite (dropSuffix_app (String "010" "```")).
  now rewrite !append_assoc.
Qed.

Lemma fence_with_symbol_in_tag_stays_witness :
  Gemini.generateCodeFix
    (Gemini.Answered
       (Some ("```c++" ++ String "010" ("int x;" ++ String "010" "```"))%string))
    "int y;"
  = Some ("```c++" ++ String "010" "int x;")%string.
Proof.
  apply (fence_with_symbol_in_tag_stays "c" "+" "int x;" "int y;" "+"%char);
    [reflexivity | reflexivity | discriminate].
Defined.

(** ** The coordinator: files and projects *)

Section WorkspaceFacts.

Import App.

Lemma find_map_same {A : Type} (pred : A -> bool) (g : A -> A) (l : list A) :
  (forall x, pred (g x) = pred x) ->
  find pred (map g l) = option_map g (find pred l).
Proof.
  intros P. induction l as [|x l IH]; simpl; [reflexivity|].
  rewrite P. now destruct (pred x).
Qed.

Lemma find_true {A : Type} (pred : A -> bool) (l : list A) (x : A) :
  find pred l = Some x -> pred x = true.
Proof. intros H. now apply find_some in H. Qed.

Lemma find_snoc_fresh {A : Type} (pred : A -> bool) (l : list A) (x : A) :
  (forall y, In y l -> pred y = false) -> pred x = true ->
  find pred (l ++ [x]) = Some x.
Proof.
  intros F T. induction l as [|y l IH]; simpl; [now rewrite T|].
  rewrite (F y (or_introl eq_refl)). apply IH. intros z I. apply F. now right.
Qed.

Lemma find_snoc_old {A : Type} (pred : A -> bool) (l : list A) (x y : A) :
  find pred l = Some y -> find pred (l ++ [x]) = Some y.
Proof.
  induction l as [|z l IH]; simpl; [discriminate|].
  destruct (pred z); [easy | exact IH].
Qed.

Lemma find_filter_other {A : Type} (pred keep : A -> bool) (l : list A) :
  (forall x, pred x = true -> keep x = true) ->
  find pred (filter keep l) = find pred l.
Proof.
  intros K. induction l as [|x l IH]; simpl; [reflexivity|].
  destruct (pred x) eqn:P.
  - rewrite (K x P). simpl. now rewrite P.
  - destruct (keep x); simpl; [now rewrite P | exact IH].
Qed.

(** The current project after an update of the files of the projects
    with the current id. *)
Lemma currentProject_inCurrent (st st' : State)
    (h : list FileData.t -> list FileData.t) :
  projects st' = inCurrent (currentProjectId st) h (projects st) ->
  currentProjectId st' = currentProjectId st ->
  currentProject st'
  = option_map (fun p => with_files p (h (Project.files p))) (currentProject st).
Proof.
  intros P C. unfold currentProject. rewrite P, C. unfold inCurrent.
  rewrite find_map_same.
  - destruct (find _ (projects st)) as [p|] eqn:F; [|reflexivity].
    simpl. now rewrite (find_true _ _ _ F).
  - intros p. cbv beta.
    destruct (same_id (Project.id p) (currentProjectId st)) eqn:E; simpl;
      now rewrite E.
Qed.

Lemma activeFile_from (st : State) :
  activeFile st
  = match currentProject st with
    | Some p =>
        find (fun f => same_id (FileData.id f) (activeFileId st)) (Project.files p)
    | None => None
    end.
Proof. reflexivity. Qed.

(** The active file after a rewriting of files that keeps their ids. *)
Lemma activeFile_onFiles (st st' : State) (sel : option string)
    (g : FileData.t -> FileData.t) :
  (forall f, FileData.id (g f) = FileData.id f) ->
  projects st' = inCurrent (currentProjectId st) (onFiles sel g) (projects st) ->
  currentProjectId st' = currentProjectId st ->
  activeFileId st' = activeFileId st ->
  activeFile st'
  = option_map (fun f => if same_id (FileData.id f) sel then g f else f)
      (activeFile st).
Proof.
  intros G P C A. rewrite !activeFile_from.
  rewrite (currentProject_inCurrent st st' _ P C), A.
  destruct (currentProject st) as [p|]; [|reflexivity]. simpl.
  unfold onFiles. apply find_map_same.
  intros f. cbv beta.
  destruct (same_id (FileData.id f) sel); [now rewrite G | reflexivity].
Qed.

Lemma inCurrent_compose (cur : option string)
    (h1 h2 : list FileData.t -> list FileData.t) (ps : list Project.t) :
  inCurrent cur h2 (inCurrent cur h1 ps) = inCurrent cur (fun fs => h2 (h1 fs)) ps.
Proof.
  unfold inCurrent. rewrite map_map. apply map_ext. intros p.
  destruct (same_id (Project.id p) cur) eqn:E; simpl; now rewrite E.
Qed.

Lemma inCurrent_ext (cur : option string)
    (h1 h2 : list FileData.t -> list FileData.t) (ps : list Project.t) :
  (forall fs, h1 fs = h2 fs) -> inCurrent cur h1 ps = inCurrent cur h2 ps.
Proof.
  intros E. unfold inCurrent. apply map_ext. intros p. now rewrite E.
Qed.

Lemma onFiles_compose (sel : option string) (g1 g2 : FileData.t -> FileData.t)
    (fs : list FileData.t) :
  (forall f, FileData.id (g1 f) = FileData.id f) ->
  onFiles sel g2 (onFiles sel g1 fs) = onFiles sel (fun f => g2 (g1 f)) fs.
Proof.
  intros G. unfold onFiles. rewrite map_map. apply map_ext. intros f.
  destruct (same_id (FileData.id f) sel) eqn:E; [|now rewrite E].
  now rewrite G, E.
Qed.

End WorkspaceFacts.

(** X16. An edit reaches the active file and nothing else of it: after
    [updateFileContent c] the active file is the same file with content
    [c], its staged content, cached analysis and archive as before (an
    edit does not invalidate the analysis); and of two edits in a row only
    the second counts. *)
Theorem edit_reaches_active_file :
  forall (c : string) (st : App.State) (af : FileData.t),
    App.activeFile st = Some af ->
    App.unset (App.currentProjectId st) = false ->
    App.unset (App.activeFileId st) = false ->
    App.activeFile (App.updateFileContent c st) = Some (App.with_content c af)
    /\ FileData.content (App.with_content c af) = c
    /\ FileData.analysis (App.with_content c af) = FileData.analysis af
    /\ FileData.stagingContent (App.with_content c af) = FileData.stagingContent af
    /\ FileData.history (App.with_content c af) = FileData.history af
    /\ forall c2,
         App.updateFileContent c2 (App.updateFileContent c st)
         = App.updateFileContent c2 st.
Proof.
  intros c st af Haf Uc Ua.
  assert (E : forall x, App.updateFileContent x st
                        = App.with_projects st
                            (App.inCurrent (App.currentProjectId st)
                               (App.onFiles (App.activeFileId st)
                                  (App.with_content x))
                               (App.projects st))).
  { intros x. unfold App.updateFileContent. now rewrite Uc, Ua. }
  split; [|repeat split].
  - rewrite (activeFile_onFiles st (App.updateFileContent c st)
               (App.activeFileId st) (App.with_content c));
      try (rewrite E; reflexivity); [|reflexivity].
    rewrite Haf. simpl.
    apply activeFile_located in Haf as (_ & _ & _ & _ & _ & _ & H).
    now rewrite H.
  - intros c2. unfold App.updateFileContent at 1. rewrite (E c). simpl.
    rewrite Uc, Ua. simpl. rewrite (E c2). unfold App.with_projects. simpl.
    f_equal. rewrite inCurrent_compose. apply inCurrent_ext. intros fs.
    rewrite onFiles_compose by reflexivity.
    unfold App.onFiles. apply map_ext. intros f. now destruct (App.same_id _ _).
Qed.

Lemma edit_reaches_active_file_witness :
  option_map FileData.content
    (App.activeFile (App.updateFileContent "edited" archived_state))
  = Some "edited"%string.
Proof.
  destruct (edit_reaches_active_file "edited" archived_state _ eq_refl eq_refl eq_refl)
    as (H & _).
  rewrite H. reflexivity.
Defined.

(** X17. Submitting a non-blank file name in an open project appends
    exactly one file after the existing ones: its path is the trimmed
    input, its name the part after the last slash, its content a one-line
    comment holding the name. When the new id is not the id of an older
    file, the new file becomes the active file. The creation box is closed
    and emptied. *)
Theorem created_file_is_appended_and_opened :
  forall (e : App.CreateItemEnv) (st : App.State) (ui : App.Ui) (p : Project.t),
    App.currentProject st = Some p ->
    App.unset (App.currentProjectId st) = false ->
    App.creationType ui = App.file ->
    App.trim e (App.newItemName ui) <> ""%string ->
    let st' := fst (App.handleCreateSubmit e st ui) in
    let ui' := snd (App.handleCreateSubmit e st ui) in
    let newFile := App.createdItem e ui in
    App.currentProject st'
    = Some (App.with_files p (Project.files p ++ [newFile]))
    /\ FileData.path newFile = App.trim e (App.newItemName ui)
    /\ (exists dir, FileData.path newFile = (dir ++ FileData.name newFile)%string)
    /\ FileData.content newFile
       = ("// " ++ FileData.name newFile ++ String "010" (String "010" ""))%string
    /\ ((forall f, In f (Project.files p) -> FileData.id f <> App.item_id e) ->
        App.activeFile st' = Some newFile)
    /\ App.creationActive ui' = false
    /\ App.newItemName ui' = ""%string.
Proof.
  intros e st ui p Hp Uc K N st' ui' newFile.
  assert (T : Js.truthy (App.trim e (App.newItemName ui)) = true)
    by (destruct (App.trim e (App.newItemName ui)); [contradiction | reflexivity]).
  assert (E : App.handleCreateSubmit e st ui
              = (App.with_toast
                   (App.with_active
                      (App.with_projects st
                         (App.inCurrent (App.currentProjectId st)
                            (fun fs => fs ++ [newFile]) (App.projects st)))
                      (Some (FileData.id newFile)))
                   ("Created file: " ++ FileData.name newFile),
                 App.closeCreation ui "")).
  { unfold App.handleCreateSubmit. rewrite Uc, T, K. reflexivity. }
  unfold st', ui'. rewrite E. cbn [fst snd].
  assert (C : App.currentProject
                (App.with_toast
                   (App.with_active
                      (App.with_projects st
                         (App.inCurrent (App.currentProjectId st)
                            (fun fs => fs ++ [newFile]) (App.projects st)))
                      (Some (FileData.id newFile)))
                   ("Created file: " ++ FileData.name newFile))
              = Some (App.with_files p (Project.files p ++ [newFile]))).
  { rewrite (currentProject_inCurrent st _ (fun fs => fs ++ [newFile]));
      [now rewrite Hp | reflexivity | reflexivity]. }
  split; [exact C|].
  assert (F : newFile
              = App.newFileData (App.item_id e)
                  (Js.or_else (Js.pop (Js.split "/" (App.trim e (App.newItemName ui))))
                     (App.trim e (App.newItemName ui)))
                  (App.trim e (App.newItemName ui))
                  ("// " ++ Js.or_else
                              (Js.pop (Js.split "/" (App.trim e (App.newItemName ui))))
                              (App.trim e (App.newItemName ui))
                        ++ String "010" (String "010" ""))
                  (App.languageOf
                     (Js.or_else
                        (Js.pop (Js.split "/" (App.trim e (App.newItemName ui))))
                        (App.trim e (App.newItemName ui))))).
  { unfold newFile, App.createdItem. now rewrite K. }
  split; [now rewrite F|].
  split.
  { rewrite F. simpl.
    destruct (split_pieces "/" (App.trim e (App.newItemName ui)))
      as (pieces & lastPiece & Es & Ts & _).
    rewrite Es, pop_snoc. simpl.
    destruct (Js.truthy lastPiece); [eexists; exact Ts | now exists ""%string]. }
  split; [now rewrite F|].
  split; [|now split].
  intros Fresh. rewrite activeFile_from, C. simpl.
  apply find_snoc_fresh.
  - intros f I. simpl. apply String.eqb_neq. rewrite F. simpl.
    now apply Fresh.
  - simpl. apply String.eqb_refl.
Qed.

Lemma created_file_is_appended_and_opened_witness :
  option_map FileData.path
    (App.activeFile
       (fst (App.handleCreateSubmit plain_trim archived_state
               (App.mkUi App.WORKSPACE None "" App.file true "src/new.ts" ""))))
  = Some "src/new.ts"%string.
Proof.
  destruct (created_file_is_appended_and_opened plain_trim archived_state
              (App.mkUi App.WORKSPACE None "" App.file true "src/new.ts" "")
              _ eq_refl eq_refl eq_refl)
    as (_ & P & _ & _ & A & _).
  - discriminate.
  - rewrite A.
    + simpl. reflexivity.
    + intros f [<-|[<-|[]]]; discriminate.
Defined.

(** X18. A blank name, or no open project, creates nothing: the project
    list is untouched and the typed name is kept. Submitting a non-blank
    folder name appends one placeholder file named .gitkeep with empty
    content under the folder path, from which one final slash is dropped,
    and leaves the active file selector as it was. *)
Theorem created_folder_placeholder :
  forall (e : App.CreateItemEnv) (st : App.State) (ui : App.Ui),
    ((App.unset (App.currentProjectId st) = true
      \/ App.trim e (App.newItemName ui) = ""%string) ->
     fst (App.handleCreateSubmit e st ui) = st
     /\ App.newItemName (snd (App.handleCreateSubmit e st ui)) = App.newItemName ui
     /\ App.creationActive (snd (App.handleCreateSubmit e st ui)) = false)
    /\ (forall p,
          App.currentProject st = Some p ->
          App.unset (App.currentProjectId st) = false ->
          App.creationType ui = App.folder ->
          App.trim e (App.newItemName ui) <> ""%string ->
          let st' := fst (App.handleCreateSubmit e st ui) in
          let placeholder :=
            App.newFileData (App.item_id e) ".gitkeep"
              (App.stripFinalSlash (App.trim e (App.newItemName ui)) ++ "/.gitkeep")
              "" "text" in
          App.currentProject st'
          = Some (App.with_files p (Project.files p ++ [placeholder]))
          /\ App.activeFileId st' = App.activeFileId st
          /\ forall dir,
               App.trim e (App.newItemName ui) = (dir ++ "/")%string ->
               FileData.path placeholder = (dir ++ "/.gitkeep")%string).
Proof.
  intros e st ui. split.
  - intros B. unfold App.handleCreateSubmit.
    assert (G : App.unset (App.currentProjectId st)
                || negb (Js.truthy (App.trim e (App.newItemName ui))) = true).
    { destruct B as [->| ->]; [reflexivity | apply orb_true_r]. }
    rewrite G. now repeat split.
  - intros p Hp Uc K N st' placeholder.
    assert (T : Js.truthy (App.trim e (App.newItemName ui)) = true)
      by (destruct (App.trim e (App.newItemName ui)); [contradiction | reflexivity]).
    assert (E : App.handleCreateSubmit e st ui
                = (App.with_toast
                     (App.with_projects st
                        (App.inCurrent (App.currentProjectId st)
                           (fun fs => fs ++ [placeholder]) (App.projects st)))
                     ("Created folder: " ++ App.newItemName ui),
                   App.closeCreation ui "")).
    { unfold App.handleCreateSubmit, App.createdItem. rewrite Uc, T, K. reflexivity. }
    unfold st'. rewrite E. cbn [fst]. split; [|split].
    + rewrite (currentProject_inCurrent st _ (fun fs => fs ++ [placeholder]));
        [now rewrite Hp | reflexivity | reflexivity].
    + reflexivity.
    + intros dir D. unfold placeholder. simpl. rewrite D.
      unfold App.stripFinalSlash. now rewrite (dropSuffix_app "/" dir).
Qed.

Lemma created_folder_placeholder_witness :
  option_map (fun p => map FileData.path (Project.files p))
    (App.currentProject
       (fst (App.handleCreateSubmit plain_trim archived_state
               (App.mkUi App.WORKSPACE None "" App.folder true "docs/" ""))))
  = Some ["a.js"; "b.js"; "docs/.gitkeep"]%string.
Proof.
  destruct (created_folder_placeholder plain_trim archived_state
              (App.mkUi App.WORKSPACE None "" App.folder true "docs/" ""))
    as [_ H].
  destruct (H _ eq_refl eq_refl eq_refl) as (C & _); [discriminate|].
  rewrite C. reflexivity.
Defined.

Section DeleteFacts.

Import App.

Lemma nextActive_other (fileId : string) (cur act : option string)
    (ps : list Project.t) :
  same_id fileId act = false -> nextActive fileId cur act ps = act.
Proof.
  intros N. unfold nextActive.
  assert (G : forall a,
             fold_left
               (fun sel p =>
                  if same_id (Project.id p) cur then
                    if same_id fileId act then
                      match remaining fileId (Project.files p) with
                      | f :: _ => Some (FileData.id f)
                      | [] => None
                      end
                    else sel
                  else sel) ps a = a).
  { induction ps as [|p ps IH]; intros a; cbn [fold_left]; [reflexivity|].
    rewrite IH. rewrite N. now destruct (same_id (Project.id p) cur). }
  apply G.
Qed.

Lemma nextActive_none (fileId : string) (cur act : option string)
    (ps : list Project.t) :
  (forall p, In p ps -> same_id (Project.id p) cur = false) ->
  forall a,
    fold_left
      (fun sel p =>
         if same_id (Project.id p) cur then
           if same_id fileId act then
             match remaining fileId (Project.files p) with
             | f :: _ => Some (FileData.id f)
             | [] => None
             end
           else sel
         else sel) ps a = a.
Proof.
  induction ps as [|p ps IH]; intros F a; cbn [fold_left]; [reflexivity|].
  rewrite IH; [|intros q I; apply F; now right].
  now rewrite (F p (or_introl eq_refl)).
Qed.

Lemma nextActive_deleted (fileId : string) (cur act : option string)
    (ps : list Project.t) (p : Project.t) :
  NoDup (map Project.id ps) ->
  find (fun p => same_id (Project.id p) cur) ps = Some p ->
  same_id fileId act = true ->
  nextActive fileId cur act ps
  = match remaining fileId (Project.files p) with
    | f :: _ => Some (FileData.id f)
    | [] => None
    end.
Proof.
  intros N F A. unfold nextActive. generalize act at 2.
  induction ps as [|q ps IH]; intros a; [discriminate|].
  cbn [fold_left]. cbn [find] in F. cbn [map] in N.
  inversion N as [|? ? Nq Nps]; subst.
  destruct (same_id (Project.id q) cur) eqn:Q.
  - injection F as ->. rewrite nextActive_none; [now rewrite A|].
    intros r I. destruct (same_id (Project.id r) cur) eqn:R; [|reflexivity].
    exfalso. apply Nq. destruct cur as [c|]; [|discriminate].
    simpl in Q, R. apply String.eqb_eq in Q, R. rewrite Q, <- R.
    now apply in_map.
  - now apply IH.
Qed.

End DeleteFacts.

(** X19. After a confirmed deletion in an open project, no file with the
    deleted id is left in it and the other files are all there, in their
    order. When another file was active it stays active; when the active
    file was deleted (project ids being distinct), the first remaining file
    becomes active, or none when no file remains. A declined confirmation
    changes nothing. *)
Theorem deleted_file_is_gone :
  forall (fileId : string) (st : App.State) (p : Project.t),
    App.currentProject st = Some p ->
    App.unset (App.currentProjectId st) = false ->
    let st' := App.handleDeleteFile true fileId st in
    App.currentProject st'
    = Some (App.with_files p (App.remaining fileId (Project.files p)))
    /\ (forall f, In f (App.remaining fileId (Project.files p))
                  <-> In f (Project.files p) /\ FileData.id f <> fileId)
    /\ (App.same_id fileId (App.activeFileId st) = false ->
        App.activeFile st' = App.activeFile st)
    /\ (App.same_id fileId (App.activeFileId st) = true ->
        NoDup (map Project.id (App.projects st)) ->
        App.activeFile st' = hd_error (App.remaining fileId (Project.files p)))
    /\ App.handleDeleteFile false fileId st = st.
Proof.
  intros fileId st p Hp Uc st'.
  assert (E : st' = {| App.projects := App.inCurrent (App.currentProjectId st)
                                         (App.remaining fileId) (App.projects st);
                       App.currentProjectId := App.currentProjectId st;
                       App.activeFileId :=
                         App.nextActive fileId (App.currentProjectId st)
                           (App.activeFileId st) (App.projects st);
                       App.showDiff := App.showDiff st;
                       App.toastMsg := "File deleted" |}).
  { unfold st', App.handleDeleteFile. now rewrite Uc. }
  assert (C : App.currentProject st'
              = Some (App.with_files p (App.remaining fileId (Project.files p)))).
  { rewrite (currentProject_inCurrent st st' (App.remaining fileId));
      [now rewrite Hp | now rewrite E | now rewrite E]. }
  split; [exact C|]. split; [|split; [|split]].
  - intros f. unfold App.remaining. rewrite filter_In, negb_true_iff.
    now rewrite String.eqb_neq.
  - intros O. rewrite !activeFile_from, C, Hp. simpl.
    assert (A : App.activeFileId st' = App.activeFileId st).
    { rewrite E. simpl. now apply nextActive_other. }
    rewrite A. unfold App.remaining. apply find_filter_other.
    intros f Pf. apply negb_true_iff, String.eqb_neq. intros Eq.
    cbv beta in Pf. rewrite Eq, O in Pf. discriminate.
  - intros D N. rewrite activeFile_from, C. simpl.
    assert (A : App.activeFileId st'
                = match App.remaining fileId (Project.files p) with
                  | f :: _ => Some (FileData.id f)
                  | [] => None
                  end).
    { rewrite E. simpl. now apply nextActive_deleted. }
    rewrite A. destruct (App.remaining fileId (Project.files p)) as [|f fs];
      [reflexivity|].
    simpl. now rewrite String.eqb_refl.
  - unfold App.handleDeleteFile.
    now destruct (App.unset (App.currentProjectId st)).
Qed.

Lemma deleted_file_is_gone_witness :
  option_map FileData.path
    (App.activeFile (App.handleDeleteFile true "f1" archived_state))
  = Some "b.js"%string.
Proof.
  destruct (deleted_file_is_gone "f1" archived_state _ eq_refl eq_refl)
    as (_ & _ & _ & D & _).
  rewrite D; [reflexivity | reflexivity |].
  repeat constructor. simpl. intuition.
Defined.

Section ReplaceFacts.

Lemma cut_sound (pat : string) :
  forall s before after,
    Js.cut s pat = Some (before, after) ->
    s = (before ++ pat ++ after)%string.
Proof.
  induction s as [|c s IH]; intros before after; simpl.
  - destruct (Js.dropPrefix pat "") as [rest|] eqn:D; [|discriminate].
    intros [= <- <-]. now apply dropPrefix_spec in D.
  - destruct (Js.dropPrefix pat (String c s)) as [rest|] eqn:D.
    + intros [= <- <-]. now apply dropPrefix_spec in D.
    + destruct (Js.cut s pat) as [[b a]|]; [|discriminate].
      intros [= <- <-]. simpl. now rewrite (IH b a eq_refl).
Qed.

Lemma cut_none (pat : string) :
  forall s, Js.cut s pat = None -> Js.includes s pat = false.
Proof.
  induction s as [|c s IH]; simpl.
  - destruct (Js.dropPrefix pat "") as [rest|] eqn:D; [discriminate|].
    intros _. rewrite orb_false_r.
    destruct (Js.startsWith "" pat) eqn:S; [|reflexivity].
    apply startsWith_spec in S as [post S]. apply dropPrefix_spec in S.
    congruence.
  - destruct (Js.dropPrefix pat (String c s)) as [rest|] eqn:D; [discriminate|].
    destruct (Js.cut s pat) as [[b a]|]; [discriminate|].
    intros _. rewrite (IH eq_refl), orb_false_r.
    destruct (Js.startsWith (String c s) pat) eqn:S; [|reflexivity].
    apply startsWith_spec in S as [post S]. apply dropPrefix_spec in S.
    congruence.
Qed.

Lemma cut_unfold (s pat : string) :
  Js.cut s pat
  = match Js.dropPrefix pat s with
    | Some rest => Some (EmptyString, rest)
    | None =>
        match s with
        | EmptyString => None
        | String c r =>
            match Js.cut r pat with
            | Some (before, after) => Some (String c before, after)
            | None => None
            end
        end
    end.
Proof. destruct s; reflexivity. Qed.

(** The occurrence [cut] finds is the leftmost one. *)
Lemma cut_first (pat : string) :
  forall s before after,
    Js.cut s pat = Some (before, after) ->
    forall b a, s = (b ++ pat ++ a)%string ->
                String.length before <= String.length b.
Proof.
  induction s as [|c s IH]; intros before after; rewrite cut_unfold.
  - destruct (Js.dropPrefix pat "") as [rest|]; [|discriminate].
    intros [= <- <-] b a _. apply Nat.le_0_l.
  - destruct (Js.dropPrefix pat (String c s)) as [rest|] eqn:D.
    + intros [= <- <-] b a _. apply Nat.le_0_l.
    + destruct (Js.cut s pat) as [[b0 a0]|] eqn:C; [|discriminate].
      intros [= <- <-] b a E. destruct b as [|c' b]; simpl in E.
      * apply dropPrefix_spec in E. congruence.
      * injection E as _ E. simpl. apply le_n_S. exact (IH b0 a0 eq_refl b a E).
Qed.

(** Every occurrence is found. *)
Lemma cut_complete (pat : string) :
  forall b a, exists before after,
    Js.cut (b ++ pat ++ a) pat = Some (before, after).
Proof.
  induction b as [|c b IH]; intros a; rewrite cut_unfold.
  - simpl. rewrite (proj2 (dropPrefix_spec pat (pat ++ a) a) eq_refl).
    now exists EmptyString, a.
  - simpl. destruct (Js.dropPrefix pat (String c (b ++ pat ++ a))) as [rest|].
    + now exists EmptyString, rest.
    + destruct (IH a) as (b0 & a0 & ->). now exists (String c b0), a0.
Qed.

Lemma same_prefix :
  forall b b' r r' : string,
    (b ++ r)%string = (b' ++ r')%string ->
    String.length b = String.length b' -> b = b' /\ r = r'.
Proof.
  induction b as [|c b IH]; intros [|c' b'] r r' E L; simpl in *;
    try discriminate.
  - now split.
  - injection E as -> E. injection L as L.
    destruct (IH b' r r' E L) as [-> ->]. now split.
Qed.

(** [cut] returns the split at the leftmost occurrence, and only that. *)
Lemma cut_leftmost (s pat before after : string) :
  s = (before ++ pat ++ after)%string ->
  (forall b a, s = (b ++ pat ++ a)%string ->
               String.length before <= String.length b) ->
  Js.cut s pat = Some (before, after).
Proof.
  intros E M.
  destruct (cut_complete pat before after) as (b0 & a0 & C).
  rewrite <- E in C. rewrite C.
  pose proof (cut_sound pat s b0 a0 C) as E0.
  pose proof (cut_first pat s b0 a0 C before after E) as L1.
  pose proof (M b0 a0 E0) as L2.
  assert (L : String.length b0 = String.length before).
  { apply Nat.le_antisymm; assumption. }
  rewrite E in E0 at 1.
  destruct (same_prefix _ _ _ _ E0 (eq_sym L)) as [-> R].
  apply append_inv_head in R. now subst.
Qed.

Lemma substitute_plain (matched before after r : string) :
  Js.includes r "$" = false -> Js.substitute matched before after r = r.
Proof.
  rewrite includes_char, negb_false_iff.
  induction r as [|c r IH]; simpl; [reflexivity|].
  intros H. apply andb_true_iff in H as [C H].
  apply negb_true_iff in C. rewrite C. now rewrite IH.
Qed.

Lemma replace_plain (s pat r : string) :
  Js.includes r "$" = false ->
  Js.replace s pat r
  = match Js.cut s pat with
    | Some (before, after) => (before ++ r ++ after)%string
    | None => s
    end.
Proof.
  intros P. unfold Js.replace.
  destruct (Js.cut s pat) as [[b a]|]; [|reflexivity].
  now rewrite substitute_plain.
Qed.

Lemma allChars_app (f : ascii -> bool) (a b : string) :
  Js.allChars f (a ++ b) = Js.allChars f a && Js.allChars f b.
Proof.
  induction a as [|c a IH]; simpl; [reflexivity|].
  now rewrite IH, andb_assoc.
Qed.

End ReplaceFacts.

(** X20. Renaming keeps the identity of every file: every project and
    every file stays at its position, and ids, contents, staged contents,
    analyses and archives are untouched. In the projects carrying the
    current id, the files carrying the id being renamed get the new name,
    the language computed from it and the path with the name replaced;
    every other file and every other project is exactly as before. So the
    active file is the same file before and after, renamed when it is the
    one being renamed; the rename box is closed. Without an open project or
    a file being renamed, nothing happens. *)
Theorem rename_keeps_identity :
  forall (st : App.State) (ui : App.Ui),
    (App.unset (App.currentProjectId st) = true
     \/ App.unset (App.renamingFileId ui) = true ->
     App.handleFinishRename st ui = (st, ui))
    /\ (App.unset (App.currentProjectId st) = false ->
        App.unset (App.renamingFileId ui) = false ->
        let st' := fst (App.handleFinishRename st ui) in
        let rename := fun f =>
          if App.same_id (FileData.id f) (App.renamingFileId ui)
          then App.renamed (App.tempRenameName ui) f else f in
        App.activeFile st' = option_map rename (App.activeFile st)
        /\ App.renamingFileId (snd (App.handleFinishRename st ui)) = None
        /\ (forall f,
               FileData.id (rename f) = FileData.id f
               /\ FileData.content (rename f) = FileData.content f
               /\ FileData.stagingContent (rename f) = FileData.stagingContent f
               /\ FileData.analysis (rename f) = FileData.analysis f
               /\ FileData.history (rename f) = FileData.history f)
        /\ App.currentProjectId st' = App.currentProjectId st
        /\ App.activeFileId st' = App.activeFileId st
        /\ length (App.projects st') = length (App.projects st)
        /\ forall i p, nth_error (App.projects st) i = Some p ->
             exists p', nth_error (App.projects st') i = Some p'
               /\ if App.same_id (Project.id p) (App.currentProjectId st) then
                    p' = App.with_files p (Project.files p')
                    /\ length (Project.files p') = length (Project.files p)
                    /\ forall j f, nth_error (Project.files p) j = Some f ->
                         exists f', nth_error (Project.files p') j = Some f'
                           /\ if App.same_id (FileData.id f) (App.renamingFileId ui)
                              then
                                FileData.name f' = App.tempRenameName ui
                                /\ FileData.language f'
                                   = App.languageOf (App.tempRenameName ui)
                                /\ FileData.path f'
                                   = Js.replace (FileData.path f) (FileData.name f)
                                       (App.tempRenameName ui)
                                /\ FileData.id f' = FileData.id f
                                /\ FileData.content f' = FileData.content f
                                /\ FileData.stagingContent f'
                                   = FileData.stagingContent f
                                /\ FileData.analysis f' = FileData.analysis f
                                /\ FileData.history f' = FileData.history f
                                /\ FileData.isAnalyzing f' = FileData.isAnalyzing f
                                /\ FileData.isFixing f' = FileData.isFixing f
                                /\ FileData.cursor f' = FileData.cursor f
                              else f' = f
                  else p' = p).
Proof.
  intros st ui. split.
  - intros B. unfold App.handleFinishRename.
    assert (G : App.unset (App.currentProjectId st)
                || App.unset (App.renamingFileId ui) = true).
    { destruct B as [->| ->]; [reflexivity | apply orb_true_r]. }
    now rewrite G.
  - intros Uc Ur st' rename.
    assert (E : App.handleFinishRename st ui
                = (App.with_toast
                     (App.with_projects st
                        (App.inCurrent (App.currentProjectId st)
                           (App.onFiles (App.renamingFileId ui)
                              (App.renamed (App.tempRenameName ui)))
                           (App.projects st)))
                     "File renamed",
                   App.mkUi (App.view ui) None (App.tempRenameName ui)
                     (App.creationType ui) (App.creationActive ui)
                     (App.newItemName ui) (App.loadingMsg ui))).
    { unfold App.handleFinishRename. now rewrite Uc, Ur. }
    unfold st'. rewrite E. cbn [fst snd].
    split; [|split; [reflexivity|split; [|split; [reflexivity|split;
      [reflexivity|]]]]].
    + apply (activeFile_onFiles st _ (App.renamingFileId ui)
               (App.renamed (App.tempRenameName ui))); reflexivity.
    + intros f. unfold rename.
      now destruct (App.same_id (FileData.id f) (App.renamingFileId ui)).
    + assert (U : App.projects
                    (App.with_toast
                       (App.with_projects st
                          (App.inCurrent (App.currentProjectId st)
                             (App.onFiles (App.renamingFileId ui)
                                (App.renamed (App.tempRenameName ui)))
                             (App.projects st)))
                       "File renamed")
                  = App.updateBy (fun _ _ => App.renamed (App.tempRenameName ui))
                      (App.currentProjectId st) (App.renamingFileId ui)
                      (App.projects st)).
      { cbn [App.projects App.with_toast App.with_projects].
        unfold App.inCurrent, App.onFiles. apply map_as_updateBy. }
      rewrite U.
      destruct (updateBy_spec (fun _ _ => App.renamed (App.tempRenameName ui))
                  (App.currentProjectId st) (App.renamingFileId ui)
                  (App.projects st)) as [L K].
      split; [exact L|].
      intros i p Hp. destruct (K i p Hp) as (p' & Hp' & Sp).
      exists p'. split; [exact Hp'|].
      destruct (App.same_id (Project.id p) (App.currentProjectId st)); [|exact Sp].
      destruct Sp as (Ep & Lp & Fp). split; [exact Ep|]. split; [exact Lp|].
      intros j f Hf. destruct (Fp j f Hf) as (f' & Hf' & Sf).
      exists f'. split; [exact Hf'|].
      destruct (App.same_id (FileData.id f) (App.renamingFileId ui)); [|exact Sf].
      subst f'. simpl. now repeat split.
Qed.

Lemma rename_keeps_identity_witness :
  option_map (fun f => (FileData.id f, FileData.name f, FileData.content f))
    (App.activeFile
       (fst (App.handleFinishRename archived_state
               (App.mkUi App.WORKSPACE (Some "f1") "main.js" App.file false "" ""))))
  = Some ("f1", "main.js", "now")%string.
Proof.
  destruct (rename_keeps_identity archived_state
              (App.mkUi App.WORKSPACE (Some "f1") "main.js" App.file false "" ""))
    as [_ H].
  destruct (H eq_refl eq_refl) as (A & _).
  rewrite A. reflexivity.
Defined.

(** X21. When the new name holds no dollar sign, a renamed file gets the
    new name, and its path is its old path with the first occurrence of the
    old name replaced by the new name: the occurrence before which no
    other occurrence starts, so that when the name also occurs earlier in
    the path than the file-name segment (as in test/test), it is the
    earlier occurrence that changes. A name that occurs in the path has
    such a first occurrence; when the name does not occur in the path, the
    path stays. *)
Theorem renamed_path :
  forall (n : string) (f : FileData.t),
    Js.includes n "$" = false ->
    FileData.name (App.renamed n f) = n
    /\ (forall before after,
          FileData.path f = (before ++ FileData.name f ++ after)%string ->
          (forall b a,
              FileData.path f = (b ++ FileData.name f ++ a)%string ->
              String.length before <= String.length b) ->
          FileData.path (App.renamed n f) = (before ++ n ++ after)%string)
    /\ (occurs_in (FileData.name f) (FileData.path f) ->
        exists before after,
          FileData.path f = (before ++ FileData.name f ++ after)%string
          /\ (forall b a,
                FileData.path f = (b ++ FileData.name f ++ a)%string ->
                String.length before <= String.length b)
          /\ FileData.path (App.renamed n f) = (before ++ n ++ after)%string)
    /\ (~ occurs_in (FileData.name f) (FileData.path f) ->
        FileData.path (App.renamed n f) = FileData.path f).
Proof.
  intros n f P. split; [reflexivity|]. split; [|split].
  - intros before after E M. simpl.
    now rewrite (replace_plain _ _ _ P), (cut_leftmost _ _ before after E M).
  - intros (pre & post & E).
    destruct (cut_complete (FileData.name f) pre post) as (b0 & a0 & C).
    rewrite <- E in C. exists b0, a0.
    split; [now apply cut_sound|].
    split; [now apply (cut_first _ _ b0 a0 C)|].
    simpl. now rewrite (replace_plain _ _ _ P), C.
  - intros N. simpl. rewrite (replace_plain _ _ _ P).
    destruct (Js.cut (FileData.path f) (FileData.name f)) as [[b0 a0]|] eqn:C;
      [|reflexivity].
    exfalso. apply N. exists b0, a0. now apply cut_sound.
Qed.

Lemma renamed_path_witness :
  FileData.path
    (App.renamed "spec"
       (App.newFileData "t1" "test" "test/test" "" "text"))
  = "spec/test"%string
  /\ FileData.path
       (App.renamed "lib.ts"
          (App.newFileData "t2" "util.ts" "src/util.ts" "" "ts"))
     = "src/lib.ts"%string.
Proof.
  split.
  - apply (proj1 (proj2 (renamed_path "spec"
                           (App.newFileData "t1" "test" "test/test" "" "text")
                           eq_refl)) "" "/test" eq_refl).
    intros b a _. apply Nat.le_0_l.
  - apply (proj1 (proj2 (renamed_path "lib.ts"
                           (App.newFileData "t2" "util.ts" "src/util.ts" "" "ts")
                           eq_refl)) "src/" "" eq_refl).
    intros b a E. simpl in E.
    destruct b as [|c1 [|c2 [|c3 [|c4 b]]]]; simpl in *; try discriminate; lia.
Defined.

Section TestNameFacts.

Lemma dot_is_not_word (a b : string) :
  Js.allChars Js.isWord (a ++ String "." b) = false.
Proof.
  rewrite allChars_app. simpl. apply andb_false_r.
Qed.

Lemma testFilename_no_dot (name : string) :
  Js.includes name "." = false -> App.testFilename name = name.
Proof.
  rewrite includes_char, negb_false_iff.
  induction name as [|c name IH]; simpl; [reflexivity|].
  intros H. apply andb_true_iff in H as [C H].
  apply negb_true_iff in C. rewrite C. simpl. now rewrite IH.
Qed.

End TestNameFacts.

(** X22. The test file of a file named base.ext, where ext is a
    non-empty run of letters, digits and underscores, is named
    base.test.ext; a name without a dot is left as it is, so the test file
    of such a file gets the name of the file itself. *)
Theorem test_file_name :
  (forall base ext : string,
      ext <> ""%string ->
      Js.allChars Js.isWord ext = true ->
      App.testFilename (base ++ String "." ext)
      = (base ++ ".test" ++ String "." ext)%string)
  /\ (forall name : string,
        Js.includes name "." = false -> App.testFilename name = name).
Proof.
  split.
  - intros base ext N W. induction base as [|c base IH]; simpl.
    + rewrite W. destruct ext; [contradiction | reflexivity].
    + rewrite dot_is_not_word, andb_false_r. now rewrite IH.
  - apply testFilename_no_dot.
Qed.

Lemma test_file_name_witness :
  App.testFilename "parser.min.js" = "parser.min.test.js"%string
  /\ App.testFilename "Makefile" = "Makefile"%string.
Proof.
  destruct test_file_name as [H1 H2]. split.
  - apply (H1 "parser.min" "js")%string; [discriminate | reflexivity].
  - apply H2. reflexivity.
Defined.

(** X23. The test file is made from the file that was active when the
    generation was requested, whatever is open when the answer arrives:
    it holds the generated code, carries the language of that file, and
    its name and path are computed from that file's name and path. It is
    appended after the existing files of every project carrying the
    project id captured at the request, in the project list of the moment
    of arrival; every other project is as it is then; the new id becomes
    the active file id, so the new file is the active file when that
    project is still open and the id is not that of an older file. For a
    file whose name holds neither a dot nor a dollar sign, the test file
    has the very name and path of the file it tests. When the generation
    fails, no file is added and the selectors stay. In both cases the
    loading message is cleared. *)
Theorem generated_test_file :
  forall (newId : string) (st : App.State) (ui ui1 : App.Ui)
         (af : FileData.t) (cur : option string),
    App.testsRequested st ui = Some (af, cur, ui1) ->
    App.activeFile st = Some af
    /\ cur = App.currentProjectId st
    /\ App.unset cur = false
    /\ forall (st2 : App.State) (ui2 : App.Ui),
         (forall code,
             let st' := fst (App.testsSettled af cur (Some code) newId st2 ui2) in
             let newFile :=
               App.newFileData newId (App.testFilename (FileData.name af))
                 (Js.replace (FileData.path af) (FileData.name af)
                    (App.testFilename (FileData.name af)))
                 code (FileData.language af) in
             App.activeFileId st' = Some newId
             /\ App.currentProjectId st' = App.currentProjectId st2
             /\ length (App.projects st') = length (App.projects st2)
             /\ (forall i p,
                   nth_error (App.projects st2) i = Some p ->
                   nth_error (App.projects st') i
                   = Some (if App.same_id (Project.id p) cur
                           then App.with_files p (Project.files p ++ [newFile])
                           else p))
             /\ (forall p,
                   App.currentProjectId st2 = cur ->
                   App.currentProject st2 = Some p ->
                   App.currentProject st'
                   = Some (App.with_files p (Project.files p ++ [newFile]))
                   /\ ((forall f, In f (Project.files p) -> FileData.id f <> newId) ->
                       App.activeFile st' = Some newFile))
             /\ (Js.includes (FileData.name af) "." = false ->
                 Js.includes (FileData.name af) "$" = false ->
                 FileData.name newFile = FileData.name af
                 /\ FileData.path newFile = FileData.path af)
             /\ App.loadingMsg
                  (snd (App.testsSettled af cur (Some code) newId st2 ui2))
                = ""%string)
         /\ App.projects (fst (App.testsSettled af cur None newId st2 ui2))
            = App.projects st2
         /\ App.activeFileId (fst (App.testsSettled af cur None newId st2 ui2))
            = App.activeFileId st2
         /\ App.loadingMsg (snd (App.testsSettled af cur None newId st2 ui2))
            = ""%string.
Proof.
  intros newId st ui ui1 af cur R.
  unfold App.testsRequested in R.
  destruct (App.activeFile st) as [af0|] eqn:Haf; [|discriminate].
  destruct (App.unset (App.currentProjectId st)) eqn:Uc; [discriminate|].
  injection R as -> <- _.
  split; [reflexivity|]. split; [reflexivity|]. split; [exact Uc|].
  intros st2 ui2.
  split; [|split; [reflexivity|split; reflexivity]].
  intros code st' newFile.
  assert (E : st' = App.with_toast
                      (App.with_active
                         (App.with_projects st2
                            (App.inCurrent (App.currentProjectId st)
                               (fun fs => fs ++ [newFile]) (App.projects st2)))
                         (Some newId))
                      "Tests Generated") by reflexivity.
  assert (A : App.activeFileId st' = Some newId) by now rewrite E.
  split; [exact A|]. split; [now rewrite E|].
  split; [rewrite E; apply length_map|].
  split.
  { intros i p Hp. rewrite E. cbn [App.projects App.with_toast App.with_active
      App.with_projects]. unfold App.inCurrent.
    now rewrite nth_error_map, Hp. }
  split.
  { intros p Same Hp.
    assert (C : App.currentProject st'
                = Some (App.with_files p (Project.files p ++ [newFile]))).
    { rewrite (currentProject_inCurrent st2 st' (fun fs => fs ++ [newFile]));
        [now rewrite Hp | now rewrite E, Same | now rewrite E]. }
    split; [exact C|].
    intros Fresh. rewrite activeFile_from, C, A. simpl.
    apply find_snoc_fresh.
    - intros f I. simpl. apply String.eqb_neq. now apply Fresh.
    - simpl. apply String.eqb_refl. }
  split; [|reflexivity].
  intros D S.
  pose proof (testFilename_no_dot _ D) as T.
  unfold newFile. simpl. rewrite T. split; [reflexivity|].
  rewrite (replace_plain _ _ _ S).
  destruct (Js.cut (FileData.path af) (FileData.name af)) as [[b a]|] eqn:K;
    [|reflexivity].
  symmetry. now apply cut_sound.
Qed.

Lemma generated_test_file_witness :
  option_map (fun p => map FileData.path (Project.files p))
    (App.currentProject
       (fst (App.testsSettled
               (FileData.mk "f1" "a.js" "a.js" "now" "js" None None None None
                  (Some [ FileVersion.mk "v1" 1 "first" "Before Fix 9:00:00 AM" ])
                  None)
               (Some "p1") (Some "test()") "t1"
               (App.with_active archived_state (Some "f2")) idle_ui)))
  = Some ["a.js"; "b.js"; "a.test.js"]%string.
Proof.
  destruct (generated_test_file "t1" archived_state idle_ui _ _ _ eq_refl)
    as (_ & _ & _ & H).
  destruct (H (App.with_active archived_state (Some "f2")) idle_ui) as [K _].
  destruct (K "test()"%string) as (_ & _ & _ & _ & C & _).
  destruct (C _ eq_refl eq_refl) as [C' _].
  refine (eq_trans
            (f_equal (option_map (fun p => map FileData.path (Project.files p))) C')
            _).
  reflexivity.
Defined.

Section FixFacts.

Import App.

Lemma rejectUpdate_inCurrent (cur act : option string) (ps : list Project.t) :
  rejectUpdate cur act ps = inCurrent cur (onFiles act clear_staging) ps.
Proof. reflexivity. Qed.

Lemma revertUpdate_inCurrent (cur act : option string) (c : string)
    (v : FileVersion.t) (ps : list Project.t) :
  revertUpdate cur act c v ps = inCurrent cur (onFiles act (reverted c v)) ps.
Proof. reflexivity. Qed.

Lemma find_mapi_from {A : Type} (pred : A -> bool) (h : nat -> A -> A)
    (l : list A) (x : A) :
  (forall k y, pred (h k y) = pred y) ->
  forall k0,
    find pred l = Some x ->
    exists k, find pred (Js.mapi_from h k0 l) = Some (h k x).
Proof.
  intros P. induction l as [|y l IH]; intros k0; simpl; [discriminate|].
  rewrite P. destruct (pred y).
  - intros [= ->]. now exists k0.
  - apply IH.
Qed.

(** The active file once a staged fix is accepted. *)
Lemma activeFile_accepted (e : AcceptEnv) (st : State) (af : FileData.t)
    (s : string) :
  activeFile st = Some af ->
  FileData.stagingContent af = Some s ->
  s <> ""%string ->
  exists v,
    FileVersion.content v = FileData.content af
    /\ activeFile (handleAcceptFix e st) = Some (accepted s v af)
    /\ currentProjectId (handleAcceptFix e st) = currentProjectId st
    /\ activeFileId (handleAcceptFix e st) = activeFileId st.
Proof.
  intros Haf Hs N.
  assert (E : handleAcceptFix e st
              = {| projects := acceptUpdate e (currentProjectId st)
                                 (activeFileId st) s (FileData.content af)
                                 (projects st);
                   currentProjectId := currentProjectId st;
                   activeFileId := activeFileId st;
                   showDiff := false;
                   toastMsg := "Changes Applied" |}).
  { unfold handleAcceptFix. rewrite Haf, Hs. now destruct s. }
  rewrite E. unfold activeFile, currentProject in *. simpl.
  destruct (find _ (projects st)) as [p|] eqn:Fp; [|discriminate].
  unfold acceptUpdate, Js.mapi.
  destruct (find_mapi_from
              (fun p => same_id (Project.id p) (currentProjectId st))
              (fun i p =>
                 if same_id (Project.id p) (currentProjectId st) then
                   with_files p
                     (Js.mapi_from
                        (fun j f =>
                           if same_id (FileData.id f) (activeFileId st) then
                             accepted s (before_fix e i j (FileData.content af)) f
                           else f) 0 (Project.files p))
                 else p)
              (projects st) p) with (k0 := 0) as [i Fi].
  - intros k y. destruct (same_id (Project.id y) (currentProjectId st)) eqn:Q;
      simpl; now rewrite Q.
  - exact Fp.
  - rewrite Fi. rewrite (find_true _ _ _ Fp). simpl.
    destruct (find_mapi_from
                (fun f => same_id (FileData.id f) (activeFileId st))
                (fun j f =>
                   if same_id (FileData.id f) (activeFileId st) then
                     accepted s (before_fix e i j (FileData.content af)) f
                   else f)
                (Project.files p) af) with (k0 := 0) as [j Fj].
    + intros k y. now destruct (same_id (FileData.id y) (activeFileId st)) eqn:Q.
    + exact Haf.
    + rewrite Fj. rewrite (find_true _ _ _ Haf).
      exists (before_fix e i j (FileData.content af)). now repeat split.
Qed.

End FixFacts.

(** X24. A fix request, its answer and a rejection leave the active file
    as it was, but for the in-flight flag, which ends false: content,
    cached analysis and archive are those of before, and nothing is staged.
    While the answer is awaited only the flag is set; when it arrives the
    returned code is staged, the content still untouched; of two answers
    for the same file the later one is the one staged; and a failed request
    only clears the flag. *)
Theorem fix_then_reject :
  forall (st st1 : App.State) (af : FileData.t) (code : string),
    App.activeFile st = Some af ->
    App.fixRequested st = Some st1 ->
    let cur := App.currentProjectId st in
    let act := App.activeFileId st in
    App.activeFile st1 = Some (App.with_fixing true af)
    /\ App.activeFile (App.fixSettled cur act (Some code) st1)
       = Some (App.staged code af)
    /\ FileData.content (App.staged code af) = FileData.content af
    /\ App.activeFile
         (App.handleRejectFix (App.fixSettled cur act (Some code) st1))
       = Some (FileData.mk (FileData.id af) (FileData.name af) (FileData.path af)
                 (FileData.content af) (FileData.language af)
                 (FileData.analysis af) (FileData.isAnalyzing af) None
                 (Some false) (FileData.history af) (FileData.cursor af))
    /\ (forall code2,
          App.activeFile
            (App.fixSettled cur act (Some code2)
               (App.fixSettled cur act (Some code) st1))
          = Some (App.staged code2 af))
    /\ App.activeFile (App.fixSettled cur act None st1)
       = Some (App.with_fixing false af).
Proof.
  intros st st1 af code Haf R cur act.
  unfold App.fixRequested in R. rewrite Haf in R.
  destruct (App.unset (App.currentProjectId st)); [discriminate|].
  injection R as <-.
  pose proof (activeFile_located st af Haf) as (_ & _ & _ & _ & _ & _ & Ha).
  set (st1 := App.with_projects st
                (App.inCurrent (App.currentProjectId st)
                   (App.onFiles (App.activeFileId st) (App.with_fixing true))
                   (App.projects st))).
  assert (A1 : App.activeFile st1 = Some (App.with_fixing true af)).
  { rewrite (activeFile_onFiles st st1 (App.activeFileId st)
               (App.with_fixing true)); try reflexivity.
    rewrite Haf. simpl. now rewrite Ha. }
  assert (S : forall c s0 a0,
             App.activeFile s0 = Some a0 ->
             FileData.id a0 = FileData.id af ->
             App.currentProjectId s0 = cur -> App.activeFileId s0 = act ->
             App.activeFile (App.fixSettled cur act (Some c) s0)
             = Some (App.staged c a0)).
  { intros c s0 a0 H0 I0 C0 C1.
    rewrite (activeFile_onFiles s0 _ act (App.staged c));
      try reflexivity; try (simpl; now rewrite ?C0, ?C1).
    rewrite H0. simpl. rewrite I0. unfold act. now rewrite Ha. }
  split; [exact A1|].
  split; [now apply (S code st1 _ A1)|].
  split; [reflexivity|].
  split; [|split].
  - rewrite (activeFile_onFiles (App.fixSettled cur act (Some code) st1) _ act
               App.clear_staging); try reflexivity.
    rewrite (S code st1 _ A1) by reflexivity. simpl.
    unfold act. now rewrite Ha.
  - intros code2.
    rewrite (S code2 _ (App.staged code (App.with_fixing true af)));
      try reflexivity.
    now apply (S code st1 _ A1).
  - rewrite (activeFile_onFiles st1 _ act (App.with_fixing false));
      try reflexivity.
    rewrite A1. simpl. unfold act. now rewrite Ha.
Qed.

Lemma fix_then_reject_witness :
  exists st1,
    App.fixRequested archived_state = Some st1
    /\ option_map FileData.stagingContent
         (App.activeFile
            (App.fixSettled (Some "p1") (Some "f1") (Some "fixed") st1))
       = Some (Some "fixed"%string).
Proof.
  eexists. split; [reflexivity|].
  destruct (fix_then_reject archived_state _ _ "fixed" eq_refl eq_refl)
    as (_ & S & _).
  refine (eq_trans (f_equal (option_map FileData.stagingContent) S) _).
  reflexivity.
Defined.

(** X25. Accepting a staged fix and then reverting, with confirmation, to
    the snapshot the accept has just archived brings back the content the
    file had before the accept, when the id drawn for that snapshot is not
    already the id of an older snapshot. The archive then ends with two
    more entries: the content before the fix, and the fix labeled
    "Before Revert". *)
Theorem accept_then_revert_round_trip :
  forall (e : App.AcceptEnv) (r : App.RevertEnv) (st : App.State)
         (af : FileData.t) (s : string),
    App.activeFile st = Some af ->
    FileData.stagingContent af = Some s ->
    s <> ""%string ->
    App.unset (App.currentProjectId st) = false ->
    App.confirm r = true ->
    exists v,
      FileVersion.content v = FileData.content af
      /\ App.activeFile (App.handleAcceptFix e st) = Some (App.accepted s v af)
      /\ ((forall u, In u (App.archive af) -> FileVersion.id u <> FileVersion.id v) ->
          exists af2,
            App.activeFile
              (App.handleRevertVersion r (FileVersion.id v)
                 (App.handleAcceptFix e st))
            = Some af2
            /\ FileData.content af2 = FileData.content af
            /\ FileData.id af2 = FileData.id af
            /\ App.archive af2
               = App.archive af
                 ++ [v; FileVersion.mk (App.revert_id r) (App.revert_now r) s
                          "Before Revert"]).
Proof.
  intros e r st af s Haf Hs N Uc K.
  destruct (activeFile_accepted e st af s Haf Hs N) as (v & Cv & A1 & C1 & I1).
  exists v. split; [exact Cv|]. split; [exact A1|].
  intros Fresh.
  set (st1 := App.handleAcceptFix e st) in *.
  set (af1 := App.accepted s v af) in *.
  assert (F : App.findVersion af1 (FileVersion.id v) = Some v).
  { unfold App.findVersion, af1. simpl. apply find_snoc_fresh.
    - intros u I. apply String.eqb_neq. now apply Fresh.
    - apply String.eqb_refl. }
  set (snap := FileVersion.mk (App.revert_id r) (App.revert_now r)
                 (FileData.content af1) "Before Revert").
  assert (E : App.handleRevertVersion r (FileVersion.id v) st1
              = {| App.projects :=
                     App.revertUpdate (App.currentProjectId st1)
                       (App.activeFileId st1) (FileVersion.content v) snap
                       (App.projects st1);
                   App.currentProjectId := App.currentProjectId st1;
                   App.activeFileId := App.activeFileId st1;
                   App.showDiff := App.showDiff st1;
                   App.toastMsg := "Version Restored" |}).
  { unfold App.handleRevertVersion. rewrite A1, C1, Uc, F, K. reflexivity. }
  exists (App.reverted (FileVersion.content v) snap af1).
  split; [|split; [|split]].
  - rewrite E.
    rewrite (activeFile_onFiles st1 _ (App.activeFileId st1)
               (App.reverted (FileVersion.content v) snap)); try reflexivity.
    rewrite A1. simpl.
    pose proof (activeFile_located st af Haf) as (_ & _ & _ & _ & _ & _ & Ha).
    now rewrite I1, Ha.
  - simpl. exact Cv.
  - reflexivity.
  - unfold App.archive at 1. simpl. unfold App.archive at 1. simpl.
    now rewrite <- app_assoc.
Qed.

Lemma accept_then_revert_round_trip_witness :
  exists v af2,
    App.activeFile
      (App.handleRevertVersion confirming (FileVersion.id v)
         (App.handleAcceptFix sample_accept_env staged_state))
    = Some af2
    /\ FileData.content af2 = "old"%string.
Proof.
  destruct (accept_then_revert_round_trip sample_accept_env confirming staged_state
              _ "new" eq_refl eq_refl) as (v & _ & _ & H);
    [discriminate | reflexivity | reflexivity |].
  destruct H as (af2 & A & C & _); [intros u []|].
  exists v, af2. split; [exact A | exact C].
Defined.

(** X26. Creating a project puts it in front of the older ones, which
    are kept in their order, makes it the current project, and makes its
    first file the active file; a project created without files has no
    active file. *)
Theorem created_project_is_current :
  forall (e : App.CreateEnv) (name : string) (files : list FileData.t)
         (githubUrl : option string) (st : App.State),
    let st' := App.createProject e name files githubUrl st in
    let newProject :=
      Project.mk (App.project_id e) name (App.created_at e) files None None
        githubUrl in
    App.projects st' = newProject :: App.projects st
    /\ App.currentProject st' = Some newProject
    /\ App.activeFile st' = hd_error files.
Proof.
  intros e name files githubUrl st st' newProject.
  assert (C : App.currentProject st' = Some newProject).
  { unfold App.currentProject, st', App.createProject. simpl.
    now rewrite String.eqb_refl. }
  split; [reflexivity|]. split; [exact C|].
  rewrite activeFile_from, C. unfold st', App.createProject. simpl.
  destruct files as [|f files]; [reflexivity|].
  simpl. now rewrite String.eqb_refl.
Qed.

(** X27. After a confirmed deletion no project with the deleted id is
    left, and the others are kept. Deleting the current project leaves no
    current project and no active file and shows the dashboard; deleting
    another one leaves the current project and the active file as they
    were. A declined confirmation changes nothing. *)
Theorem deleted_project_is_gone :
  forall (id : string) (st : App.State) (ui : App.Ui),
    let st' := fst (App.deleteProject true id st ui) in
    let ui' := snd (App.deleteProject true id st ui) in
    (forall p, In p (App.projects st')
               <-> In p (App.projects st) /\ Project.id p <> id)
    /\ (App.same_id id (App.currentProjectId st) = true ->
        App.currentProject st' = None
        /\ App.activeFile st' = None
        /\ App.view ui' = App.DASHBOARD)
    /\ (App.same_id id (App.currentProjectId st) = false ->
        App.currentProject st' = App.currentProject st
        /\ App.activeFile st' = App.activeFile st
        /\ App.view ui' = App.view ui)
    /\ App.deleteProject false id st ui = (st, ui).
Proof.
  intros id st ui st' ui'. split; [|split; [|split]].
  - intros p. unfold st', App.deleteProject. simpl.
    rewrite filter_In, negb_true_iff. now rewrite String.eqb_neq.
  - intros C.
    assert (N : App.currentProject st' = None).
    { unfold App.currentProject, st', App.deleteProject. simpl. rewrite C.
      simpl. induction (filter _ _) as [|p l IH]; [reflexivity | exact IH]. }
    split; [exact N|]. split.
    + now rewrite activeFile_from, N.
    + unfold ui', App.deleteProject. simpl. now rewrite C.
  - intros C.
    assert (K : App.currentProject st' = App.currentProject st).
    { unfold App.currentProject, st', App.deleteProject. simpl. rewrite C.
      apply find_filter_other. intros p Pp.
      apply negb_true_iff, String.eqb_neq. intros Eq.
      cbv beta in Pp. rewrite Eq in Pp.
      destruct (App.currentProjectId st) as [c|]; [|discriminate].
      simpl in *. rewrite C in Pp. discriminate. }
    split; [exact K|]. split.
    + rewrite !activeFile_from, K. reflexivity.
    + unfold ui', App.deleteProject. simpl. now rewrite C.
  - reflexivity.
Qed.

Lemma deleted_project_is_gone_witness :
  App.currentProject
    (fst (App.deleteProject true "p1" archived_state idle_ui)) = None
  /\ App.projects (fst (App.deleteProject true "p1" archived_state idle_ui)) = [].
Proof.
  destruct (deleted_project_is_gone "p1" archived_state idle_ui) as (_ & H & _).
  destruct (H eq_refl) as (N & _).
  split; [exact N | reflexivity].
Defined.
